(** * Solar sensor pipeline: quality report, cleaner, analysis, loader

    A shallow embedding of [src/data_cleaning.py], [src/analysis.py] and
    [src/data_loading.py], of the loader and the cleaner of the dashboard
    [scripts/app.py], and of the control flow of [scripts/main.py] and
    [scripts/streamlit_app.py] around them.

    Numbers: pandas stores the sensor columns as float64.  They are modelled
    as exact rationals ([Q]); a missing cell (NaN) is [None].  Every concrete
    input used below has values that binary floating point represents
    exactly (integers and dyadic fractions), and so have the quartiles,
    bounds and means computed from them.  The two aggregate tables of
    [src/analysis.py] are the exception: they are rounded to 2 decimals and
    then compared, so their entries are not computed here but taken from
    the library, see [Pandas] below.

    Frames: a [DataFrame] is column-major, as in pandas.  The numeric columns
    are an association list from column name to [Series]; the [Region] column
    (strings, attached by the loader) and the optional free-text [Comments]
    column are kept apart because they are not numeric; the [Timestamp] column,
    which none of the modelled functions reads, is left out.  The row index is the
    implicit 0..n-1 range: both producers of a frame ([pd.concat] with
    [ignore_index=True] and [reset_index(drop=True)]) return such an index,
    so a row label is a row position. *)

From Stdlib Require Import List Ascii String ZArith QArith Qround Bool Lia Lqa Arith.
From Stdlib Require OrdersEx.
Import ListNotations.

Local Open Scope string_scope.
Local Open Scope list_scope.
Local Open Scope Q_scope.

(* ================================================================== *)
(** ** Data model *)

Definition cell := option Q.
Definition Series := list cell.

Record DataFrame := mkDF {
  Region   : list string;
  Comments : option (list (option string));
  cols     : list (string * Series)
}.

(** [src/config.py] *)
Module Config.
Definition REGIONS : list string := ["Benin"; "Sierraleon"; "Togo"].
Definition SOLAR_COLS : list string := ["GHI"; "DNI"; "DHI"; "ModA"; "ModB"].
Definition CLIMATE_COLS : list string := ["Tamb"; "RH"; "WS"; "Precipitation"].
Definition DATE_COL : string := "Timestamp".
End Config.

(** Errors raised by the code: [KeyError] names the missing column(s),
    [ValueError] carries its message; the last two are what reading a
    region's file can raise. *)
Inductive error :=
| KeyError (names : list string)
| ValueError (msg : string)
| FileNotFoundError (path : string)
| ParserError (msg : string).

Definition Exn (A : Type) : Type := (error + A)%type.

(** [len(df)] *)
Definition nrows (df : DataFrame) : nat := List.length (Region df).

(** [df[c]] on the numeric columns; [None] when [c not in df.columns]. *)
Fixpoint get_col (c : string) (l : list (string * Series)) : option Series :=
  match l with
  | [] => None
  | (n, s) :: t => if String.eqb n c then Some s else get_col c t
  end.

(** [c in df.columns] *)
Definition has_col (c : string) (df : DataFrame) : bool :=
  match get_col c (cols df) with Some _ => true | None => false end.

(** Boolean-mask row selection [s[mask]]. *)
Fixpoint select {A : Type} (mask : list bool) (s : list A) : list A :=
  match mask, s with
  | b :: m, x :: t => if b then x :: select m t else select m t
  | _, _ => []
  end.

(** [df[mask]]: the same rows are kept in every column. *)
Definition take_rows (mask : list bool) (df : DataFrame) : DataFrame :=
  mkDF (select mask (Region df))
       (option_map (select mask) (Comments df))
       (map (fun p => (fst p, select mask (snd p))) (cols df)).

(* ================================================================== *)
(** ** Column statistics (pandas semantics: missing cells are skipped) *)

(** The non-missing values of a column, in row order. *)
Definition valid (s : Series) : list Q :=
  flat_map (fun c => match c with Some v => [v] | None => [] end) s.

Fixpoint insert_sorted (x : Q) (l : list Q) : list Q :=
  match l with
  | [] => [x]
  | y :: t => if Qle_bool x y then x :: l else y :: insert_sorted x t
  end.

Definition sort_values (l : list Q) : list Q := fold_right insert_sorted [] l.

(** [Series.quantile(q)], linear interpolation: the virtual position is
    [(n-1)*q]; the result interpolates between its two neighbours in the
    sorted valid values.  NaN when there is no valid value. *)
Definition quantile (q : Q) (s : Series) : cell :=
  let v := sort_values (valid s) in
  match v with
  | [] => None
  | v0 :: _ =>
      let pos := inject_Z (Z.of_nat (List.length v) - 1) * q in
      let lo := Z.to_nat (Qfloor pos) in
      let frac := pos - inject_Z (Qfloor pos) in
      let a := nth lo v v0 in
      let b := nth (S lo) v a in
      Some (a + (b - a) * frac)
  end.

Definition Qsum (l : list Q) : Q := fold_left Qplus l 0.

(** [Series.mean()]: NaN on no valid value. *)
Definition mean (s : Series) : cell :=
  match valid s with
  | [] => None
  | v => Some (Qsum v / inject_Z (Z.of_nat (List.length v)))
  end.

(** [Series.sum()]: missing cells count as 0. *)
Definition sum (s : Series) : cell := Some (Qsum (valid s)).

(** [Series.median()] *)
Definition median (s : Series) : cell := quantile (1#2) s.

(** [Series.max()] *)
Definition Qmax_list (v0 : Q) (l : list Q) : Q :=
  fold_left (fun m x => if Qle_bool m x then x else m) l v0.

Definition max (s : Series) : cell :=
  match valid s with
  | [] => None
  | v0 :: t => Some (Qmax_list v0 t)
  end.

(** Sample variance (ddof = 1): NaN with fewer than two valid values. *)
Definition var (s : Series) : cell :=
  match valid s with
  | [] | [_] => None
  | v =>
      let n := inject_Z (Z.of_nat (List.length v)) in
      let m := Qsum v / n in
      Some (Qsum (map (fun x => (x - m) * (x - m)) v) / (n - 1))
  end.

(* ================================================================== *)
(** ** Cleaner: [src/data_cleaning.py], [clean_data] *)

(** [DataFrame.drop(columns='Comments', errors='ignore')] *)
Definition drop_comments (df : DataFrame) : DataFrame :=
  mkDF (Region df) None (cols df).

(** [Series.ffill()]: a missing cell takes the last value seen above it. *)
Fixpoint ffill_from {A : Type} (last : option A) (s : list (option A))
  : list (option A) :=
  match s with
  | [] => []
  | None :: t => last :: ffill_from last t
  | Some v :: t => Some v :: ffill_from (Some v) t
  end.

Definition ffill_series {A : Type} (s : list (option A)) : list (option A) :=
  ffill_from None s.

(** [DataFrame.ffill()]: every column, over the whole frame in row order.
    [Region] holds no missing cell, so it is left as it is. *)
Definition ffill (df : DataFrame) : DataFrame :=
  mkDF (Region df)
       (option_map ffill_series (Comments df))
       (map (fun p => (fst p, ffill_series (snd p))) (cols df)).

(** [Series.clip(lower=lo)] and [Series.clip(lo, hi)]; NaN stays NaN. *)
Definition clip_lower (lo : Q) (c : cell) : cell :=
  option_map (fun v => if Qle_bool lo v then v else lo) c.

Definition clip (lo hi : Q) (c : cell) : cell :=
  option_map (fun v =>
    let w := if Qle_bool lo v then v else lo in
    if Qle_bool w hi then w else hi) c.

(** [f] applied to a column if its name is [c]. *)
Definition on_col (f : Series -> Series) (c : string) (p : string * Series)
  : string * Series :=
  if String.eqb (fst p) c then (fst p, f (snd p)) else p.

(** One iteration of a guarded column update:
    [if col in df.columns: df[col] = df[col].clip(...)].  Column names are
    unique in a frame pandas has read; the update is written so that it acts
    on each column of that name. *)
Definition update_col (f : cell -> cell) (df : DataFrame) (c : string)
  : DataFrame :=
  match get_col c (cols df) with
  | Some _ => mkDF (Region df) (Comments df) (map (on_col (map f) c) (cols df))
  | None => df
  end.

(** Lines 42-44: the loop over [Config.SOLAR_COLS]. *)
Definition clip_solar (df : DataFrame) : DataFrame :=
  fold_left (update_col (clip_lower 0)) Config.SOLAR_COLS df.

(** Lines 46-47. *)
Definition clip_rh (df : DataFrame) : DataFrame :=
  update_col (clip 0 100) df "RH".

(** The row mask of lines 55-56 for one column; a comparison with NaN
    (a missing cell, or the quartiles of a column with no value) is False. *)
Definition iqr_bounds (s : Series) : option (Q * Q) :=
  match quantile (1#4) s, quantile (3#4) s with
  | Some q1, Some q3 =>
      let iqr := q3 - q1 in
      Some (q1 - (3#2) * iqr, q3 + (3#2) * iqr)
  | _, _ => None
  end.

Definition within (b : option (Q * Q)) (c : cell) : bool :=
  match b, c with
  | Some (lo, hi), Some v => Qle_bool lo v && Qle_bool v hi
  | _, _ => false
  end.

Definition iqr_mask (s : Series) : list bool := map (within (iqr_bounds s)) s.

(** One iteration of the outlier loop, lines 51-56. *)
Definition outlier_step (df : DataFrame) (c : string) : DataFrame :=
  match get_col c (cols df) with
  | Some s => take_rows (iqr_mask s) df
  | None => df
  end.

Definition OUTLIER_COLS : list string := Config.SOLAR_COLS ++ ["Tamb"; "WS"].

(** Lines 50-56. *)
Definition remove_outliers (df : DataFrame) : DataFrame :=
  fold_left outlier_step OUTLIER_COLS df.

(** [reset_index(drop=True)]: the index is the implicit 0..n-1 range. *)
Definition reset_index (df : DataFrame) : DataFrame := df.

Definition clean_data (df : DataFrame) : DataFrame :=
  let df_clean := ffill (drop_comments df) in
  let df_clean := clip_solar df_clean in
  let df_clean := clip_rh df_clean in
  let df_clean := remove_outliers df_clean in
  reset_index df_clean.

(** A frame with numeric columns only, one region name repeated. *)
Definition frame_of (region : string) (n : nat) (c : list (string * Series))
  : DataFrame := mkDF (repeat region n) None c.

Definition nums (l : list Z) : Series := map (fun z => Some (inject_Z z)) l.

(* ================================================================== *)
(** ** Cleaning-impact analyzer: [src/analysis.py], [analyze_cleaning_impact] *)

Local Open Scope Z_scope.

Definition is_one (c : cell) : bool :=
  match c with Some v => Qeq_bool v 1 | None => false end.

(** [df[df['Cleaning'] == 1].index]: the labels of the flagged rows, in
    row order; [i] is the label of the first row of [s]. *)
Fixpoint flagged_from (i : Z) (s : Series) : list Z :=
  match s with
  | [] => []
  | c :: t => if is_one c then i :: flagged_from (i + 1) t
              else flagged_from (i + 1) t
  end.

(** [s.loc[a:b]]: label slices include both ends. *)
Definition loc_slice (a b : Z) (s : Series) : Series :=
  firstn (Z.to_nat (b + 1) - Z.to_nat a) (skipn (Z.to_nat a) s).

(** Subtraction of two cells; NaN propagates. *)
Definition cell_sub (x y : cell) : cell :=
  match x, y with
  | Some a, Some b => Some (a - b)%Q
  | _, _ => None
  end.

Record Event := mkEvent {
  ev_Region : string;
  ModA_Improvement : cell;
  ModB_Improvement : cell
}.

(** The guard of line 33. *)
Definition qualifies (df : DataFrame) (idx : Z) : bool :=
  (3 <? idx) && (idx <? Z.of_nat (nrows df) - 3).

Definition missing_of (names : list string) (df : DataFrame) : list string :=
  filter (fun c => negb (has_col c df)) names.

(** The body of the loop, lines 34-40, for one qualifying index. *)
Definition event_at (df : DataFrame) (idx : Z) : Exn Event :=
  match get_col "ModA" (cols df), get_col "ModB" (cols df) with
  | Some a, Some b =>
      let pre_A := mean (loc_slice (idx - 3) (idx - 1) a) in
      let pre_B := mean (loc_slice (idx - 3) (idx - 1) b) in
      let post_A := mean (loc_slice (idx + 1) (idx + 3) a) in
      let post_B := mean (loc_slice (idx + 1) (idx + 3) b) in
      inr (mkEvent (nth (Z.to_nat idx) (Region df) "")
                   (cell_sub post_A pre_A) (cell_sub post_B pre_B))
  | _, _ => inl (KeyError (missing_of ["ModA"; "ModB"] df))
  end.

(** The loop of lines 32-40; [results] is the list built so far. *)
Fixpoint collect_events (df : DataFrame) (idxs : list Z) (results : list Event)
  : Exn (list Event) :=
  match idxs with
  | [] => inr results
  | idx :: t =>
      if qualifies df idx then
        match event_at df idx with
        | inr e => collect_events df t (results ++ [e])
        | inl err => inl err
        end
      else collect_events df t results
  end.

(** The distinct group keys, sorted ([groupby] sorts its keys). *)
Fixpoint insert_key (k : string) (l : list string) : list string :=
  match l with
  | [] => [k]
  | h :: t =>
      match String.compare k h with
      | Lt => k :: l
      | Eq => l
      | Gt => h :: insert_key k t
      end
  end.

Definition group_keys (l : list string) : list string :=
  fold_left (fun acc k => insert_key k acc) l [].

(** The rows of [s] whose key is [k]. *)
Definition group_of {A : Type} (k : string) (keys : list string) (s : list A)
  : list A :=
  select (map (String.eqb k) keys) s.

Record ImpactRow := mkImpact {
  mean_ModA_Improvement : cell;
  mean_ModB_Improvement : cell
}.

Definition CleaningImpact := list (string * ImpactRow).

(** [pd.DataFrame(results).groupby('Region').mean()]: a frame built from an
    empty list has no column, so grouping it by ['Region'] raises
    [KeyError: 'Region']. *)
Definition group_mean (results : list Event) : Exn CleaningImpact :=
  match results with
  | [] => inl (KeyError ["Region"])
  | _ =>
      let keys := map ev_Region results in
      inr (map (fun k =>
                  (k, mkImpact
                        (mean (group_of k keys (map ModA_Improvement results)))
                        (mean (group_of k keys (map ModB_Improvement results)))))
               (group_keys keys))
  end.

(** The [results] list at the end of the loop. *)
Definition cleaning_events (df : DataFrame) : Exn (list Event) :=
  match get_col "Cleaning" (cols df) with
  | None => inl (KeyError ["Cleaning"])
  | Some s => collect_events df (flagged_from 0 s) []
  end.

Definition analyze_cleaning_impact (df : DataFrame) : Exn CleaningImpact :=
  match cleaning_events df with
  | inl err => inl err
  | inr results => group_mean results
  end.

(* ================================================================== *)
(** ** The installed pandas

    The two aggregate tables of [src/analysis.py] hold float64 numbers that
    pandas computes and numpy rounds to 2 decimals, and the Recommendation
    Engine selects among them by comparison, so that their last bits
    decide.  What these numbers are depends on the order of the
    floating-point operations inside the libraries, which is no part of
    this repository, and the repository pins no version of them.  The
    embedding takes from the library what the repository takes from it:

    - the number, already rounded, that an aggregate gives on the
      non-missing values of a group (a float64, hence a rational);
    - whether [idxmax] and [idxmin] raise on a series without a value, as
      they do from pandas 3.0, or return NaN, as they do before.

    Which cells of a table are NaN does not depend on the arithmetic and is
    modelled here. *)

(** The aggregates the two tables use. *)
Inductive stat := Mean | Std | Median | Sum | Max.

Record Pandas := mkPandas {
  all_na_raises : bool;
  rounded : stat -> list Q -> Q
}.

(** The cell [s.agg(f)] of a group [s] after [round(2)]: NaN, which stays
    NaN under rounding, when the group has no value ([sum] gives a
    number even then), and for [std] (ddof = 1) when it has fewer than
    two. *)
Definition agg (lib : Pandas) (f : stat) (s : Series) : cell :=
  match f, valid s with
  | Sum, v => Some (rounded lib Sum v)
  | Std, [] => None
  | Std, [_] => None
  | _, [] => None
  | _, v => Some (rounded lib f v)
  end.

(* ================================================================== *)
(** ** Exact arithmetic

    The library that computes every aggregate exactly and rounds the exact
    result to the nearest hundredth, halves to the even one.  It is what
    float64 gives on the frames used as examples below, whose values,
    partial sums, means and medians are integers or dyadic fractions that
    stay away from the rounding ties.  It is not what float64 gives on
    every frame, and no general statement below depends on it. *)

Definition round_half_even (x : Q) : Z :=
  let f := Qfloor x in
  match Qcompare (x - inject_Z f) (1 # 2) with
  | Lt => f
  | Gt => f + 1
  | Eq => if Z.even f then f else f + 1
  end.

Definition exact_round2 (c : cell) : cell :=
  option_map (fun x => (inject_Z (round_half_even (x * 100)) / 100)%Q) c.

(** The standard deviation is the square root of the sample variance [v], in
    general not a rational; its rounding to 2 decimals is computed exactly.
    With [w = 40000 * v] and [m = floor (sqrt w)], [100 * sqrt v = sqrt w / 2]
    has floor [m / 2]; its fractional part is below 1/2 when [m] is even,
    exactly 1/2 when [m] is odd and [w = m * m], above 1/2 otherwise. *)
Definition round_sqrt_hundredths (v : Q) : Z :=
  let w := (v * 40000)%Q in
  let m := Z.sqrt (Qfloor w) in
  let f := m / 2 in
  if Z.even m then f
  else if Qeq_bool w (inject_Z (m * m)) then (if Z.even f then f else f + 1)
  else f + 1.

Definition exact_std_round2 (s : Series) : cell :=
  option_map (fun v => (inject_Z (round_sqrt_hundredths v) / 100)%Q) (var s).

Definition exact_rounded (f : stat) (v : list Q) : Q :=
  let s := map Some v in
  let c := match f with
           | Mean => exact_round2 (mean s)
           | Std => exact_std_round2 s
           | Median => exact_round2 (median s)
           | Sum => exact_round2 (sum s)
           | Max => exact_round2 (max s)
           end in
  match c with Some x => x | None => 0%Q end.

Definition exact_arithmetic (raises : bool) : Pandas :=
  mkPandas raises exact_rounded.

(* ================================================================== *)
(** ** Recommendation engine: [src/analysis.py], [generate_recommendations] *)

(** One row of [analysis], already rounded. *)
Record AggRow := mkAgg {
  GHI_mean : cell;
  GHI_std : cell;
  DNI_median : cell;
  Tamb_mean : cell;
  Tamb_std : cell;
  Precipitation_sum : cell;
  WSgust_max : cell
}.

Definition AGG_COLS : list string :=
  ["GHI"; "DNI"; "Tamb"; "Precipitation"; "WSgust"].

(** [df.groupby('Region').agg({...}).round(2)]: one row per region, regions
    sorted; [KeyError] when a column of the dictionary is absent. *)
Definition analysis_table (lib : Pandas) (df : DataFrame)
  : Exn (list (string * AggRow)) :=
  match get_col "GHI" (cols df), get_col "DNI" (cols df),
        get_col "Tamb" (cols df), get_col "Precipitation" (cols df),
        get_col "WSgust" (cols df) with
  | Some ghi, Some dni, Some tamb, Some prec, Some gust =>
      let g {A} k (s : list A) := group_of k (Region df) s in
      inr (map (fun k =>
                  (k, mkAgg (agg lib Mean (g k ghi))
                            (agg lib Std (g k ghi))
                            (agg lib Median (g k dni))
                            (agg lib Mean (g k tamb))
                            (agg lib Std (g k tamb))
                            (agg lib Sum (g k prec))
                            (agg lib Max (g k gust))))
               (group_keys (Region df)))
  | _, _, _, _, _ => inl (KeyError (missing_of AGG_COLS df))
  end.

(** The scan of [Series.idxmax()] / [Series.idxmin()] over the non-missing
    values: the label of the first occurrence of the extremum among them,
    [None] when there is none.  [best] is the candidate so far. *)
Fixpoint idx_scan (better : Q -> Q -> bool) (best : option (string * Q))
  (l : list (string * cell)) : option string :=
  match l with
  | [] => option_map fst best
  | (k, None) :: t => idx_scan better best t
  | (k, Some v) :: t =>
      match best with
      | None => idx_scan better (Some (k, v)) t
      | Some (_, b) =>
          if better v b then idx_scan better (Some (k, v)) t
          else idx_scan better best t
      end
  end.

Definition Qlt_bool (x y : Q) : bool := negb (Qle_bool y x).

(** What the scan gives back: on a series that has labels but no value,
    pandas 3.x raises [ValueError: Encountered all NA values], pandas 1.x
    and 2.x return NaN. *)
Definition idx_result (lib : Pandas) (r : option string)
  : Exn (option string) :=
  match r with
  | Some k => inr (Some k)
  | None => if all_na_raises lib
            then inl (ValueError "Encountered all NA values")
            else inr None
  end.

(** An empty series raises
    [ValueError: attempt to get argmax of an empty sequence]. *)
Definition idxmax (lib : Pandas) (l : list (string * cell))
  : Exn (option string) :=
  match l with
  | [] => inl (ValueError "attempt to get argmax of an empty sequence")
  | _ => idx_result lib (idx_scan (fun v b => Qlt_bool b v) None l)
  end.

Definition idxmin (lib : Pandas) (l : list (string * cell))
  : Exn (option string) :=
  match l with
  | [] => inl (ValueError "attempt to get argmin of an empty sequence")
  | _ => idx_result lib (idx_scan (fun v b => Qlt_bool v b) None l)
  end.

(** [analysis[(col, stat)]] *)
Definition column_of (f : AggRow -> cell) (t : list (string * AggRow))
  : list (string * cell) :=
  map (fun p => (fst p, f (snd p))) t.

Record Recommendation := mkRec {
  Best_Overall_Potential : option string;
  Most_Stable_Radiation : option string;
  Lowest_Maintenance_Risk : option string;
  Optimal_CSP_Location : option string
}.

Definition bind {A B : Type} (x : Exn A) (f : A -> Exn B) : Exn B :=
  match x with inl e => inl e | inr a => f a end.

Definition generate_recommendations (lib : Pandas) (df : DataFrame)
  : Exn Recommendation :=
  bind (analysis_table lib df) (fun analysis =>
  bind (idxmax lib (column_of GHI_mean analysis)) (fun best =>
  bind (idxmin lib (column_of GHI_std analysis)) (fun stable =>
  bind (idxmin lib (column_of Precipitation_sum analysis)) (fun risk =>
  bind (idxmax lib (column_of DNI_median analysis)) (fun csp =>
  inr (mkRec best stable risk csp)))))).

Local Close Scope Z_scope.

(* ================================================================== *)
(** ** Loader: [src/data_loading.py] *)

(** What [pd.read_csv] returns: a table that has no [Region] column yet. *)
Record RawFrame := mkRaw {
  raw_len : nat;
  raw_Comments : option (list (option string));
  raw_cols : list (string * Series)
}.

(** [region.replace('_', ' ')] *)
Fixpoint replace_underscore (s : string) : string :=
  match s with
  | EmptyString => EmptyString
  | String c t =>
      String (if Ascii.eqb c "_"%char then " "%char else c)
             (replace_underscore t)
  end.

Definition file_path (region : string) : string :=
  ("data/raw/" ++ region ++ "_solar_data.csv")%string.

(** The column names of several frames, each once, in order of first
    appearance. *)
Fixpoint dedup (l : list string) : list string :=
  match l with
  | [] => []
  | h :: t => h :: filter (fun x => negb (String.eqb x h)) (dedup t)
  end.

(** A column of [df] inside a concatenation: NaN in every row when [df]
    does not have it. *)
Definition col_or_nan (c : string) (df : DataFrame) : Series :=
  match get_col c (cols df) with
  | Some s => s
  | None => repeat None (nrows df)
  end.

Definition comments_or_nan (df : DataFrame) : list (option string) :=
  match Comments df with
  | Some s => s
  | None => repeat None (nrows df)
  end.

(** [pd.concat(dfs, ignore_index=True)] *)
Definition concat (dfs : list DataFrame) : DataFrame :=
  mkDF (flat_map Region dfs)
       (if existsb (fun d => match Comments d with Some _ => true
                                              | None => false end) dfs
        then Some (flat_map comments_or_nan dfs) else None)
       (map (fun c => (c, flat_map (col_or_nan c) dfs))
            (dedup (flat_map (fun d => map fst (cols d)) dfs))).

Section Loader.

(** The file system as the loader sees it: parsing the file at a path
    gives a table or raises. *)
Variable read_csv : string -> Exn RawFrame.

Definition load_region_data (region : string) : Exn DataFrame :=
  match read_csv (file_path region) with
  | inl e => inl e
  | inr raw =>
      inr (mkDF (repeat (replace_underscore region) (raw_len raw))
                (raw_Comments raw) (raw_cols raw))
  end.

(** The loop of lines 32-37 over [regions]; [dfs] is the list so far. *)
Fixpoint load_loop (regions : list string) (dfs : list DataFrame)
  : list DataFrame :=
  match regions with
  | [] => dfs
  | region :: t =>
      match load_region_data region with
      | inr df => load_loop t (dfs ++ [df])
      | inl _ => load_loop t dfs
      end
  end.

Definition load_regions (regions : list string) : Exn DataFrame :=
  match load_loop regions [] with
  | [] => inl (ValueError "No valid data available")
  | dfs => inr (concat dfs)
  end.

Definition load_all_regions_data : Exn DataFrame :=
  load_regions Config.REGIONS.

End Loader.

(* ================================================================== *)
(** ** Quality reporter: [src/data_cleaning.py], [generate_quality_report] *)

Record ReportRow := mkRow {
  Missing : nat;
  Zeros : nat;
  Negatives : option nat;
  Out_of_Range : option nat
}.

(** The report is keyed by column name; the order of its rows is not
    modelled. *)
Definition QualityReport := list (string * ReportRow).

Definition count {A : Type} (f : A -> bool) (l : list A) : nat :=
  List.length (filter f l).

Definition is_missing {A : Type} (c : option A) : bool :=
  match c with None => true | Some _ => false end.

Definition is_zero (c : cell) : bool :=
  match c with Some v => Qeq_bool v 0 | None => false end.

Definition is_negative (c : cell) : bool :=
  match c with Some v => Qlt_bool v 0 | None => false end.

(** Lines 12-16: [Negatives] is only computed for numeric columns. *)
Definition initial_report (df : DataFrame) : QualityReport :=
  (map (fun p => (fst p, mkRow (count is_missing (snd p))
                               (count is_zero (snd p))
                               (Some (count is_negative (snd p)))
                               None)) (cols df)
   ++ match Comments df with
      | Some c => [("Comments", mkRow (count is_missing c) 0%nat None None)]
      | None => []
      end
   ++ [("Region", mkRow 0%nat 0%nat None None)])%list.

Definition ranges : list (string * (Q * Q)) :=
  [("GHI", (0, 1500)%Q); ("RH", (0, 100)%Q); ("Tamb", (-20, 60)%Q)].

Definition out_of_range (lo hi : Q) (s : Series) : nat :=
  count (fun c => match c with
                  | Some v => Qlt_bool v lo || Qlt_bool hi v
                  | None => false
                  end) s.

(** [report.loc[col, 'Out of Range'] = n] *)
Definition set_out_of_range (col : string) (n : nat) (r : QualityReport)
  : QualityReport :=
  map (fun p => if String.eqb (fst p) col
                then (fst p, mkRow (Missing (snd p)) (Zeros (snd p))
                                   (Negatives (snd p)) (Some n))
                else p) r.

(** One iteration of the loop of lines 24-26. *)
Definition range_step (df : DataFrame) (r : QualityReport)
  (e : string * (Q * Q)) : QualityReport :=
  match get_col (fst e) (cols df) with
  | Some s => set_out_of_range (fst e) (out_of_range (fst (snd e)) (snd (snd e)) s) r
  | None => r
  end.

Definition generate_quality_report (df : DataFrame) : QualityReport :=
  fold_left (range_step df) ranges (initial_report df).

(* ================================================================== *)
(** ** The two functions as programs over a store of objects

    Python passes frames by reference.  The store holds every frame and
    report object; a reference is its position.  [alloc] is what a pandas
    method returning a new object does, [write_df] and [write_report] are
    the in-place item assignments ([df_clean[col] = ...],
    [report.loc[col, 'Out of Range'] = ...]). *)

Inductive object :=
| ODataFrame (d : DataFrame)
| OReport (r : QualityReport).

Definition store := list object.
Definition ref := nat.

(** A program: from a store to a result and a new store, or stuck on a
    dangling or ill-typed reference. *)
Definition M (A : Type) : Type := store -> option (A * store).

Definition ret {A : Type} (a : A) : M A := fun h => Some (a, h).

Definition mbind {A B : Type} (m : M A) (k : A -> M B) : M B :=
  fun h => match m h with
           | Some (a, h') => k a h'
           | None => None
           end.

Notation "x <- m ;; k" := (mbind m (fun x => k))
  (at level 61, m at next level, right associativity).

Definition alloc (o : object) : M ref :=
  fun h => Some (List.length h, h ++ [o]).

Definition read_df (r : ref) : M DataFrame :=
  fun h => match nth_error h r with
           | Some (ODataFrame d) => Some (d, h)
           | _ => None
           end.

Definition read_report (r : ref) : M QualityReport :=
  fun h => match nth_error h r with
           | Some (OReport q) => Some (q, h)
           | _ => None
           end.

Fixpoint replace_nth {A : Type} (n : nat) (x : A) (l : list A) : list A :=
  match n, l with
  | _, [] => []
  | O, _ :: t => x :: t
  | S k, y :: t => y :: replace_nth k x t
  end.

Definition write (r : ref) (o : object) : M unit :=
  fun h => Some (tt, replace_nth r o h).

(** A [for] loop whose body only acts on the store. *)
Fixpoint for_each {A : Type} (l : list A) (body : A -> M unit) : M unit :=
  match l with
  | [] => ret tt
  | x :: t => _ <- body x ;; for_each t body
  end.

(** A [for] loop that rebinds a local variable. *)
Fixpoint for_fold {A S : Type} (l : list A) (body : S -> A -> M S) (s : S)
  : M S :=
  match l with
  | [] => ret s
  | x :: t => s' <- body s x ;; for_fold t body s'
  end.

(** The body of the loop of lines 42-44 (and lines 46-47 for RH). *)
Definition clip_iteration (f : cell -> cell) (df_clean : ref) (col : string)
  : M unit :=
  d <- read_df df_clean ;;
  if has_col col d
  then write df_clean (ODataFrame (update_col f d col))
  else ret tt.

(** The body of the loop of lines 50-56: [df_clean = df_clean[mask]] binds
    the name to a new frame. *)
Definition outlier_iteration (df_clean : ref) (col : string) : M ref :=
  d <- read_df df_clean ;;
  match get_col col (cols d) with
  | Some s => alloc (ODataFrame (take_rows (iqr_mask s) d))
  | None => ret df_clean
  end.

Definition clean_data_prog (df : ref) : M ref :=
  d <- read_df df ;;
  dropped <- alloc (ODataFrame (drop_comments d)) ;;
  d <- read_df dropped ;;
  df_clean <- alloc (ODataFrame (ffill d)) ;;
  _ <- for_each Config.SOLAR_COLS (clip_iteration (clip_lower 0) df_clean) ;;
  _ <- clip_iteration (clip 0 100) df_clean "RH" ;;
  df_clean <- for_fold OUTLIER_COLS outlier_iteration df_clean ;;
  d <- read_df df_clean ;;
  alloc (ODataFrame (reset_index d)).

(** The body of the loop of lines 24-26. *)
Definition range_iteration (df report : ref) (e : string * (Q * Q)) : M unit :=
  d <- read_df df ;;
  match get_col (fst e) (cols d) with
  | Some s =>
      r <- read_report report ;;
      write report
        (OReport (set_out_of_range (fst e)
                    (out_of_range (fst (snd e)) (snd (snd e)) s) r))
  | None => ret tt
  end.

Definition generate_quality_report_prog (df : ref) : M ref :=
  d <- read_df df ;;
  report <- alloc (OReport (initial_report d)) ;;
  _ <- for_each ranges (range_iteration df report) ;;
  ret report.

(* ================================================================== *)
(** ** Notions used to state the properties of the cleaner *)

(** A column whose missing cells all come before its first value. *)
Fixpoint no_gap {A : Type} (s : list (option A)) : bool :=
  match s with
  | [] => true
  | None :: t => no_gap t
  | Some _ :: t => forallb (fun c => negb (is_missing c)) t
  end.

(** The most recent non-missing value of a list of cells. *)
Fixpoint last_valid {A : Type} (s : list (option A)) : option A :=
  match s with
  | [] => None
  | c :: t =>
      match last_valid t with
      | Some v => Some v
      | None => c
      end
  end.

(** Row [i] is the first row of a run of one region. *)
Definition run_start (regions : list string) (i : nat) : bool :=
  match i with
  | O => true
  | S j => negb (String.eqb (nth j regions "") (nth i regions ""))
  end.

(** The frame on which the outlier loop starts. *)
Definition clipped (df : DataFrame) : DataFrame :=
  clip_rh (clip_solar (ffill (drop_comments df))).

(** The columns the outlier loop has handled when it reaches [c]. *)
Fixpoint cols_before (c : string) (l : list string) : list string :=
  match l with
  | [] => []
  | h :: t => if String.eqb h c then [] else h :: cols_before c t
  end.

(** The intermediate frame at the time column [c] is filtered. *)
Definition frame_before (c : string) (df : DataFrame) : DataFrame :=
  fold_left outlier_step (cols_before c OUTLIER_COLS) (clipped df).

(** A cell holds a value that is at least 0. *)
Definition nonneg (x : cell) : Prop := exists v, x = Some v /\ 0 <= v.

(** Example frames. *)
Definition ghi_scenario (region : string) : DataFrame :=
  frame_of region 5 [("GHI", nums [-5; 10; 2000; 15; 12]%Z)].

Definition ghi_tail : DataFrame :=
  frame_of "Benin" 7 [("GHI", nums [1; 2; 3; 4; 5; 10; 30]%Z)].

Definition two_runs : DataFrame :=
  mkDF ["Benin"; "Togo"] None
       [("GHI", nums [10; 11]%Z); ("RH", [Some 50; None])].

(** Every cell of column [c], when the frame has it, satisfies [P]. *)
Definition col_Forall (P : cell -> Prop) (c : string) (df : DataFrame) : Prop :=
  forall s, get_col c (cols df) = Some s -> Forall P s.

(** The bounds a value of an outlier-checked column is kept within. *)
Definition kept_within (s_c : Series) (x : cell) : Prop :=
  within (iqr_bounds s_c) x = true.

(** What the first four steps of the cleaner leave true of a column, and of
    a frame. *)
Definition cleaned_col (p : string * Series) : Prop :=
  no_gap (snd p) = true /\
  (In (fst p) Config.SOLAR_COLS -> Forall (fun x => clip_lower 0 x = x) (snd p)) /\
  (fst p = "RH" -> Forall (fun x => clip 0 100 x = x) (snd p)).

Definition cleaned_frame (df : DataFrame) : Prop :=
  Comments df = None /\ Forall cleaned_col (cols df).

(** The mask that keeps, of the rows kept by [m1], those kept by [m2]. *)
Fixpoint compose_mask (m1 m2 : list bool) : list bool :=
  match m1 with
  | [] => []
  | false :: t => false :: compose_mask t m2
  | true :: t =>
      match m2 with
      | [] => []
      | b :: t2 => b :: compose_mask t t2
      end
  end.

(** [df1] is [df2] with some rows left out: same columns, same values, same
    order. *)
Definition rows_of (df1 df2 : DataFrame) : Prop :=
  df1 = df2 \/ exists mask, df1 = take_rows mask df2.

(* ================================================================== *)
(** ** Notions used to state the properties of the analysis and the loader *)

(** [Cleaning] is flagged once, at index 3 of 7 rows: rows 0-2 and 4-6 are
    there. *)
Definition week : DataFrame :=
  frame_of "Benin" 7
    [("ModA", nums [1; 2; 3; 4; 5; 6; 7]%Z);
     ("ModB", nums [2; 2; 2; 2; 3; 3; 3]%Z);
     ("Cleaning", nums [0; 0; 0; 1; 0; 0; 0]%Z)].

(** Eight rows, flagged at index 3 (three rows before it) and at index 4
    (three rows after it). *)
Definition eight : DataFrame :=
  frame_of "Benin" 8
    [("ModA", nums [1; 2; 3; 4; 5; 6; 7; 8]%Z);
     ("ModB", nums [2; 2; 2; 2; 3; 3; 3; 3]%Z);
     ("Cleaning", nums [0; 0; 0; 1; 1; 0; 0; 0]%Z)].

(** The labels of the flagged rows of a frame. *)
Definition flagged (df : DataFrame) : list Z :=
  match get_col "Cleaning" (cols df) with
  | Some s => flagged_from 0 s
  | None => []
  end.

(** The frames of the regions that load, in the order of the regions. *)
Definition loaded (read_csv : string -> Exn RawFrame) (regions : list string)
  : list DataFrame :=
  flat_map (fun r => match load_region_data read_csv r with
                     | inr df => [df]
                     | inl _ => []
                     end) regions.


(** A column of a table holds a value. *)
Definition has_value (l : list (string * cell)) : bool :=
  existsb (fun p => match snd p with Some _ => true | None => false end) l.

(** The readings the four selections need: a region with two GHI readings,
    for a standard deviation, and a region with a DNI reading, for a
    median. *)
Definition enough_readings (df : DataFrame) : bool :=
  match get_col "GHI" (cols df), get_col "DNI" (cols df) with
  | Some ghi, Some dni =>
      existsb (fun k => (2 <=? List.length
                                 (valid (group_of k (Region df) ghi)))%nat)
              (group_keys (Region df))
      && existsb (fun k => (1 <=? List.length
                                    (valid (group_of k (Region df) dni)))%nat)
                 (group_keys (Region df))
  | _, _ => false
  end.

(** [r] is the label of the first entry of [l] whose value is the best one:
    the values before it are strictly worse, those after it are not better.
    It is [None] exactly when [l] has no value. *)
Definition first_best (worse not_better : Q -> Q -> Prop)
  (l : list (string * cell)) (r : option string) : Prop :=
  match r with
  | Some k =>
      exists pre v post,
        l = pre ++ (k, Some v) :: post /\
        (forall k' v', In (k', Some v') pre -> worse v' v) /\
        (forall k' v', In (k', Some v') post -> not_better v' v)
  | None => forall k' c, In (k', c) l -> c = None
  end.

Definition first_max := first_best Qlt Qle.
Definition first_min := first_best (fun x y => y < x) (fun x y => y <= x).

(** Regions "A" and "B" with mean GHI 300 and 500. *)
Definition two_regions : DataFrame :=
  mkDF ["A"; "B"; "A"; "B"] None
       [("GHI", nums [290; 480; 310; 520]%Z);
        ("DNI", nums [100; 200; 110; 210]%Z);
        ("Tamb", nums [25; 26; 27; 28]%Z);
        ("Precipitation", nums [0; 1; 0; 1]%Z);
        ("WSgust", nums [3; 4; 5; 6]%Z)].


(** A file system in which only Togo's file is there and parses. *)
Definition only_togo (path : string) : Exn RawFrame :=
  if String.eqb path "data/raw/Togo_solar_data.csv"
  then inr (mkRaw 2 None [("GHI", nums [10; 11]%Z)])
  else if String.eqb path "data/raw/Sierraleon_solar_data.csv"
       then inl (ParserError "Error tokenizing data")
       else inl (FileNotFoundError path).

(* ================================================================== *)
(** ** Further notions: shape of a frame, what the cleaner does to a cell *)

(** Every column has one cell per row. *)
Definition well_formed (df : DataFrame) : Prop :=
  Forall (fun p => List.length (snd p) = nrows df) (cols df) /\
  match Comments df with
  | Some c => List.length c = nrows df
  | None => True
  end.

(** What the clipping steps do to a cell of column [c]. *)
Definition clip_of (c : string) : cell -> cell :=
  if existsb (String.eqb c) Config.SOLAR_COLS then clip_lower 0
  else if String.eqb c "RH" then clip 0 100
  else fun x => x.


(** [report.loc[c]]: the row of the report for column [c]. *)
Fixpoint report_row (c : string) (r : QualityReport) : option ReportRow :=
  match r with
  | [] => None
  | (n, row) :: t => if String.eqb n c then Some row else report_row c t
  end.

(** The valid range of a column, for the columns that have one. *)
Fixpoint range_in (c : string) (l : list (string * (Q * Q))) : option (Q * Q) :=
  match l with
  | [] => None
  | (n, b) :: t => if String.eqb n c then Some b else range_in c t
  end.

Definition range_of (c : string) : option (Q * Q) := range_in c ranges.

(** Strings in strictly ascending order: sorted, and each one once. *)
Fixpoint strictly_ascending (l : list string) : Prop :=
  match l with
  | [] => True
  | x :: t => Forall (fun y => String.compare x y = Lt) t /\ strictly_ascending t
  end.

(** [df.at[idx, 'Region']] *)
Definition region_at (df : DataFrame) (idx : Z) : string :=
  nth (Z.to_nat idx) (Region df) "".

(** Eight rows flagged at index 4, with no [ModB] column. *)
Definition no_modb : DataFrame :=
  frame_of "Togo" 8
    [("ModA", nums [1; 2; 3; 4; 5; 6; 7; 8]%Z);
     ("Cleaning", nums [0; 0; 0; 0; 1; 0; 0; 0]%Z)].

(* ================================================================== *)
(** ** Regional aggregator: [src/analysis.py], [calculate_regional_stats] *)

(** One row of the statistics table, rounded to 2 decimals. *)
Record StatsRow := mkStats {
  stats_GHI_mean : cell;
  stats_GHI_std : cell;
  stats_GHI_max : cell;
  stats_DNI_median : cell;
  stats_DNI_max : cell;
  stats_Tamb_mean : cell;
  stats_Tamb_std : cell;
  stats_WS_mean : cell;
  stats_WS_max : cell;
  stats_Precipitation_sum : cell
}.

Definition STATS_COLS : list string :=
  ["GHI"; "DNI"; "Tamb"; "WS"; "Precipitation"].

(** [df.groupby('Region').agg({...}).round(2)], lines 11-18; a column of
    the dictionary that the frame lacks raises [KeyError]. *)
Definition calculate_regional_stats (lib : Pandas) (df : DataFrame)
  : Exn (list (string * StatsRow)) :=
  match get_col "GHI" (cols df), get_col "DNI" (cols df),
        get_col "Tamb" (cols df), get_col "WS" (cols df),
        get_col "Precipitation" (cols df) with
  | Some ghi, Some dni, Some tamb, Some ws, Some prec =>
      let g {A} k (s : list A) := group_of k (Region df) s in
      inr (map (fun k =>
                  (k, mkStats (agg lib Mean (g k ghi))
                              (agg lib Std (g k ghi))
                              (agg lib Max (g k ghi))
                              (agg lib Median (g k dni))
                              (agg lib Max (g k dni))
                              (agg lib Mean (g k tamb))
                              (agg lib Std (g k tamb))
                              (agg lib Mean (g k ws))
                              (agg lib Max (g k ws))
                              (agg lib Sum (g k prec))))
               (group_keys (Region df)))
  | _, _, _, _, _ => inl (KeyError (missing_of STATS_COLS df))
  end.

(** [two_regions] with a wind-speed column. *)
Definition two_regions_ws : DataFrame :=
  mkDF ["A"; "B"; "A"; "B"] None
       [("GHI", nums [290; 480; 310; 520]%Z);
        ("DNI", nums [100; 200; 110; 210]%Z);
        ("Tamb", nums [25; 26; 27; 28]%Z);
        ("WS", nums [3; 4; 5; 6]%Z);
        ("Precipitation", nums [0; 1; 0; 1]%Z)].

(** A parsed table with one cell per row in every column. *)
Definition raw_well_formed (raw : RawFrame) : Prop :=
  Forall (fun p => List.length (snd p) = raw_len raw) (raw_cols raw) /\
  match raw_Comments raw with
  | Some c => List.length c = raw_len raw
  | None => True
  end.

(** The string has no underscore. *)
Fixpoint no_underscore (s : string) : bool :=
  match s with
  | EmptyString => true
  | String c t => negb (Ascii.eqb c "_"%char) && no_underscore t
  end.

(** The number of rows of several frames together. *)
Definition total_rows (dfs : list DataFrame) : nat :=
  fold_right (fun d n => (nrows d + n)%nat) 0%nat dfs.

(* ================================================================== *)
(** ** The dashboard: [scripts/app.py] *)

Module App.

Definition SOLAR_COLS : list string := ["GHI"; "DNI"; "DHI"; "ModA"; "ModB"].

(** An uploaded file: its name and what [pd.read_csv] makes of it. *)
Record Upload := mkUpload {
  name : string;
  parsed : Exn RawFrame
}.

(** [name.split('_')[0]]: the name up to its first underscore. *)
Fixpoint split_head (s : string) : string :=
  match s with
  | EmptyString => EmptyString
  | String c t =>
      if Ascii.eqb c "_"%char then EmptyString else String c (split_head t)
  end.

(** [load_region_data], lines 20-32: a file that does not parse gives the
    empty frame [pd.DataFrame()]. *)
Definition load_region_data (u : Upload) : DataFrame :=
  match parsed u with
  | inr raw =>
      mkDF (repeat (split_head (name u)) (raw_len raw))
           (raw_Comments raw) (raw_cols raw)
  | inl _ => mkDF [] None []
  end.

(** [df[c]]: a column the frame lacks raises [KeyError]. *)
Definition getitem (c : string) (df : DataFrame) : Exn Series :=
  match get_col c (cols df) with
  | Some s => inr s
  | None => inl (KeyError [c])
  end.

(** [df_clean[col] = df_clean[col].clip(...)], without a guard. *)
Definition clip_step (f : cell -> cell) (df : DataFrame) (c : string)
  : Exn DataFrame :=
  bind (getitem c df) (fun _ => inr (update_col f df c)).

(** One iteration of the outlier loop, lines 62-66, without a guard. *)
Definition filter_step (df : DataFrame) (c : string) : Exn DataFrame :=
  bind (getitem c df) (fun s => inr (take_rows (iqr_mask s) df)).

(** A loop over column names whose body can raise. *)
Definition for_each_exn (step : DataFrame -> string -> Exn DataFrame)
  (l : list string) (df : DataFrame) : Exn DataFrame :=
  fold_left (fun acc c => bind acc (fun d => step d c)) l (inr df).

(** [clean_solar_data], lines 53-68. *)
Definition clean_solar_data (df : DataFrame) : Exn DataFrame :=
  bind (for_each_exn (clip_step (clip_lower 0)) SOLAR_COLS
          (ffill (drop_comments df))) (fun df_clean =>
  bind (clip_step (clip 0 100) df_clean "RH") (fun df_clean =>
  bind (for_each_exn filter_step (SOLAR_COLS ++ ["Tamb"; "WS"]) df_clean)
       (fun df_clean => inr (reset_index df_clean)))).

(** Lines 185-187: the uploads are loaded, stacked and cleaned. *)
Definition full_df (uploads : list Upload) : DataFrame :=
  concat (map load_region_data uploads).

Definition cleaned_df (uploads : list Upload) : Exn DataFrame :=
  clean_solar_data (full_df uploads).

(** The columns [clean_solar_data] reads, in the order it first reads
    them. *)
Definition REQUIRED : list string := SOLAR_COLS ++ ["RH"; "Tamb"; "WS"].

End App.

(** Two cells hold the same number, or are both missing. *)
Definition cell_eq (x y : cell) : Prop :=
  match x, y with
  | Some a, Some b => a == b
  | None, None => True
  | _, _ => False
  end.

(* ================================================================== *)
(** ** The pipeline: [scripts/main.py], lines 24-30

    The report and the cleaner are both run on [raw_df]; writing their
    results to files is outside the store and left out. *)
Definition main_quality_then_clean (raw_df : ref) : M (ref * ref) :=
  quality_report <- generate_quality_report_prog raw_df ;;
  cleaned_df <- clean_data_prog raw_df ;;
  ret (quality_report, cleaned_df).

(** [two_regions_ws] with a gust column: every aggregated column is there. *)
Definition two_regions_full : DataFrame :=
  mkDF ["A"; "B"; "A"; "B"] None
       [("GHI", nums [290; 480; 310; 520]%Z);
        ("DNI", nums [100; 200; 110; 210]%Z);
        ("Tamb", nums [25; 26; 27; 28]%Z);
        ("WS", nums [3; 4; 5; 6]%Z);
        ("WSgust", nums [4; 5; 6; 7]%Z);
        ("Precipitation", nums [0; 1; 0; 1]%Z)].

(* ================================================================== *)
(** ** The second dashboard: [scripts/streamlit_app.py], lines 18-63

    Streamlit runs the script from the top on every interaction.  A button
    is true in the run its click starts; the session state is kept between
    runs; [df_clean] is a local variable of the script, bound only where
    the script assigns it.  The part of the script after line 63 draws
    plots on request and is left out. *)

Module Dashboard.

Record Session := mkSession {
  df : option DataFrame;
  df_clean : option DataFrame
}.

(** What ends a run early: a name that is not bound, or an error raised by
    a stage. *)
Inductive failure :=
| NameError (var : string)
| Raised (e : error).

(** The three tables of lines 53-61. *)
Record Shown := mkShown {
  stats : list (string * StatsRow);
  cleaning_impact : CleaningImpact;
  recommendations : Recommendation
}.

(** Lines 51-63, with the local [df_clean] bound or not. *)
Definition analyse (lib : Pandas) (local : option DataFrame)
  : failure + option Shown :=
  match local with
  | None => inl (NameError "df_clean")
  | Some c =>
      match calculate_regional_stats lib c with
      | inl e => inl (Raised e)
      | inr st =>
          match analyze_cleaning_impact c with
          | inl e => inl (Raised e)
          | inr ci =>
              match generate_recommendations lib c with
              | inl e => inl (Raised e)
              | inr rec => inr (Some (mkShown st ci rec))
              end
          end
      end
  end.

(** One run of the script: [load] is what [load_all_regions_data()] gives
    if it is called; the result is the session state after the run and how
    the run ends. *)
Definition run (lib : Pandas) (load : Exn DataFrame)
  (load_clicked clean_clicked : bool) (s : Session)
  : Session * (failure + option Shown) :=
  (* lines 20-26 *)
  let s1 := if load_clicked
            then match load with
                 | inr d => mkSession (Some d) (df_clean s)
                 | inl _ => s
                 end
            else s in
  (* line 29 *)
  match df s1 with
  | None => (s1, inr None)
  | Some d =>
      (* line 36 builds the quality report, which raises nothing and
         leaves [df] as it is; lines 41-44 *)
      let local := if clean_clicked then Some (clean_data d) else None in
      let s2 := if clean_clicked
                then mkSession (df s1) (Some (clean_data d)) else s1 in
      (* lines 46-47 *)
      let local := match df_clean s2 with
                   | Some c => Some c
                   | None => local
                   end in
      (s2, analyse lib local)
  end.

End Dashboard.

(* ================================================================== *)
(** * Properties *)

(** ** Frames and column selection *)

Lemma get_col_map (g : Series -> Series) (c : string) (l : list (string * Series)) :
  get_col c (map (fun p => (fst p, g (snd p))) l) = option_map g (get_col c l).
Proof.
  induction l as [|[n s] t IH]; simpl; [reflexivity|].
  destruct (String.eqb n c); [reflexivity | exact IH].
Qed.

Lemma get_col_update (f : cell -> cell) (c c' : string) (l : list (string * Series)) :
  get_col c (map (on_col (map f) c') l)
  = if String.eqb c c' then option_map (map f) (get_col c l) else get_col c l.
Proof.
  unfold on_col. induction l as [|[n s] t IH]; simpl.
  - destruct (String.eqb c c'); reflexivity.
  - destruct (String.eqb n c') eqn:E1; simpl.
    + apply String.eqb_eq in E1; subst n.
      rewrite (String.eqb_sym c' c).
      destruct (String.eqb c c') eqn:E2; [reflexivity | exact IH].
    + destruct (String.eqb n c) eqn:E2.
      * apply String.eqb_eq in E2; subst n. rewrite E1. reflexivity.
      * exact IH.
Qed.

Lemma get_col_take_rows (m : list bool) (c : string) (df : DataFrame) :
  get_col c (cols (take_rows m df)) = option_map (select m) (get_col c (cols df)).
Proof. unfold take_rows; simpl. apply get_col_map. Qed.

Lemma Forall_select {A : Type} (P : A -> Prop) (m : list bool) (s : list A) :
  Forall P s -> Forall P (select m s).
Proof.
  revert m; induction s as [|x t IH]; intros [|b m] H; simpl; auto.
  inversion H; subst. destruct b; auto.
Qed.

Lemma select_by_test {A : Type} (f : A -> bool) (s : list A) :
  Forall (fun x => f x = true) (select (map f s) s).
Proof.
  induction s as [|x t IH]; simpl; [constructor|].
  destruct (f x) eqn:E; auto.
Qed.

Lemma select_length {A : Type} (m : list bool) (s : list A) :
  (List.length (select m s) <= List.length s)%nat.
Proof.
  revert m; induction s as [|x t IH]; intros [|b m]; simpl; try lia.
  specialize (IH m). destruct b; simpl; lia.
Qed.

(** ** Column invariants through the steps of the cleaner *)

Lemma col_Forall_update_other (P : cell -> Prop) (f : cell -> cell)
  (c c' : string) (df : DataFrame) :
  (forall x, P x -> P (f x)) ->
  col_Forall P c df -> col_Forall P c (update_col f df c').
Proof.
  intros Hf H s. unfold update_col.
  destruct (get_col c' (cols df)) as [sc|] eqn:E; [|apply H].
  simpl. rewrite get_col_update.
  destruct (String.eqb c c'); [|apply H].
  destruct (get_col c (cols df)) as [s0|] eqn:E0; simpl; [|discriminate].
  intros [= <-]. specialize (H s0 E0).
  apply Forall_map. eapply Forall_impl; [|exact H]. auto.
Qed.

Lemma col_Forall_update_same (P : cell -> Prop) (f : cell -> cell)
  (c : string) (df : DataFrame) :
  (forall x, P (f x)) -> col_Forall P c (update_col f df c).
Proof.
  intros Hf s. unfold update_col.
  destruct (get_col c (cols df)) as [s0|] eqn:E; [|congruence].
  simpl. rewrite get_col_update, String.eqb_refl, E. simpl.
  intros [= <-]. apply Forall_map. apply Forall_forall. auto.
Qed.

Lemma col_Forall_fold_update (P : cell -> Prop) (f : cell -> cell)
  (c : string) (l : list string) (df : DataFrame) :
  (forall x, P x -> P (f x)) ->
  col_Forall P c df -> col_Forall P c (fold_left (update_col f) l df).
Proof.
  intros Hf. revert df; induction l as [|h t IH]; intros df H; simpl; auto.
  apply IH. apply col_Forall_update_other; auto.
Qed.

Lemma col_Forall_fold_update_in (P : cell -> Prop) (f : cell -> cell)
  (c : string) (l : list string) (df : DataFrame) :
  (forall x, P (f x)) -> In c l ->
  col_Forall P c (fold_left (update_col f) l df).
Proof.
  intros Hf. revert df; induction l as [|h t IH]; intros df Hin; simpl.
  - destruct Hin.
  - destruct (String.eqb_spec h c) as [->|Hne].
    + apply col_Forall_fold_update; auto. apply col_Forall_update_same; auto.
    + destruct Hin as [->|Hin]; [congruence|]. apply IH; auto.
Qed.

Lemma col_Forall_take_rows (P : cell -> Prop) (m : list bool) (c : string)
  (df : DataFrame) :
  col_Forall P c df -> col_Forall P c (take_rows m df).
Proof.
  intros H s. rewrite get_col_take_rows.
  destruct (get_col c (cols df)) as [s0|] eqn:E; simpl; [|discriminate].
  intros [= <-]. apply Forall_select, H, E.
Qed.

Lemma col_Forall_outlier_step (P : cell -> Prop) (c c' : string) (df : DataFrame) :
  col_Forall P c df -> col_Forall P c (outlier_step df c').
Proof.
  intros H. unfold outlier_step.
  destruct (get_col c' (cols df)); auto using col_Forall_take_rows.
Qed.

Lemma col_Forall_outlier_fold (P : cell -> Prop) (c : string) (l : list string)
  (df : DataFrame) :
  col_Forall P c df -> col_Forall P c (fold_left outlier_step l df).
Proof.
  revert df; induction l as [|h t IH]; intros df H; simpl; auto.
  apply IH, col_Forall_outlier_step, H.
Qed.

(** A column present after some outlier steps was present before them. *)
Lemma get_col_outlier_step_back (c c' : string) (df : DataFrame) (s : Series) :
  get_col c (cols (outlier_step df c')) = Some s ->
  exists s0, get_col c (cols df) = Some s0.
Proof.
  unfold outlier_step. destruct (get_col c' (cols df)); [|eauto].
  rewrite get_col_take_rows.
  destruct (get_col c (cols df)); simpl; [eauto | discriminate].
Qed.

Lemma get_col_outlier_fold_back (c : string) (l : list string) (df : DataFrame)
  (s : Series) :
  get_col c (cols (fold_left outlier_step l df)) = Some s ->
  exists s0, get_col c (cols df) = Some s0.
Proof.
  revert df s; induction l as [|h t IH]; intros df s H; simpl in *; [eauto|].
  destruct (IH _ _ H) as [s1 H1].
  eapply get_col_outlier_step_back; eauto.
Qed.

(** The heart of the outlier pass: what is left of a checked column lies
    within the bounds computed when the loop reached that column. *)
Lemma outlier_fold_within (l : list string) (df : DataFrame) (c : string)
  (s : Series) :
  In c l ->
  get_col c (cols (fold_left outlier_step l df)) = Some s ->
  exists s_c,
    get_col c (cols (fold_left outlier_step (cols_before c l) df)) = Some s_c /\
    Forall (kept_within s_c) s.
Proof.
  revert df; induction l as [|h t IH]; intros df Hin H; simpl in *.
  - destruct Hin.
  - destruct (String.eqb_spec h c) as [->|Hne].
    + simpl. destruct (get_col_outlier_fold_back _ _ _ _ H) as [s1 H1].
      destruct (get_col_outlier_step_back _ _ _ _ H1) as [s_c Hc].
      exists s_c; split; [exact Hc|].
      refine (col_Forall_outlier_fold _ c t (outlier_step df c) _ s H).
      intros s2. unfold outlier_step. rewrite Hc, get_col_take_rows, Hc. simpl.
      intros [= <-]. apply select_by_test.
    + destruct Hin as [->|Hin]; [congruence|]. simpl. apply IH; auto.
Qed.

Lemma clip_lower_nonneg (x : cell) (v : Q) :
  clip_lower 0 x = Some v -> 0 <= v.
Proof.
  destruct x as [a|]; simpl; [|discriminate].
  destruct (Qle_bool 0 a) eqn:E; intros [= <-].
  - apply Qle_bool_iff, E.
  - apply Qle_refl.
Qed.

Lemma clip_bounds (x : cell) (v : Q) :
  clip 0 100 x = Some v -> 0 <= v <= 100.
Proof.
  destruct x as [a|]; simpl; [|discriminate].
  destruct (Qle_bool 0 a) eqn:E0.
  - destruct (Qle_bool a 100) eqn:E1; intros [= <-].
    + split; apply Qle_bool_iff; assumption.
    + split; [discriminate | apply Qle_refl].
  - change (Qle_bool 0 100) with true. cbv iota. intros [= <-].
    split; [apply Qle_refl | discriminate].
Qed.

Lemma kept_within_value (s_c : Series) (x : cell) :
  kept_within s_c x ->
  exists v q1 q3,
    x = Some v /\
    quantile (1 # 4) s_c = Some q1 /\ quantile (3 # 4) s_c = Some q3 /\
    q1 - (3 # 2) * (q3 - q1) <= v <= q3 + (3 # 2) * (q3 - q1).
Proof.
  unfold kept_within, within, iqr_bounds.
  destruct (quantile (1 # 4) s_c) as [q1|]; [|discriminate].
  destruct (quantile (3 # 4) s_c) as [q3|]; [|discriminate].
  destruct x as [v|]; [|discriminate].
  intros H. apply andb_true_iff in H. destruct H as [H1 H2].
  exists v, q1, q3. repeat split; auto; apply Qle_bool_iff; assumption.
Qed.

Lemma clean_data_unfold (d : DataFrame) :
  clean_data d = remove_outliers (clipped d).
Proof. reflexivity. Qed.

(** ** The cleaner's value ranges *)

(** C6.  In the Dataset the Cleaner returns, every cell of every solar
    column (GHI, DNI, DHI, ModA, ModB) holds a value that is at least 0, and
    every value of RH lies between 0 and 100. *)
Theorem clean_data_ranges (d : DataFrame) (c : string) (s : Series) :
  get_col c (cols (clean_data d)) = Some s ->
  (In c Config.SOLAR_COLS -> Forall nonneg s) /\
  (c = "RH" -> Forall (fun x => forall v, x = Some v -> 0 <= v <= 100) s).
Proof.
  rewrite clean_data_unfold. unfold remove_outliers. intros H. split.
  - intros Hin.
    assert (Hout : In c OUTLIER_COLS) by (apply in_or_app; auto).
    destruct (outlier_fold_within _ _ _ _ Hout H) as (s_c & _ & Hw).
    assert (H0 : col_Forall (fun x => forall v, x = Some v -> 0 <= v) c (clipped d)).
    { unfold clipped, clip_rh. apply col_Forall_update_other.
      - intros x _ v Hv. apply (clip_bounds x v Hv).
      - apply col_Forall_fold_update_in; auto. intros x v. apply clip_lower_nonneg. }
    pose proof (col_Forall_outlier_fold _ c OUTLIER_COLS _ H0 s H) as Hs.
    rewrite Forall_forall in *. intros x Hx.
    destruct (kept_within_value _ _ (Hw x Hx)) as (v & _ & _ & -> & _).
    exists v; split; [reflexivity|]. apply (Hs _ Hx). reflexivity.
  - intros ->.
    refine (col_Forall_outlier_fold _ "RH" OUTLIER_COLS (clipped d) _ s H).
    unfold clipped, clip_rh. apply col_Forall_update_same.
    intros x v. apply clip_bounds.
Qed.

Lemma clean_data_ranges_witness :
  Forall nonneg (nums [1; 2; 3; 4; 5; 10]%Z).
Proof.
  exact (proj1 (clean_data_ranges ghi_tail "GHI" _ eq_refl) (or_introl eq_refl)).
Defined.

(** ** The outlier bound *)

(** C3, as the code has it.  In the Dataset the Cleaner returns, every value
    of every outlier-checked column lies within
    [Q1 - 1.5 IQR, Q3 + 1.5 IQR], where Q1 and Q3 are the quartiles of that
    column in the intermediate Dataset at the time the column was filtered. *)
Theorem outlier_bound_at_filter_time (d : DataFrame) (c : string) (s : Series) :
  In c OUTLIER_COLS ->
  get_col c (cols (clean_data d)) = Some s ->
  exists s_c,
    get_col c (cols (frame_before c d)) = Some s_c /\
    Forall (fun x => exists v q1 q3,
              x = Some v /\
              quantile (1 # 4) s_c = Some q1 /\ quantile (3 # 4) s_c = Some q3 /\
              q1 - (3 # 2) * (q3 - q1) <= v <= q3 + (3 # 2) * (q3 - q1)) s.
Proof.
  rewrite clean_data_unfold. unfold remove_outliers, frame_before. intros Hin H.
  destruct (outlier_fold_within _ _ _ _ Hin H) as (s_c & Hc & Hw).
  exists s_c; split; [exact Hc|].
  eapply Forall_impl; [|exact Hw]. apply kept_within_value.
Qed.

Lemma outlier_bound_at_filter_time_witness :
  exists s_c,
    get_col "GHI" (cols (frame_before "GHI" ghi_tail)) = Some s_c /\
    Forall (fun x => exists v q1 q3,
              x = Some v /\
              quantile (1 # 4) s_c = Some q1 /\ quantile (3 # 4) s_c = Some q3 /\
              q1 - (3 # 2) * (q3 - q1) <= v <= q3 + (3 # 2) * (q3 - q1))
           (nums [1; 2; 3; 4; 5; 10]%Z).
Proof.
  exact (outlier_bound_at_filter_time ghi_tail "GHI" _ (or_introl eq_refl) eq_refl).
Defined.

(** C3 as stated fails: with GHI = [1, 2, 3, 4, 5, 10, 30] the Cleaner drops
    30 (bounds [-5, 15] on the seven values) and returns
    [1, 2, 3, 4, 5, 10], whose own quartiles 2.25 and 4.75 give the bounds
    [-1.5, 8.5]: the value 10 lies outside them. *)
Lemma outlier_bound_on_final_fails :
  ~ (forall (d : DataFrame) (c : string) (s : Series),
       In c OUTLIER_COLS ->
       get_col c (cols (clean_data d)) = Some s ->
       Forall (fun x => exists v q1 q3,
                 x = Some v /\
                 quantile (1 # 4) s = Some q1 /\ quantile (3 # 4) s = Some q3 /\
                 q1 - (3 # 2) * (q3 - q1) <= v <= q3 + (3 # 2) * (q3 - q1)) s).
Proof.
  intros H.
  specialize (H ghi_tail "GHI" _ (or_introl eq_refl) eq_refl).
  rewrite Forall_forall in H.
  destruct (H (Some (inject_Z 10))) as (v & q1 & q3 & Hv & H1 & H3 & _ & Hhi).
  - simpl. tauto.
  - injection Hv as <-. vm_compute in H1, H3.
    injection H1 as <-. injection H3 as <-.
    revert Hhi. vm_compute. intros Hhi. apply Hhi. reflexivity.
Qed.

(** ** Forward fill *)

Lemma ffill_from_filled {A : Type} (s : list (option A)) (last : option A) :
  forallb (fun c => negb (is_missing c)) s = true -> ffill_from last s = s.
Proof.
  revert last; induction s as [|[v|] t IH]; intros last H; simpl in *;
    try reflexivity; try discriminate.
  f_equal. apply IH, H.
Qed.

Lemma ffill_from_value {A : Type} (s : list (option A)) (v : A) :
  forallb (fun c => negb (is_missing c)) (ffill_from (Some v) s) = true.
Proof.
  revert v; induction s as [|[w|] t IH]; intros v; simpl; auto.
Qed.

Lemma no_gap_ffill {A : Type} (s : list (option A)) :
  no_gap (ffill_series s) = true.
Proof.
  unfold ffill_series. induction s as [|[v|] t IH]; simpl; auto.
  apply ffill_from_value.
Qed.

Lemma ffill_no_gap {A : Type} (s : list (option A)) :
  no_gap s = true -> ffill_series s = s.
Proof.
  unfold ffill_series. induction s as [|[v|] t IH]; simpl; intros H; auto.
  - f_equal. apply ffill_from_filled, H.
  - f_equal. apply IH, H.
Qed.

Lemma forallb_select {A : Type} (f : A -> bool) (m : list bool) (s : list A) :
  forallb f s = true -> forallb f (select m s) = true.
Proof.
  revert m; induction s as [|x t IH]; intros [|b m] H; simpl in *; auto.
  apply andb_true_iff in H. destruct H as [Hx Ht].
  destruct b; simpl; [rewrite Hx; simpl|]; apply IH, Ht.
Qed.

Lemma filled_no_gap {A : Type} (s : list (option A)) :
  forallb (fun c => negb (is_missing c)) s = true -> no_gap s = true.
Proof.
  induction s as [|[v|] t IH]; simpl; intros H; auto. discriminate.
Qed.

Lemma no_gap_select {A : Type} (m : list bool) (s : list (option A)) :
  no_gap s = true -> no_gap (select m s) = true.
Proof.
  revert m; induction s as [|[v|] t IH]; intros [|b m] H; simpl in *; auto.
  - destruct b; simpl.
    + apply forallb_select, H.
    + apply filled_no_gap, forallb_select, H.
  - destruct b; simpl; auto.
Qed.

Lemma filled_map (f : cell -> cell) (s : Series) :
  (forall x, is_missing (f x) = is_missing x) ->
  forallb (fun c => negb (is_missing c)) (map f s)
  = forallb (fun c => negb (is_missing c)) s.
Proof.
  intros Hf. induction s as [|x t IH]; simpl; auto.
  now rewrite Hf, IH.
Qed.

Lemma no_gap_map (f : cell -> cell) (s : Series) :
  (forall x, is_missing (f x) = is_missing x) ->
  no_gap (map f s) = no_gap s.
Proof.
  intros Hf. induction s as [|x t IH]; simpl; auto.
  pose proof (Hf x) as Hx.
  destruct x as [v|], (f _) as [w|]; simpl in Hx; try discriminate; auto.
  apply filled_map, Hf.
Qed.

(** ** The clips are idempotent on cells *)

Lemma clip_lower_idem (x : cell) : clip_lower 0 (clip_lower 0 x) = clip_lower 0 x.
Proof.
  destruct x as [v|]; simpl; auto.
  destruct (Qle_bool 0 v) eqn:E; [now rewrite E | reflexivity].
Qed.

Lemma clip_idem (x : cell) : clip 0 100 (clip 0 100 x) = clip 0 100 x.
Proof.
  destruct x as [v|]; simpl; auto.
  destruct (Qle_bool 0 v) eqn:E0.
  - destruct (Qle_bool v 100) eqn:E1.
    + now rewrite E0, E1.
    + reflexivity.
  - reflexivity.
Qed.

Lemma clip_lower_missing (x : cell) : is_missing (clip_lower 0 x) = is_missing x.
Proof. destruct x; reflexivity. Qed.

Lemma clip_missing (x : cell) : is_missing (clip 0 100 x) = is_missing x.
Proof. destruct x; reflexivity. Qed.

(** ** The columns of an updated frame *)

Lemma get_col_none_on_col (f : Series -> Series) (c : string)
  (l : list (string * Series)) :
  get_col c l = None -> map (on_col f c) l = l.
Proof.
  unfold on_col. induction l as [|[n s] t IH]; simpl; auto.
  destruct (String.eqb n c); [discriminate|].
  intros H. f_equal. apply IH, H.
Qed.

Lemma update_col_cols (f : cell -> cell) (df : DataFrame) (c : string) :
  cols (update_col f df c) = map (on_col (map f) c) (cols df).
Proof.
  unfold update_col. destruct (get_col c (cols df)) eqn:E; simpl; auto.
  symmetry. apply get_col_none_on_col, E.
Qed.

Lemma update_col_Comments (f : cell -> cell) (df : DataFrame) (c : string) :
  Comments (update_col f df c) = Comments df.
Proof. unfold update_col. destruct (get_col c (cols df)); reflexivity. Qed.

Lemma update_col_Region (f : cell -> cell) (df : DataFrame) (c : string) :
  Region (update_col f df c) = Region df.
Proof. unfold update_col. destruct (get_col c (cols df)); reflexivity. Qed.

Lemma fold_update_Comments (f : cell -> cell) (l : list string) (df : DataFrame) :
  Comments (fold_left (update_col f) l df) = Comments df.
Proof.
  revert df; induction l as [|h t IH]; intros df; simpl; auto.
  now rewrite IH, update_col_Comments.
Qed.

Lemma fold_update_Region (f : cell -> cell) (l : list string) (df : DataFrame) :
  Region (fold_left (update_col f) l df) = Region df.
Proof.
  revert df; induction l as [|h t IH]; intros df; simpl; auto.
  now rewrite IH, update_col_Region.
Qed.

Lemma fold_update_cols (f : cell -> cell) (l : list string) (df : DataFrame) :
  cols (fold_left (update_col f) l df)
  = map (fun p => fold_left (fun q c => on_col (map f) c q) l p) (cols df).
Proof.
  revert df; induction l as [|h t IH]; intros df; simpl.
  - symmetry. apply map_id.
  - rewrite IH, update_col_cols, map_map. reflexivity.
Qed.

Lemma on_col_fst (f : Series -> Series) (c : string) (p : string * Series) :
  fst (on_col f c p) = fst p.
Proof. unfold on_col. destruct (String.eqb (fst p) c); reflexivity. Qed.

Lemma fold_on_col_fst (f : Series -> Series) (l : list string) (p : string * Series) :
  fst (fold_left (fun q c => on_col f c q) l p) = fst p.
Proof.
  revert p; induction l as [|h t IH]; intros p; simpl; auto.
  now rewrite IH, on_col_fst.
Qed.

(** A property of columns that [f] keeps holds after any number of
    updates; one that [f] brings about holds of a column that was updated. *)
Lemma fold_on_col_keeps (P : Series -> Prop) (f : Series -> Series)
  (l : list string) (p : string * Series) :
  (forall s, P s -> P (f s)) -> P (snd p) ->
  P (snd (fold_left (fun q c => on_col f c q) l p)).
Proof.
  intros Hf. revert p; induction l as [|h t IH]; intros p H; simpl; auto.
  apply IH. unfold on_col. destruct (String.eqb (fst p) h); simpl; auto.
Qed.

Lemma fold_on_col_sets (P : Series -> Prop) (f : Series -> Series)
  (l : list string) (p : string * Series) :
  (forall s, P s -> P (f s)) -> (forall s, P (f s)) -> In (fst p) l ->
  P (snd (fold_left (fun q c => on_col f c q) l p)).
Proof.
  intros Hk Hs. revert p; induction l as [|h t IH]; intros p Hin; simpl.
  - destruct Hin.
  - destruct (String.eqb_spec (fst p) h) as [E|E].
    + apply fold_on_col_keeps; auto. unfold on_col.
      rewrite E, String.eqb_refl. simpl. apply Hs.
    + apply IH. rewrite on_col_fst. destruct Hin; congruence.
Qed.

(** ** The cleaner applied to a cleaned frame *)

Lemma map_fixed {A : Type} (h : A -> A) (l : list A) :
  Forall (fun x => h x = x) l -> map h l = l.
Proof. induction 1; simpl; congruence. Qed.

Lemma Forall_fixed_map (f : cell -> cell) (s : Series) :
  (forall x, f (f x) = f x) -> Forall (fun x => f x = x) (map f s).
Proof. intros Hf. apply Forall_map, Forall_forall. auto. Qed.

Lemma Forall_fixed_keep (f g : cell -> cell) (s : Series) :
  (forall x, f x = x -> f (g x) = g x) ->
  Forall (fun x => f x = x) s -> Forall (fun x => f x = x) (map g s).
Proof.
  intros Hf H. apply Forall_map. eapply Forall_impl; [|exact H]. exact Hf.
Qed.

Lemma solar_not_rh (c : string) : In c Config.SOLAR_COLS -> String.eqb c "RH" = false.
Proof.
  simpl. intros [<-|[<-|[<-|[<-|[<-|[]]]]]]; reflexivity.
Qed.

Lemma clipped_is_cleaned (d : DataFrame) : cleaned_frame (clipped d).
Proof.
  unfold clipped, clip_rh, clip_solar. split.
  - rewrite update_col_Comments, fold_update_Comments. reflexivity.
  - rewrite update_col_cols, fold_update_cols.
    unfold ffill, drop_comments. cbn [cols].
    rewrite !Forall_map. apply Forall_forall. intros p _.
    match goal with
    | |- context [fold_left ?f ?l ?a] => set (q := fold_left f l a)
    end.
    assert (Hq : fst q = fst p) by (unfold q; now rewrite fold_on_col_fst).
    assert (Hgap : no_gap (snd q) = true).
    { unfold q. apply (fold_on_col_keeps (fun s => no_gap s = true)).
      - intros s Hs. rewrite no_gap_map; auto using clip_lower_missing.
      - simpl. apply no_gap_ffill. }
    unfold cleaned_col. rewrite on_col_fst. repeat split.
    + unfold on_col. destruct (String.eqb (fst q) "RH"); simpl; auto.
      rewrite no_gap_map; auto using clip_missing.
    + intros Hin. rewrite Hq in Hin. unfold on_col.
      rewrite Hq, (solar_not_rh _ Hin).
      unfold q.
      apply (fold_on_col_sets (Forall (fun x => clip_lower 0 x = x))); auto.
      * intros s Hs. apply Forall_fixed_keep; auto.
        intros x _. apply clip_lower_idem.
      * intros s. apply Forall_fixed_map, clip_lower_idem.
    + intros Hrh. unfold on_col. rewrite Hrh. simpl.
      apply Forall_fixed_map, clip_idem.
Qed.

Lemma take_rows_cleaned (m : list bool) (df : DataFrame) :
  cleaned_frame df -> cleaned_frame (take_rows m df).
Proof.
  intros [HC Hcols]. split; simpl.
  - now rewrite HC.
  - apply Forall_map. eapply Forall_impl; [|exact Hcols].
    intros p (Hg & Hs & Hr). repeat split; simpl.
    + apply no_gap_select, Hg.
    + intros Hin. apply Forall_select, Hs, Hin.
    + intros E. apply Forall_select, Hr, E.
Qed.

Lemma outlier_fold_cleaned (l : list string) (df : DataFrame) :
  cleaned_frame df -> cleaned_frame (fold_left outlier_step l df).
Proof.
  revert df; induction l as [|h t IH]; intros df H; simpl; auto.
  apply IH. unfold outlier_step.
  destruct (get_col h (cols df)); auto using take_rows_cleaned.
Qed.

Lemma clean_data_is_cleaned (d : DataFrame) : cleaned_frame (clean_data d).
Proof.
  rewrite clean_data_unfold. apply outlier_fold_cleaned, clipped_is_cleaned.
Qed.

Lemma update_col_fixed (f : cell -> cell) (df : DataFrame) (c : string) :
  Forall (fun p => fst p = c -> Forall (fun x => f x = x) (snd p)) (cols df) ->
  update_col f df c = df.
Proof.
  intros H. unfold update_col. destruct (get_col c (cols df)) as [s0|]; auto.
  destruct df as [R C cs]; simpl in *. f_equal.
  apply map_fixed. eapply Forall_impl; [|exact H].
  intros [n s] Hp. unfold on_col. simpl in *.
  destruct (String.eqb_spec n c) as [E|E]; auto.
  f_equal. apply map_fixed, Hp, E.
Qed.

Lemma clip_solar_fixed (l : list string) (df : DataFrame) :
  incl l Config.SOLAR_COLS -> cleaned_frame df ->
  fold_left (update_col (clip_lower 0)) l df = df.
Proof.
  intros Hl [_ H]. induction l as [|h t IH]; simpl; auto.
  rewrite update_col_fixed.
  - apply IH. intros c Hc. apply Hl. now right.
  - eapply Forall_impl; [|exact H].
    intros p (_ & Hs & _) E.
    pose proof (Hl h (or_introl eq_refl)) as Hh. rewrite <- E in Hh.
    exact (Hs Hh).
Qed.

Lemma clipped_fixed (df : DataFrame) : cleaned_frame df -> clipped df = df.
Proof.
  intros H. pose proof H as [HC Hcols]. unfold clipped.
  assert (E : ffill (drop_comments df) = df).
  { destruct df as [R C cs]; simpl in *. subst C. unfold ffill; simpl. f_equal.
    apply map_fixed. eapply Forall_impl; [|exact Hcols].
    intros [n s] (Hg & _). simpl in *. f_equal. apply ffill_no_gap, Hg. }
  rewrite E. unfold clip_solar. rewrite clip_solar_fixed; auto using incl_refl.
  unfold clip_rh. apply update_col_fixed.
  eapply Forall_impl; [|exact Hcols]. intros p (_ & _ & Hr). exact Hr.
Qed.

Lemma select_nil {A : Type} (m : list bool) : select m (@nil A) = [].
Proof. destruct m; reflexivity. Qed.

Lemma select_compose {A : Type} (m1 m2 : list bool) (s : list A) :
  select m2 (select m1 s) = select (compose_mask m1 m2) s.
Proof.
  revert m2 s; induction m1 as [|b t IH]; intros m2 s.
  - simpl. apply select_nil.
  - destruct s as [|x s].
    + simpl (select (b :: t) []). now rewrite !select_nil.
    + destruct b; simpl.
      * destruct m2 as [|b2 t2]; simpl; [reflexivity|].
        rewrite IH. reflexivity.
      * apply IH.
Qed.

Lemma take_rows_compose (m1 m2 : list bool) (df : DataFrame) :
  take_rows m2 (take_rows m1 df) = take_rows (compose_mask m1 m2) df.
Proof.
  unfold take_rows; simpl. f_equal.
  - apply select_compose.
  - destruct (Comments df); simpl; f_equal. apply select_compose.
  - rewrite map_map. apply map_ext. intros p. simpl. f_equal.
    apply select_compose.
Qed.

Lemma rows_of_take_rows (m : list bool) (df1 df2 : DataFrame) :
  rows_of df1 df2 -> rows_of (take_rows m df1) df2.
Proof.
  intros [->|[m1 ->]]; right.
  - now exists m.
  - exists (compose_mask m1 m). apply take_rows_compose.
Qed.

Lemma rows_of_outlier_fold (l : list string) (df1 df2 : DataFrame) :
  rows_of df1 df2 -> rows_of (fold_left outlier_step l df1) df2.
Proof.
  revert df1; induction l as [|h t IH]; intros df1 H; simpl; auto.
  apply IH. unfold outlier_step.
  destruct (get_col h (cols df1)); auto using rows_of_take_rows.
Qed.

(** C2, as the code has it.  On an already cleaned Dataset the first steps
    of the Cleaner (dropping the annotation column, forward fill, both
    clips) change nothing, so cleaning it again is the outlier pass alone:
    the result consists of rows of the cleaned Dataset, with their values
    and in their order, possibly fewer. *)
Theorem clean_data_twice (d : DataFrame) :
  clean_data (clean_data d) = remove_outliers (clean_data d) /\
  rows_of (clean_data (clean_data d)) (clean_data d).
Proof.
  assert (E : clean_data (clean_data d) = remove_outliers (clean_data d)).
  { rewrite (clean_data_unfold (clean_data d)).
    now rewrite clipped_fixed by apply clean_data_is_cleaned. }
  split; [exact E|]. rewrite E. unfold remove_outliers.
  apply rows_of_outlier_fold. now left.
Qed.

(** C2 as stated fails: cleaning GHI = [1, 2, 3, 4, 5, 10, 30] gives
    [1, 2, 3, 4, 5, 10]; cleaning that again recomputes the quartiles on six
    values (bounds [-1.5, 8.5]) and drops the row with 10. *)
Lemma clean_data_not_idempotent :
  ~ (forall d : DataFrame, clean_data (clean_data d) = clean_data d).
Proof.
  intros H. specialize (H ghi_tail).
  apply (f_equal nrows) in H. vm_compute in H. discriminate.
Qed.

(** ** The GHI scenario *)

(** C4, as the code has it.  For a single-region Dataset whose only checked
    column is GHI = [-5, 10, 2000, 15, 12], the Cleaner clips -5 to 0; the
    quartiles of [0, 10, 2000, 15, 12] are 10 and 15, so the bounds are
    [2.5, 22.5] and the IQR filter rejects both the row with 2000 and the
    row with the clipped 0: the returned Dataset has exactly 3 rows, with
    GHI = [10, 15, 12]. *)
Theorem ghi_scenario_cleaned (region : string) :
  (exists lo hi,
     iqr_bounds (nums [0; 10; 2000; 15; 12]%Z) = Some (lo, hi) /\
     lo == 5 # 2 /\ hi == 45 # 2) /\
  clean_data (ghi_scenario region)
  = frame_of region 3 [("GHI", nums [10; 15; 12]%Z)] /\
  nrows (clean_data (ghi_scenario region)) = 3%nat.
Proof.
  split; [|split; vm_compute; reflexivity].
  eexists _, _. split; [vm_compute; reflexivity|].
  split; reflexivity.
Qed.

(** C4 as stated fails: the returned Dataset does not have 4 rows. *)
Lemma ghi_scenario_not_four_rows :
  nrows (clean_data (ghi_scenario "Benin")) <> 4%nat.
Proof. vm_compute. discriminate. Qed.

(** ** Forward fill and completeness *)

Lemma ffill_from_length {A : Type} (s : list (option A)) (last : option A) :
  List.length (ffill_from last s) = List.length s.
Proof.
  revert last; induction s as [|[v|] t IH]; intros last; simpl; auto.
Qed.

Lemma ffill_from_nth {A : Type} (s : list (option A)) (last : option A) (i : nat) :
  (i < List.length s)%nat ->
  nth i (ffill_from last s) None
  = match last_valid (firstn (S i) s) with
    | Some v => Some v
    | None => last
    end.
Proof.
  revert last i; induction s as [|c t IH]; intros last i Hi; simpl in Hi.
  - lia.
  - destruct i as [|j].
    + destruct c; reflexivity.
    + assert (Hj : (j < List.length t)%nat) by lia.
      change (firstn (S (S j)) (c :: t)) with (c :: firstn (S j) t).
      cbn [last_valid].
      destruct c as [v|]; cbn [ffill_from nth]; rewrite (IH _ _ Hj);
        destruct (last_valid (firstn (S j) t)); reflexivity.
Qed.

Lemma ffill_series_nth {A : Type} (s : list (option A)) (i : nat) :
  (i < List.length s)%nat ->
  nth i (ffill_series s) None = last_valid (firstn (S i) s).
Proof.
  intros Hi. unfold ffill_series. rewrite ffill_from_nth by exact Hi.
  destruct (last_valid (firstn (S i) s)); reflexivity.
Qed.

(** A column of the input is a column of every later frame. *)
Lemma get_col_fold_update (f : cell -> cell) (c : string) (l : list string)
  (df : DataFrame) (s : Series) :
  get_col c (cols df) = Some s ->
  exists s', get_col c (cols (fold_left (update_col f) l df)) = Some s'.
Proof.
  revert df s; induction l as [|h t IH]; intros df s H; simpl; [eauto|].
  eapply (IH _ (if String.eqb c h then map f s else s)).
  rewrite update_col_cols, get_col_update, H. now destruct (String.eqb c h).
Qed.

Lemma get_col_outlier_fold (c : string) (l : list string) (df : DataFrame)
  (s : Series) :
  get_col c (cols df) = Some s ->
  exists s', get_col c (cols (fold_left outlier_step l df)) = Some s'.
Proof.
  revert df s; induction l as [|h t IH]; intros df s H; simpl; [eauto|].
  unfold outlier_step at 2. destruct (get_col h (cols df)) as [sh|]; [|eauto].
  eapply (IH _ (select (iqr_mask sh) s)). now rewrite get_col_take_rows, H.
Qed.

Lemma get_col_clean_data (c : string) (d : DataFrame) (s : Series) :
  get_col c (cols d) = Some s ->
  exists s', get_col c (cols (clean_data d)) = Some s'.
Proof.
  intros H. rewrite clean_data_unfold. unfold remove_outliers, clipped.
  assert (H1 : get_col c (cols (ffill (drop_comments d))) = Some (ffill_series s)).
  { unfold ffill, drop_comments; cbn [cols]. now rewrite get_col_map, H. }
  destruct (get_col_fold_update (clip_lower 0) c Config.SOLAR_COLS _ _ H1)
    as [s2 H2].
  fold (clip_solar (ffill (drop_comments d))) in H2.
  assert (H3 : exists s3,
             get_col c (cols (clip_rh (clip_solar (ffill (drop_comments d)))))
             = Some s3).
  { unfold clip_rh. rewrite update_col_cols, get_col_update, H2.
    destruct (String.eqb c "RH"); simpl; eauto. }
  destruct H3 as [s3 H3]. eapply get_col_outlier_fold, H3.
Qed.

Lemma get_col_In (c : string) (l : list (string * Series)) (s : Series) :
  get_col c l = Some s -> exists n, In (n, s) l.
Proof.
  induction l as [|[n s0] t IH]; simpl; [discriminate|].
  destruct (String.eqb n c).
  - intros [= <-]. eauto.
  - intros H. destruct (IH H) as [n' Hn']. eauto.
Qed.

Lemma checked_col_filled (d : DataFrame) (c : string) (s : Series) :
  In c OUTLIER_COLS ->
  get_col c (cols (clean_data d)) = Some s ->
  Forall (fun x => x <> None) s.
Proof.
  rewrite clean_data_unfold. unfold remove_outliers. intros Hin Hc.
  destruct (outlier_fold_within _ _ _ _ Hin Hc) as (s_c & _ & Hw).
  eapply Forall_impl; [|exact Hw].
  intros x Hx. destruct (kept_within_value _ _ Hx) as (v & _ & _ & -> & _).
  discriminate.
Qed.

(** C5, as the code has it.  Forward fill runs over the whole Dataset: after
    it a cell holds the most recent non-missing value of its column at or
    above it in Dataset row order, whatever the regions of the rows, and is
    missing only when there is none.  Consequently, in a cleaned Dataset the
    missing cells of a column all come before its first value, and an
    outlier-checked column has no missing cell at all. *)
Theorem ffill_then_complete (d : DataFrame) (c : string) (s : Series) :
  get_col c (cols d) = Some s ->
  exists filled cleaned,
    get_col c (cols (ffill (drop_comments d))) = Some filled /\
    List.length filled = List.length s /\
    (forall i, (i < List.length s)%nat ->
               nth i filled None = last_valid (firstn (S i) s)) /\
    get_col c (cols (clean_data d)) = Some cleaned /\
    no_gap cleaned = true /\
    (In c OUTLIER_COLS -> Forall (fun x => x <> None) cleaned).
Proof.
  intros H. destruct (get_col_clean_data _ _ _ H) as [cleaned Hc].
  exists (ffill_series s), cleaned. repeat split.
  - unfold ffill, drop_comments; cbn [cols]. now rewrite get_col_map, H.
  - apply ffill_from_length.
  - intros i Hi. now apply ffill_series_nth.
  - exact Hc.
  - destruct (clean_data_is_cleaned d) as [_ Hall].
    rewrite Forall_forall in Hall.
    destruct (get_col_In _ _ _ Hc) as [n Hn]. apply (Hall _ Hn).
  - intros Hin. exact (checked_col_filled d c cleaned Hin Hc).
Qed.

Lemma ffill_then_complete_witness :
  exists filled cleaned,
    get_col "RH" (cols (ffill (drop_comments two_runs))) = Some filled /\
    List.length filled = 2%nat /\
    (forall i, (i < 2)%nat ->
               nth i filled None = last_valid (firstn (S i) [Some 50; None])) /\
    get_col "RH" (cols (clean_data two_runs)) = Some cleaned /\
    no_gap cleaned = true /\
    (In "RH" OUTLIER_COLS -> Forall (fun x => x <> None) cleaned).
Proof. exact (ffill_then_complete two_runs "RH" _ eq_refl). Defined.

(** C5 as stated fails: in the frame with rows (Benin, RH = 50) and
    (Togo, RH missing), row 1 is the very first row of Togo's run and its RH
    is missing, yet after forward fill it holds Benin's 50. *)
Lemma ffill_crosses_region_runs :
  ~ (forall (d : DataFrame) (c : string) (s filled : Series) (i : nat),
       get_col c (cols d) = Some s ->
       get_col c (cols (ffill (drop_comments d))) = Some filled ->
       run_start (Region d) i = true ->
       nth i s None = None ->
       nth i filled None = None).
Proof.
  intros H.
  specialize (H two_runs "RH" _ _ 1%nat eq_refl eq_refl eq_refl eq_refl).
  discriminate H.
Qed.

(** ** The cleaning-impact analyzer *)

Lemma qualifies_bounds (df : DataFrame) (idx : Z) :
  qualifies df idx = true <-> (3 < idx < Z.of_nat (nrows df) - 3)%Z.
Proof.
  unfold qualifies. rewrite andb_true_iff, !Z.ltb_lt. tauto.
Qed.

Lemma collect_events_none (df : DataFrame) (idxs : list Z) (results : list Event) :
  (forall idx, In idx idxs -> qualifies df idx = false) ->
  collect_events df idxs results = inr results.
Proof.
  induction idxs as [|i t IH]; intros H; simpl; auto.
  rewrite (H i (or_introl eq_refl)). apply IH.
  intros idx Hin. apply H. now right.
Qed.

(** C1: the guard [idx > 3] leaves out an event at index 3, although rows
    0-2 and 4-6 are there; the other side of the same guard,
    [idx < len(df) - 3], admits an event that has exactly three rows after
    it.  In the cleaned 7-row frame [week], flagged at index 3 only, no
    event is collected and the analyzer raises; in the cleaned 8-row frame
    [eight], flagged at 3 and 4, the only event is the one at index 4, with
    pre = mean of rows 1-3 and post = mean of rows 5-7. *)
Theorem event_at_index_3_is_left_out :
  (forall df, qualifies df 2 = false /\ qualifies df 3 = false) /\
  clean_data week = week /\ flagged week = [3%Z] /\
  cleaning_events week = inr [] /\
  analyze_cleaning_impact week = inl (KeyError ["Region"]) /\
  clean_data eight = eight /\ flagged eight = [3%Z; 4%Z] /\
  qualifies eight 4 = true /\
  cleaning_events eight = inr [mkEvent "Benin" (Some (36 # 9)) (Some (9 # 9))].
Proof.
  split; [intros df; split; reflexivity|].
  repeat split; vm_compute; reflexivity.
Qed.

(** C10.  When no Cleaning-flagged row is at a qualifying index, the list of
    events is empty and the analyzer raises [KeyError: 'Region'] instead of
    returning an empty mapping. *)
Theorem no_qualifying_event_raises (df : DataFrame) :
  has_col "Cleaning" df = true ->
  (forall idx, In idx (flagged df) -> qualifies df idx = false) ->
  cleaning_events df = inr [] /\
  analyze_cleaning_impact df = inl (KeyError ["Region"]).
Proof.
  unfold has_col, flagged, analyze_cleaning_impact, cleaning_events.
  destruct (get_col "Cleaning" (cols df)) as [s|]; [|discriminate].
  intros _ H. rewrite (collect_events_none df _ [] H). split; reflexivity.
Qed.

Lemma no_qualifying_event_raises_witness :
  cleaning_events week = inr [] /\
  analyze_cleaning_impact week = inl (KeyError ["Region"]).
Proof.
  apply (no_qualifying_event_raises week).
  - reflexivity.
  - intros idx [<-|[]]. reflexivity.
Defined.

(** ** The loader *)

Section LoaderProperties.

Variable read_csv : string -> Exn RawFrame.

Lemma load_loop_loaded (regions : list string) (dfs : list DataFrame) :
  load_loop read_csv regions dfs = dfs ++ loaded read_csv regions.
Proof.
  revert dfs; induction regions as [|r t IH]; intros dfs; simpl.
  - now rewrite app_nil_r.
  - fold (loaded read_csv t).
    destruct (load_region_data read_csv r) as [e|df]; simpl.
    + apply IH.
    + rewrite IH, <- app_assoc. reflexivity.
Qed.

Lemma loaded_nil (regions : list string) :
  loaded read_csv regions = [] <->
  (forall r, In r regions -> exists e, load_region_data read_csv r = inl e).
Proof.
  induction regions as [|r t IH]; simpl.
  - split; [intros _ r [] | reflexivity].
  - fold (loaded read_csv t).
    destruct (load_region_data read_csv r) as [e|df] eqn:E; simpl.
    + rewrite IH. split.
      * intros H r' [<-|Hin]; eauto.
      * intros H r' Hin. apply H. now right.
    + split; [discriminate|].
      intros H. destruct (H r (or_introl eq_refl)) as [e He]. congruence.
Qed.

Lemma loaded_app (pre post : list string) :
  loaded read_csv (pre ++ post) = loaded read_csv pre ++ loaded read_csv post.
Proof. unfold loaded. apply flat_map_app. Qed.

(** C7.  The load returns the concatenation of the frames of the regions
    that load, in order: a region whose source raises is skipped and the
    loop goes on with the regions after it.  When no region loads, the
    result is the error [ValueError("No valid data available")], not an
    empty Dataset. *)
Theorem load_all_regions_skips_failures :
  load_all_regions_data read_csv
  = match loaded read_csv Config.REGIONS with
    | [] => inl (ValueError "No valid data available")
    | dfs => inr (concat dfs)
    end /\
  (loaded read_csv Config.REGIONS = [] <->
   forall r, In r Config.REGIONS ->
             exists e, load_region_data read_csv r = inl e) /\
  (forall pre r post e,
     load_region_data read_csv r = inl e ->
     loaded read_csv (pre ++ r :: post)
     = loaded read_csv pre ++ loaded read_csv post) /\
  (forall pre r post df,
     load_region_data read_csv r = inr df ->
     loaded read_csv (pre ++ r :: post)
     = loaded read_csv pre ++ df :: loaded read_csv post).
Proof.
  split; [|split; [|split]].
  - unfold load_all_regions_data, load_regions.
    rewrite load_loop_loaded. reflexivity.
  - apply loaded_nil.
  - intros pre r post e E. rewrite loaded_app. simpl. now rewrite E.
  - intros pre r post df E. rewrite loaded_app. simpl. now rewrite E.
Qed.

End LoaderProperties.

(** Benin's file is missing and Sierraleon's does not parse: the load goes
    on and returns Togo's rows. *)
Example load_only_togo :
  load_all_regions_data only_togo
  = inr (mkDF ["Togo"; "Togo"] None [("GHI", nums [10; 11]%Z)]).
Proof. reflexivity. Qed.

(** No file at all: the load raises. *)
Example load_nothing :
  load_all_regions_data (fun path => inl (FileNotFoundError path))
  = inl (ValueError "No valid data available").
Proof. reflexivity. Qed.

(** ** The recommendation engine *)

Lemma snoc_app {A : Type} (l : list A) (x : A) (t : list A) :
  l ++ x :: t = (l ++ [x]) ++ t.
Proof. rewrite <- app_assoc. reflexivity. Qed.

Section Scan.

(** [better v b]: the value [v] replaces the candidate [b]. *)
Variable better : Q -> Q -> bool.
Variables worse not_better : Q -> Q -> Prop.
Hypothesis better_true : forall v b, better v b = true -> worse b v.
Hypothesis better_false : forall v b, better v b = false -> not_better v b.
Hypothesis worse_trans : forall x y z, worse x y -> worse y z -> worse x z.
Hypothesis not_better_worse :
  forall x y z, not_better x y -> worse y z -> worse x z.

(** What the scan knows of the entries [done] it has passed. *)
Let candidate (done : list (string * cell)) (best : option (string * Q)) : Prop :=
  match best with
  | Some (k, v) =>
      exists pre post,
        done = pre ++ (k, Some v) :: post /\
        (forall k' v', In (k', Some v') pre -> worse v' v) /\
        (forall k' v', In (k', Some v') post -> not_better v' v)
  | None => forall k' c, In (k', c) done -> c = None
  end.

Lemma idx_scan_first_best (rest done : list (string * cell))
  (best : option (string * Q)) :
  candidate done best ->
  first_best worse not_better (done ++ rest) (idx_scan better best rest).
Proof.
  revert done best; induction rest as [|[k [v|]] t IH]; intros done best H.
  - rewrite app_nil_r. destruct best as [[kb b]|]; simpl.
    + destruct H as (pre & post & H). exists pre, b, post. exact H.
    + exact H.
  - match goal with
    | |- context [done ++ ?x :: t] => rewrite (snoc_app done x t)
    end.
    destruct best as [[kb b]|]; simpl.
    + destruct H as (pre & post & -> & Hpre & Hpost).
      destruct (better v b) eqn:E; apply IH.
      * exists (pre ++ (kb, Some b) :: post), []. repeat split.
        -- intros k' v' Hin. apply in_app_or in Hin.
           destruct Hin as [Hin|[Hin|Hin]].
           ++ eapply worse_trans; eauto.
           ++ injection Hin as _ <-. auto.
           ++ eapply not_better_worse; eauto.
        -- intros k' v' [].
      * exists pre, (post ++ [(k, Some v)]). repeat split.
        -- rewrite <- app_assoc. reflexivity.
        -- exact Hpre.
        -- intros k' v' Hin. apply in_app_or in Hin.
           destruct Hin as [Hin|[Hin|[]]]; [eauto|].
           injection Hin as _ <-. auto.
    + apply IH. exists done, []. repeat split.
      * intros k' v' Hin. specialize (H _ _ Hin). discriminate.
      * intros k' v' [].
  - match goal with
    | |- context [done ++ ?x :: t] => rewrite (snoc_app done x t)
    end.
    simpl. apply IH. destruct best as [[kb b]|]; simpl.
    + destruct H as (pre & post & -> & Hpre & Hpost).
      exists pre, (post ++ [(k, None)]). repeat split.
      * rewrite <- app_assoc. reflexivity.
      * exact Hpre.
      * intros k' v' Hin. apply in_app_or in Hin.
        destruct Hin as [Hin|[Hin|[]]]; [eauto | discriminate].
    + intros k' c Hin. apply in_app_or in Hin.
      destruct Hin as [Hin|[Hin|[]]]; [eauto|]. now injection Hin.
Qed.

End Scan.

Lemma Qlt_bool_true (x y : Q) : Qlt_bool x y = true -> x < y.
Proof.
  unfold Qlt_bool. intros H. apply negb_true_iff in H.
  apply Qnot_le_lt. intros Hle. apply Qle_bool_iff in Hle. congruence.
Qed.

Lemma Qlt_bool_false (x y : Q) : Qlt_bool x y = false -> y <= x.
Proof.
  unfold Qlt_bool. intros H. apply negb_false_iff in H.
  apply Qle_bool_iff, H.
Qed.

Lemma scan_first_max (l : list (string * cell)) :
  first_max l (idx_scan (fun v b => Qlt_bool b v) None l).
Proof.
  apply (idx_scan_first_best (fun v b => Qlt_bool b v) Qlt Qle) with (done := []).
  - intros v b. apply Qlt_bool_true.
  - intros v b. apply Qlt_bool_false.
  - intros x y z. apply Qlt_trans.
  - intros x y z. apply Qle_lt_trans.
  - intros k' c [].
Qed.

Lemma scan_first_min (l : list (string * cell)) :
  first_min l (idx_scan (fun v b => Qlt_bool v b) None l).
Proof.
  apply (idx_scan_first_best (fun v b => Qlt_bool v b)
           (fun x y => y < x) (fun x y => y <= x)) with (done := []).
  - intros v b. apply Qlt_bool_true.
  - intros v b. apply Qlt_bool_false.
  - intros x y z H1 H2. eapply Qlt_trans; eauto.
  - intros x y z H1 H2. eapply Qlt_le_trans; eauto.
  - intros k' c [].
Qed.

(** No label is the best one exactly when the column holds no value. *)
Lemma first_best_none (worse nb : Q -> Q -> Prop) (l : list (string * cell)) :
  first_best worse nb l None <-> has_value l = false.
Proof.
  unfold first_best, has_value. split.
  - intros H.
    destruct (existsb (fun p => match snd p with Some _ => true | None => false end) l)
      eqn:E; [|reflexivity].
    apply existsb_exists in E. destruct E as ([k c] & Hin & Hc).
    rewrite (H k c Hin) in Hc. discriminate.
  - intros E k c Hin. destruct c as [v|]; [|reflexivity].
    assert (T : existsb (fun p => match snd p with Some _ => true | None => false end) l
                = true).
    { apply existsb_exists. exists (k, Some v). split; [exact Hin | reflexivity]. }
    congruence.
Qed.

Lemma first_best_some (worse nb : Q -> Q -> Prop) (l : list (string * cell))
  (k : string) :
  first_best worse nb l (Some k) -> has_value l = true.
Proof.
  intros (pre & v & post & -> & _). unfold has_value.
  apply existsb_exists. exists (k, Some v). split; [apply in_elt | reflexivity].
Qed.

(** What [idx_result] makes of a scan, by the version of the library. *)
Lemma idx_result_cases (lib : Pandas) (worse nb : Q -> Q -> Prop)
  (l : list (string * cell)) (s : option string) :
  first_best worse nb l s ->
  (forall r, idx_result lib s = inr r -> first_best worse nb l r) /\
  (has_value l = true \/ all_na_raises lib = false ->
     exists r, idx_result lib s = inr r) /\
  (has_value l = false -> all_na_raises lib = true ->
     idx_result lib s = inl (ValueError "Encountered all NA values")).
Proof.
  intros Hs. destruct s as [k|]; cbn [idx_result].
  - split; [intros r [= <-]; exact Hs|]. split; [eauto|].
    intros Hv _. apply first_best_some in Hs. congruence.
  - pose proof (proj1 (first_best_none worse nb l) Hs) as Hv.
    destruct (all_na_raises lib).
    + split; [discriminate|]. split; [|reflexivity].
      intros [H|H]; congruence.
    + split; [intros r [= <-]; exact Hs|]. split; [eauto|].
      discriminate.
Qed.

Lemma idxmax_cases (lib : Pandas) (l : list (string * cell)) :
  l <> [] ->
  (forall r, idxmax lib l = inr r -> first_max l r) /\
  (has_value l = true \/ all_na_raises lib = false ->
     exists r, idxmax lib l = inr r) /\
  (has_value l = false -> all_na_raises lib = true ->
     idxmax lib l = inl (ValueError "Encountered all NA values")).
Proof.
  intros Hne. destruct l as [|p t]; [congruence|].
  exact (idx_result_cases lib Qlt Qle (p :: t) _ (scan_first_max (p :: t))).
Qed.

Lemma idxmin_cases (lib : Pandas) (l : list (string * cell)) :
  l <> [] ->
  (forall r, idxmin lib l = inr r -> first_min l r) /\
  (has_value l = true \/ all_na_raises lib = false ->
     exists r, idxmin lib l = inr r) /\
  (has_value l = false -> all_na_raises lib = true ->
     idxmin lib l = inl (ValueError "Encountered all NA values")).
Proof.
  intros Hne. destruct l as [|p t]; [congruence|].
  exact (idx_result_cases lib (fun x y => y < x) (fun x y => y <= x) (p :: t) _
           (scan_first_min (p :: t))).
Qed.

Lemma insert_key_nonempty (k : string) (l : list string) : insert_key k l <> [].
Proof.
  destruct l as [|h t]; simpl; [discriminate|].
  destruct (String.compare k h); discriminate.
Qed.

Lemma group_keys_nonempty (l : list string) : l <> [] -> group_keys l <> [].
Proof.
  unfold group_keys.
  assert (H : forall l acc, acc <> [] ->
                fold_left (fun acc k => insert_key k acc) l acc <> []).
  { clear l. induction l as [|h t IH]; intros acc Hacc; simpl; auto.
    apply IH, insert_key_nonempty. }
  destruct l as [|h t]; [congruence|]. intros _. cbn [fold_left].
  apply H, insert_key_nonempty.
Qed.

Lemma missing_of_nil (l : list string) (d : DataFrame) (c : string) :
  missing_of l d = [] -> In c l -> exists s, get_col c (cols d) = Some s.
Proof.
  unfold missing_of, has_col. induction l as [|h t IH]; simpl; [tauto|].
  destruct (get_col h (cols d)) as [s|] eqn:E; simpl; [|discriminate].
  intros H [<-|Hin]; eauto.
Qed.

(** Exact arithmetic rounds to a nearest integer. *)
Lemma round_half_even_nearest (x : Q) :
  inject_Z (round_half_even x) - (1 # 2) <= x /\
  x <= inject_Z (round_half_even x) + (1 # 2).
Proof.
  unfold round_half_even.
  pose proof (Qfloor_le x) as Hlo. pose proof (Qlt_floor x) as Hhi.
  rewrite inject_Z_plus in Hhi. change (inject_Z 1) with 1 in Hhi.
  set (f := inject_Z (Qfloor x)) in *.
  destruct (Qcompare (x - f) (1 # 2)) eqn:E.
  - apply Qeq_alt in E.
    destruct (Z.even (Qfloor x)); fold f;
      rewrite ?inject_Z_plus; change (inject_Z 1) with 1; fold f; split; lra.
  - apply Qlt_alt in E. fold f. split; lra.
  - apply Qgt_alt in E. rewrite inject_Z_plus. change (inject_Z 1) with 1.
    fold f. split; lra.
Qed.

(** The rounded standard deviation [k / 100] is a nearest hundredth of the
    square root of the variance [v]: [(k - 1/2)^2 <= 10000 v <= (k + 1/2)^2],
    stated on integers with both sides multiplied by 4. *)
Lemma round_sqrt_hundredths_nearest (v : Q) :
  0 <= v ->
  let k := round_sqrt_hundredths v in
  (0 <= k)%Z /\
  v * 40000 <= inject_Z ((2 * k + 1) * (2 * k + 1)) /\
  ((1 <= k)%Z -> inject_Z ((2 * k - 1) * (2 * k - 1)) <= v * 40000).
Proof.
  intros Hv. unfold round_sqrt_hundredths.
  set (w := v * 40000).
  assert (Hw : 0 <= w).
  { unfold w. apply Qmult_le_0_compat; [exact Hv | discriminate]. }
  assert (Hfw : (0 <= Qfloor w)%Z).
  { change 0%Z with (Qfloor 0). apply Qfloor_resp_le, Hw. }
  set (m := Z.sqrt (Qfloor w)).
  pose proof (Z.sqrt_spec _ Hfw) as Hs. fold m in Hs. cbv zeta in Hs.
  pose proof (Z.sqrt_nonneg (Qfloor w)) as Hm. fold m in Hm.
  pose proof (Qfloor_le w) as Hlo. pose proof (Qlt_floor w) as Hhi.
  assert (Hlow : inject_Z (m * m) <= w).
  { eapply Qle_trans; [|exact Hlo]. rewrite <- Zle_Qle. lia. }
  assert (Hup : w <= inject_Z ((m + 1) * (m + 1))).
  { apply Qlt_le_weak. eapply Qlt_le_trans; [exact Hhi|].
    rewrite <- Zle_Qle. lia. }
  pose proof (Z.div_mod m 2 ltac:(lia)) as Hdm.
  pose proof (Zmod_even m) as Hev.
  destruct (Z.even m) eqn:Em.
  - (* m = 2 f *)
    assert (E : m = (2 * (m / 2))%Z) by lia.
    split; [lia|]. split.
    + eapply Qle_trans; [exact Hup|]. rewrite <- Zle_Qle. nia.
    + intros Hk. eapply Qle_trans; [|exact Hlow]. rewrite <- Zle_Qle. nia.
  - assert (E : m = (2 * (m / 2) + 1)%Z) by lia.
    assert (Hf : (0 <= m / 2)%Z) by lia.
    destruct (Qeq_bool w (inject_Z (m * m))) eqn:Eq.
    + apply Qeq_bool_iff in Eq.
      destruct (Z.even (m / 2)).
      * split; [lia|]. split.
        -- rewrite Eq. rewrite <- Zle_Qle. nia.
        -- intros Hk. rewrite Eq. rewrite <- Zle_Qle. nia.
      * split; [lia|]. split.
        -- rewrite Eq. rewrite <- Zle_Qle. nia.
        -- intros Hk. rewrite Eq. rewrite <- Zle_Qle. nia.
    + split; [lia|]. split.
      * eapply Qle_trans; [exact Hup|]. rewrite <- Zle_Qle. nia.
      * intros Hk. eapply Qle_trans; [|exact Hlow]. rewrite <- Zle_Qle. nia.
Qed.

(** ** The table of the Recommendation Engine and what is selected from it *)

Lemma analysis_table_rows (lib : Pandas) (d : DataFrame) :
  missing_of AGG_COLS d = [] ->
  exists ghi dni tamb prec gust,
    get_col "GHI" (cols d) = Some ghi /\
    get_col "DNI" (cols d) = Some dni /\
    get_col "Precipitation" (cols d) = Some prec /\
    analysis_table lib d
    = inr (map (fun k =>
                  (k, mkAgg (agg lib Mean (group_of k (Region d) ghi))
                            (agg lib Std (group_of k (Region d) ghi))
                            (agg lib Median (group_of k (Region d) dni))
                            (agg lib Mean (group_of k (Region d) tamb))
                            (agg lib Std (group_of k (Region d) tamb))
                            (agg lib Sum (group_of k (Region d) prec))
                            (agg lib Max (group_of k (Region d) gust))))
               (group_keys (Region d))).
Proof.
  intros Hm.
  destruct (missing_of_nil _ _ "GHI" Hm) as [ghi Hghi]; [simpl; tauto|].
  destruct (missing_of_nil _ _ "DNI" Hm) as [dni Hdni]; [simpl; tauto|].
  destruct (missing_of_nil _ _ "Tamb" Hm) as [tamb Htamb]; [simpl; tauto|].
  destruct (missing_of_nil _ _ "Precipitation" Hm) as [prec Hprec]; [simpl; tauto|].
  destruct (missing_of_nil _ _ "WSgust" Hm) as [gust Hgust]; [simpl; tauto|].
  exists ghi, dni, tamb, prec, gust.
  split; [exact Hghi|]. split; [exact Hdni|]. split; [exact Hprec|].
  unfold analysis_table. rewrite Hghi, Hdni, Htamb, Hprec, Hgust. reflexivity.
Qed.

Lemma existsb_eq {A : Type} (f g : A -> bool) (l : list A) :
  (forall x, f x = g x) -> existsb f l = existsb g l.
Proof.
  intros H. induction l as [|x t IH]; simpl; [reflexivity|].
  now rewrite H, IH.
Qed.

Lemma has_value_map (c : string -> cell) (keys : list string) :
  has_value (map (fun k => (k, c k)) keys)
  = existsb (fun k => match c k with Some _ => true | None => false end) keys.
Proof.
  unfold has_value. induction keys as [|k t IH]; simpl; [reflexivity|].
  now rewrite IH.
Qed.

(** Which cells of a table are NaN: the count of readings decides. *)
Lemma agg_present (lib : Pandas) (f : stat) (s : Series) :
  match agg lib f s with Some _ => true | None => false end
  = match f with
    | Sum => true
    | Std => (2 <=? List.length (valid s))%nat
    | _ => (1 <=? List.length (valid s))%nat
    end.
Proof.
  unfold agg. destruct f; destruct (valid s) as [|x [|y t]]; reflexivity.
Qed.

Lemma has_value_agg (lib : Pandas) (f : stat) (g : string -> Series)
  (keys : list string) :
  has_value (map (fun k => (k, agg lib f (g k))) keys)
  = existsb (fun k => match f with
                      | Sum => true
                      | Std => (2 <=? List.length (valid (g k)))%nat
                      | _ => (1 <=? List.length (valid (g k)))%nat
                      end) keys.
Proof.
  rewrite (has_value_map (fun k => agg lib f (g k))).
  apply existsb_eq. intros k. apply agg_present.
Qed.

(** The four selected columns all hold a value exactly when the Dataset
    has the readings for them. *)
Lemma selected_have_values (lib : Pandas) (d : DataFrame)
  (analysis : list (string * AggRow)) :
  analysis_table lib d = inr analysis ->
  analysis <> [] ->
  has_value (column_of GHI_mean analysis)
  && has_value (column_of GHI_std analysis)
  && has_value (column_of Precipitation_sum analysis)
  && has_value (column_of DNI_median analysis)
  = enough_readings d.
Proof.
  intros Ht Hne.
  assert (Hm : missing_of AGG_COLS d = []).
  { destruct (missing_of AGG_COLS d) as [|m0 mt] eqn:Em; [reflexivity|].
    unfold analysis_table in Ht.
    destruct (get_col "GHI" (cols d)) eqn:E1;
      destruct (get_col "DNI" (cols d)) eqn:E2;
      destruct (get_col "Tamb" (cols d)) eqn:E3;
      destruct (get_col "Precipitation" (cols d)) eqn:E4;
      destruct (get_col "WSgust" (cols d)) eqn:E5; try discriminate.
    exfalso. revert Em. unfold missing_of, AGG_COLS, has_col. simpl.
    rewrite E1, E2, E3, E4, E5. discriminate. }
  destruct (analysis_table_rows lib d Hm)
    as (ghi & dni & tamb & prec & gust & Hghi & Hdni & Hprec & Hrows).
  rewrite Hrows in Ht. injection Ht as Ht. subst analysis.
  unfold enough_readings. rewrite Hghi, Hdni.
  unfold column_of. rewrite !map_map. cbn [fst snd GHI_mean GHI_std
    Precipitation_sum DNI_median].
  rewrite (has_value_agg lib Mean (fun k => group_of k (Region d) ghi)).
  rewrite (has_value_agg lib Std (fun k => group_of k (Region d) ghi)).
  rewrite (has_value_agg lib Sum (fun k => group_of k (Region d) prec)).
  rewrite (has_value_agg lib Median (fun k => group_of k (Region d) dni)).
  cbv beta iota.
  assert (H3 : existsb (fun _ : string => true) (group_keys (Region d)) = true).
  { destruct (group_keys (Region d)); [|reflexivity]. now elim Hne. }
  rewrite H3, andb_true_r.
  destruct (existsb (fun k => (2 <=? List.length
                                       (valid (group_of k (Region d) ghi)))%nat)
                    (group_keys (Region d))) eqn:E2.
  - apply existsb_exists in E2. destruct E2 as (k & Hin & Hk).
    assert (E1 : existsb (fun k => (1 <=? List.length
                                           (valid (group_of k (Region d) ghi)))%nat)
                         (group_keys (Region d)) = true).
    { apply existsb_exists. exists k. split; [exact Hin|].
      apply Nat.leb_le in Hk. apply Nat.leb_le. lia. }
    rewrite E1. reflexivity.
  - now rewrite andb_false_r.
Qed.

(** What the engine returns comes from the four scans, in this order. *)
Lemma generate_recommendations_returned (lib : Pandas) (d : DataFrame)
  (analysis : list (string * AggRow)) (rec : Recommendation) :
  analysis_table lib d = inr analysis ->
  generate_recommendations lib d = inr rec ->
  idxmax lib (column_of GHI_mean analysis) = inr (Best_Overall_Potential rec) /\
  idxmin lib (column_of GHI_std analysis) = inr (Most_Stable_Radiation rec) /\
  idxmin lib (column_of Precipitation_sum analysis)
  = inr (Lowest_Maintenance_Risk rec) /\
  idxmax lib (column_of DNI_median analysis) = inr (Optimal_CSP_Location rec).
Proof.
  intros Ht. unfold generate_recommendations. rewrite Ht. cbn [bind].
  destruct (idxmax lib (column_of GHI_mean analysis)) as [e|r1];
    cbn [bind]; [discriminate|].
  destruct (idxmin lib (column_of GHI_std analysis)) as [e|r2];
    cbn [bind]; [discriminate|].
  destruct (idxmin lib (column_of Precipitation_sum analysis)) as [e|r3];
    cbn [bind]; [discriminate|].
  destruct (idxmax lib (column_of DNI_median analysis)) as [e|r4];
    cbn [bind]; [discriminate|].
  intros [= <-]. repeat split.
Qed.

Lemma column_of_nonempty (f : AggRow -> cell) (t : list (string * AggRow)) :
  t <> [] -> column_of f t <> [].
Proof. destruct t; [congruence | discriminate]. Qed.

(** Whatever the engine returns under a label is the first best entry of
    the label's column. *)
Lemma generate_recommendations_selects (lib : Pandas) (d : DataFrame)
  (analysis : list (string * AggRow)) (rec : Recommendation) :
  analysis_table lib d = inr analysis ->
  generate_recommendations lib d = inr rec ->
  first_max (column_of GHI_mean analysis) (Best_Overall_Potential rec) /\
  first_min (column_of GHI_std analysis) (Most_Stable_Radiation rec) /\
  first_min (column_of Precipitation_sum analysis)
            (Lowest_Maintenance_Risk rec) /\
  first_max (column_of DNI_median analysis) (Optimal_CSP_Location rec).
Proof.
  intros Ht Hrec.
  destruct (generate_recommendations_returned lib d analysis rec Ht Hrec)
    as (E1 & E2 & E3 & E4).
  assert (Hne : analysis <> []).
  { intros ->. discriminate E1. }
  split; [|split; [|split]].
  - exact (proj1 (idxmax_cases lib _ (column_of_nonempty GHI_mean _ Hne)) _ E1).
  - exact (proj1 (idxmin_cases lib _ (column_of_nonempty GHI_std _ Hne)) _ E2).
  - exact (proj1 (idxmin_cases lib _
                    (column_of_nonempty Precipitation_sum _ Hne)) _ E3).
  - exact (proj1 (idxmax_cases lib _ (column_of_nonempty DNI_median _ Hne)) _ E4).
Qed.

(** On a table with a row the engine either returns or, from pandas 3.0,
    stops on a selected column that holds no value. *)
Lemma generate_recommendations_cases (lib : Pandas) (d : DataFrame)
  (analysis : list (string * AggRow)) :
  analysis_table lib d = inr analysis ->
  analysis <> [] ->
  if all_na_raises lib && negb (enough_readings d)
  then generate_recommendations lib d
       = inl (ValueError "Encountered all NA values")
  else exists rec, generate_recommendations lib d = inr rec.
Proof.
  intros Ht Hne. rewrite <- (selected_have_values lib d analysis Ht Hne).
  unfold generate_recommendations. rewrite Ht. cbn [bind].
  destruct (idxmax_cases lib _ (column_of_nonempty GHI_mean _ Hne))
    as (_ & R1 & F1).
  destruct (idxmin_cases lib _ (column_of_nonempty GHI_std _ Hne))
    as (_ & R2 & F2).
  destruct (idxmin_cases lib _ (column_of_nonempty Precipitation_sum _ Hne))
    as (_ & R3 & F3).
  destruct (idxmax_cases lib _ (column_of_nonempty DNI_median _ Hne))
    as (_ & R4 & F4).
  destruct (all_na_raises lib) eqn:Er; cbn [andb].
  - destruct (has_value (column_of GHI_mean analysis)) eqn:V1; cbn [andb negb];
      [|rewrite (F1 eq_refl eq_refl); reflexivity].
    destruct (R1 (or_introl eq_refl)) as [r1 ->]. cbn [bind].
    destruct (has_value (column_of GHI_std analysis)) eqn:V2; cbn [andb negb];
      [|rewrite (F2 eq_refl eq_refl); reflexivity].
    destruct (R2 (or_introl eq_refl)) as [r2 ->]. cbn [bind].
    destruct (has_value (column_of Precipitation_sum analysis)) eqn:V3;
      cbn [andb negb]; [|rewrite (F3 eq_refl eq_refl); reflexivity].
    destruct (R3 (or_introl eq_refl)) as [r3 ->]. cbn [bind].
    destruct (has_value (column_of DNI_median analysis)) eqn:V4;
      cbn [andb negb]; [|rewrite (F4 eq_refl eq_refl); reflexivity].
    destruct (R4 (or_introl eq_refl)) as [r4 ->]. cbn [bind].
    eexists. reflexivity.
  - destruct (R1 (or_intror eq_refl)) as [r1 ->]. cbn [bind].
    destruct (R2 (or_intror eq_refl)) as [r2 ->]. cbn [bind].
    destruct (R3 (or_intror eq_refl)) as [r3 ->]. cbn [bind].
    destruct (R4 (or_intror eq_refl)) as [r4 ->]. cbn [bind].
    eexists. reflexivity.
Qed.




(** ** The stages as programs: the input object is left as it is *)

Lemma nth_error_end {A : Type} (h t : list A) (x : A) :
  nth_error (h ++ x :: t) (List.length h) = Some x.
Proof.
  rewrite nth_error_app2 by lia. now rewrite Nat.sub_diag.
Qed.

Lemma nth_error_keep {A : Type} (h ext : list A) (r : nat) (x : A) :
  nth_error h r = Some x -> nth_error (h ++ ext) r = Some x.
Proof.
  intros H. rewrite nth_error_app1; auto.
  apply nth_error_Some. congruence.
Qed.

Lemma replace_nth_end {A : Type} (h t : list A) (x y : A) :
  replace_nth (List.length h) y (h ++ x :: t) = h ++ y :: t.
Proof. induction h as [|a h IH]; simpl; congruence. Qed.

Lemma read_df_at (st : store) (r : ref) (x : DataFrame) :
  nth_error st r = Some (ODataFrame x) -> read_df r st = Some (x, st).
Proof. unfold read_df. now intros ->. Qed.

Lemma read_report_at (st : store) (r : ref) (q : QualityReport) :
  nth_error st r = Some (OReport q) -> read_report r st = Some (q, st).
Proof. unfold read_report. now intros ->. Qed.

Lemma update_col_absent (f : cell -> cell) (x : DataFrame) (col : string) :
  has_col col x = false -> update_col f x col = x.
Proof.
  unfold has_col, update_col. now destruct (get_col col (cols x)).
Qed.

(** One clip iteration rewrites the frame object in place. *)
Lemma clip_iteration_run (f : cell -> cell) (h : store) (o : object)
  (x : DataFrame) (col : string) :
  clip_iteration f (S (List.length h)) col (h ++ [o; ODataFrame x])
  = Some (tt, h ++ [o; ODataFrame (update_col f x col)]).
Proof.
  assert (E : forall y, h ++ [o; ODataFrame y] = (h ++ [o]) ++ [ODataFrame y])
    by (intros; now rewrite <- app_assoc).
  assert (L : S (List.length h) = List.length (h ++ [o]))
    by (rewrite length_app; simpl; lia).
  unfold clip_iteration, mbind.
  rewrite (read_df_at _ _ x) by (rewrite E, L; apply nth_error_end).
  destruct (has_col col x) eqn:Hc.
  - unfold write. rewrite !E, L, replace_nth_end. reflexivity.
  - unfold ret. now rewrite update_col_absent.
Qed.

Lemma clip_loop_run (f : cell -> cell) (h : store) (o : object)
  (l : list string) (x : DataFrame) :
  for_each l (clip_iteration f (S (List.length h))) (h ++ [o; ODataFrame x])
  = Some (tt, h ++ [o; ODataFrame (fold_left (update_col f) l x)]).
Proof.
  revert x; induction l as [|col t IH]; intros x; simpl; [reflexivity|].
  unfold mbind. rewrite clip_iteration_run. apply IH.
Qed.

(** The outlier loop only allocates. *)
Lemma outlier_loop_run (l : list string) (st : store) (r : ref) (x : DataFrame) :
  nth_error st r = Some (ODataFrame x) ->
  exists r' ext,
    for_fold l outlier_iteration r st = Some (r', st ++ ext) /\
    nth_error (st ++ ext) r' = Some (ODataFrame (fold_left outlier_step l x)) /\
    (r <= r')%nat.
Proof.
  revert st r x; induction l as [|col t IH]; intros st r x H; simpl.
  - exists r, []. rewrite app_nil_r. auto.
  - unfold mbind, outlier_iteration at 1, mbind. rewrite (read_df_at _ _ _ H).
    unfold outlier_step at 2.
    destruct (get_col col (cols x)) as [s|].
    + unfold alloc.
      destruct (IH (st ++ [ODataFrame (take_rows (iqr_mask s) x)])
                   (List.length st) (take_rows (iqr_mask s) x))
        as (r' & ext & Hrun & Hget & Hle).
      { apply nth_error_end. }
      exists r', (ODataFrame (take_rows (iqr_mask s) x) :: ext).
      rewrite <- app_assoc in Hrun, Hget. cbn [app] in Hrun, Hget.
      split; [exact Hrun|]. split; [exact Hget|].
      assert (r < List.length st)%nat by (apply nth_error_Some; congruence).
      lia.
    + unfold ret. apply IH, H.
Qed.

Lemma clean_data_reset (d : DataFrame) :
  clean_data d = reset_index (remove_outliers (clipped d)).
Proof. reflexivity. Qed.

Lemma remove_outliers_unfold (x : DataFrame) :
  remove_outliers x = fold_left outlier_step OUTLIER_COLS x.
Proof. reflexivity. Qed.

Lemma clean_data_prog_run (h : store) (df : ref) (d : DataFrame) :
  nth_error h df = Some (ODataFrame d) ->
  exists r new,
    clean_data_prog df h = Some (r, h ++ new) /\
    nth_error (h ++ new) r = Some (ODataFrame (clean_data d)) /\
    (List.length h <= r)%nat.
Proof.
  intros H. unfold clean_data_prog.
  unfold mbind at 1. rewrite (read_df_at _ _ _ H).
  unfold mbind at 1, alloc at 1.
  unfold mbind at 1. rewrite (read_df_at _ _ (drop_comments d))
    by apply nth_error_end.
  unfold mbind at 1, alloc at 1.
  replace (List.length (h ++ [ODataFrame (drop_comments d)]))
    with (S (List.length h)) by (rewrite length_app; simpl; lia).
  rewrite <- app_assoc. cbn [app].
  unfold mbind at 1. rewrite clip_loop_run.
  unfold mbind at 1. rewrite clip_iteration_run.
  fold (clip_solar (ffill (drop_comments d))).
  fold (clip_rh (clip_solar (ffill (drop_comments d)))).
  fold (clipped d).
  set (st := h ++ [ODataFrame (drop_comments d); ODataFrame (clipped d)]).
  assert (Hst : nth_error st (S (List.length h)) = Some (ODataFrame (clipped d))).
  { unfold st.
    replace (h ++ [ODataFrame (drop_comments d); ODataFrame (clipped d)])
      with ((h ++ [ODataFrame (drop_comments d)]) ++ [ODataFrame (clipped d)])
      by now rewrite <- app_assoc.
    replace (S (List.length h))
      with (List.length (h ++ [ODataFrame (drop_comments d)]))
      by (rewrite length_app; simpl; lia).
    apply nth_error_end. }
  destruct (outlier_loop_run OUTLIER_COLS st _ _ Hst)
    as (r' & ext & Hrun & Hget & Hle).
  rewrite <- (remove_outliers_unfold (clipped d)) in Hget.
  unfold mbind at 1. rewrite Hrun.
  unfold mbind at 1. rewrite (read_df_at _ _ _ Hget).
  unfold alloc. rewrite <- (clean_data_reset d).
  exists (List.length (st ++ ext)),
    ([ODataFrame (drop_comments d); ODataFrame (clipped d)] ++ ext
     ++ [ODataFrame (clean_data d)]).
  assert (Eq : (st ++ ext) ++ [ODataFrame (clean_data d)]
               = h ++ [ODataFrame (drop_comments d); ODataFrame (clipped d)]
                   ++ ext ++ [ODataFrame (clean_data d)])
    by (unfold st; rewrite <- !app_assoc; reflexivity).
  rewrite <- Eq. split; [reflexivity|]. split.
  - apply nth_error_end.
  - unfold st. rewrite !length_app. lia.
Qed.

Lemma range_iteration_run (h : store) (df : ref) (d : DataFrame)
  (q : QualityReport) (e : string * (Q * Q)) :
  nth_error h df = Some (ODataFrame d) ->
  range_iteration df (List.length h) e (h ++ [OReport q])
  = Some (tt, h ++ [OReport (range_step d q e)]).
Proof.
  intros H. unfold range_iteration, mbind.
  rewrite (read_df_at _ _ d) by exact (nth_error_keep _ _ _ _ H).
  unfold range_step. destruct (get_col (fst e) (cols d)) as [s|].
  - rewrite (read_report_at _ _ q) by apply nth_error_end.
    unfold write. now rewrite replace_nth_end.
  - reflexivity.
Qed.

Lemma range_loop_run (h : store) (df : ref) (d : DataFrame)
  (l : list (string * (Q * Q))) (q : QualityReport) :
  nth_error h df = Some (ODataFrame d) ->
  for_each l (range_iteration df (List.length h)) (h ++ [OReport q])
  = Some (tt, h ++ [OReport (fold_left (range_step d) l q)]).
Proof.
  intros H. revert q; induction l as [|e t IH]; intros q; simpl; [reflexivity|].
  unfold mbind. rewrite (range_iteration_run h df d q e H). apply IH.
Qed.

Lemma generate_quality_report_prog_run (h : store) (df : ref) (d : DataFrame) :
  nth_error h df = Some (ODataFrame d) ->
  generate_quality_report_prog df h
  = Some (List.length h, h ++ [OReport (generate_quality_report d)]).
Proof.
  intros H. unfold generate_quality_report_prog.
  unfold mbind at 1. rewrite (read_df_at _ _ _ H).
  unfold mbind at 1, alloc.
  unfold mbind at 1. rewrite (range_loop_run h df d _ _ H).
  reflexivity.
Qed.

(** C9.  Neither the Quality Reporter nor the Cleaner changes its input:
    run on a store where [df] refers to the Dataset [d], each of them
    returns a reference to a new object (the report of [d], the cleaned
    [d]) and a store that is the old one followed by new objects, so [df]
    still refers to [d]. *)
Theorem stages_leave_input_unchanged (h : store) (df : ref) (d : DataFrame) :
  nth_error h df = Some (ODataFrame d) ->
  (exists r new,
     generate_quality_report_prog df h = Some (r, h ++ new) /\
     nth_error (h ++ new) df = Some (ODataFrame d) /\
     nth_error (h ++ new) r = Some (OReport (generate_quality_report d)) /\
     r <> df) /\
  (exists r new,
     clean_data_prog df h = Some (r, h ++ new) /\
     nth_error (h ++ new) df = Some (ODataFrame d) /\
     nth_error (h ++ new) r = Some (ODataFrame (clean_data d)) /\
     r <> df).
Proof.
  intros H.
  assert (Hdf : (df < List.length h)%nat) by (apply nth_error_Some; congruence).
  split.
  - exists (List.length h), [OReport (generate_quality_report d)].
    split; [apply generate_quality_report_prog_run, H|].
    split; [apply nth_error_keep, H|].
    split; [apply nth_error_end | lia].
  - destruct (clean_data_prog_run h df d H) as (r & new & Hrun & Hget & Hle).
    exists r, new.
    split; [exact Hrun|].
    split; [apply nth_error_keep, H|].
    split; [exact Hget | lia].
Qed.

Lemma stages_leave_input_unchanged_witness :
  (exists r new,
     generate_quality_report_prog 0%nat [ODataFrame ghi_tail]
     = Some (r, [ODataFrame ghi_tail] ++ new) /\
     nth_error ([ODataFrame ghi_tail] ++ new) 0%nat = Some (ODataFrame ghi_tail) /\
     nth_error ([ODataFrame ghi_tail] ++ new) r
     = Some (OReport (generate_quality_report ghi_tail)) /\
     r <> 0%nat) /\
  (exists r new,
     clean_data_prog 0%nat [ODataFrame ghi_tail]
     = Some (r, [ODataFrame ghi_tail] ++ new) /\
     nth_error ([ODataFrame ghi_tail] ++ new) 0%nat = Some (ODataFrame ghi_tail) /\
     nth_error ([ODataFrame ghi_tail] ++ new) r
     = Some (ODataFrame (clean_data ghi_tail)) /\
     r <> 0%nat).
Proof.
  exact (stages_leave_input_unchanged [ODataFrame ghi_tail] 0%nat ghi_tail eq_refl).
Defined.

(* ================================================================== *)
(** * Further properties of the cleaner *)

Lemma rows_of_Region (df1 df2 : DataFrame) :
  rows_of df1 df2 -> (nrows df1 <= nrows df2)%nat.
Proof.
  unfold nrows. intros [->|[m ->]]; [lia|]. simpl. apply select_length.
Qed.

Lemma clipped_Region (d : DataFrame) : Region (clipped d) = Region d.
Proof.
  unfold clipped, clip_rh, clip_solar.
  now rewrite update_col_Region, fold_update_Region.
Qed.

Lemma map_fst_on_col (f : Series -> Series) (c : string)
  (l : list (string * Series)) :
  map fst (map (on_col f c) l) = map fst l.
Proof. rewrite map_map. apply map_ext. intros p. apply on_col_fst. Qed.

Lemma update_col_names (f : cell -> cell) (df : DataFrame) (c : string) :
  map fst (cols (update_col f df c)) = map fst (cols df).
Proof. rewrite update_col_cols. apply map_fst_on_col. Qed.

Lemma fold_update_names (f : cell -> cell) (l : list string) (df : DataFrame) :
  map fst (cols (fold_left (update_col f) l df)) = map fst (cols df).
Proof.
  revert df; induction l as [|h t IH]; intros df; simpl; auto.
  now rewrite IH, update_col_names.
Qed.

Lemma take_rows_names (m : list bool) (df : DataFrame) :
  map fst (cols (take_rows m df)) = map fst (cols df).
Proof. unfold take_rows; simpl. rewrite map_map. reflexivity. Qed.

Lemma outlier_fold_names (l : list string) (df : DataFrame) :
  map fst (cols (fold_left outlier_step l df)) = map fst (cols df).
Proof.
  revert df; induction l as [|h t IH]; intros df; simpl; auto.
  rewrite IH. unfold outlier_step.
  destruct (get_col h (cols df)); auto using take_rows_names.
Qed.

Lemma clipped_names (d : DataFrame) :
  map fst (cols (clipped d)) = map fst (cols d).
Proof.
  unfold clipped, clip_rh, clip_solar.
  rewrite update_col_names, fold_update_names.
  unfold ffill, drop_comments; cbn [cols]. rewrite map_map. reflexivity.
Qed.

Lemma clean_data_rows_of_clipped (d : DataFrame) :
  rows_of (clean_data d) (clipped d).
Proof.
  rewrite clean_data_unfold. unfold remove_outliers.
  apply rows_of_outlier_fold. now left.
Qed.

Lemma clean_data_nrows (d : DataFrame) :
  (nrows (clean_data d) <= nrows d)%nat.
Proof.
  pose proof (rows_of_Region _ _ (clean_data_rows_of_clipped d)) as R.
  replace (nrows (clipped d)) with (nrows d) in R; [exact R|].
  unfold nrows. now rewrite clipped_Region.
Qed.

Lemma clean_data_names (d : DataFrame) :
  map fst (cols (clean_data d)) = map fst (cols d).
Proof.
  rewrite clean_data_unfold. unfold remove_outliers.
  rewrite outlier_fold_names. apply clipped_names.
Qed.

Lemma clean_data_Comments (d : DataFrame) : Comments (clean_data d) = None.
Proof. exact (proj1 (clean_data_is_cleaned d)). Qed.

(** The Cleaner only leaves rows out: its result consists of rows of the
    filled and clipped input, in their order; it has no more rows than the
    input, the same numeric columns in the same order, and no [Comments]
    column. *)
Theorem clean_data_only_drops_rows (d : DataFrame) :
  rows_of (clean_data d) (clipped d) /\
  (nrows (clean_data d) <= nrows d)%nat /\
  map fst (cols (clean_data d)) = map fst (cols d) /\
  Comments (clean_data d) = None.
Proof.
  exact (conj (clean_data_rows_of_clipped d)
          (conj (clean_data_nrows d)
             (conj (clean_data_names d) (clean_data_Comments d)))).
Qed.

Lemma get_col_fold_update_value (f : cell -> cell) (c : string)
  (l : list string) (df : DataFrame) :
  (forall x, f (f x) = f x) ->
  get_col c (cols (fold_left (update_col f) l df))
  = option_map (fun s => if existsb (String.eqb c) l then map f s else s)
               (get_col c (cols df)).
Proof.
  intros Hf. revert df; induction l as [|h t IH]; intros df; simpl.
  - now destruct (get_col c (cols df)).
  - rewrite IH, update_col_cols, get_col_update.
    destruct (String.eqb c h); simpl.
    + destruct (get_col c (cols df)) as [s|]; simpl; auto.
      destruct (existsb (String.eqb c) t); auto.
      rewrite map_map. f_equal. apply map_ext. intros x. apply Hf.
    + reflexivity.
Qed.

Lemma clipped_column (d : DataFrame) (c : string) (s : Series) :
  get_col c (cols d) = Some s ->
  get_col c (cols (clipped d)) = Some (map (clip_of c) (ffill_series s)).
Proof.
  intros H. unfold clipped, clip_rh, clip_solar.
  rewrite update_col_cols, get_col_update.
  rewrite (get_col_fold_update_value _ _ _ _ clip_lower_idem).
  unfold ffill, drop_comments; cbn [cols]. rewrite get_col_map, H.
  cbn [option_map]. unfold clip_of.
  destruct (existsb (String.eqb c) Config.SOLAR_COLS) eqn:E.
  - assert (Hin : In c Config.SOLAR_COLS).
    { apply existsb_exists in E. destruct E as (x & Hx & Ex).
      apply String.eqb_eq in Ex. now subst. }
    now rewrite (solar_not_rh _ Hin).
  - destruct (String.eqb c "RH"); cbn [option_map]; [reflexivity|].
    now rewrite map_id.
Qed.

Lemma rows_of_column (df1 df2 : DataFrame) (c : string) (s : Series) :
  rows_of df1 df2 -> get_col c (cols df2) = Some s ->
  exists kept, get_col c (cols df1) = Some kept /\
               (kept = s \/ exists mask, kept = select mask s).
Proof.
  intros [->|[m ->]] H.
  - exists s. auto.
  - exists (select m s). rewrite get_col_take_rows, H. eauto.
Qed.

(** The Cleaner invents no value.  A column of the result is made of cells
    of the forward-filled input column, in their order, floored at 0 for a
    solar column, clipped to [0, 100] for RH, and as they are for any other
    column. *)
Theorem clean_data_column (d : DataFrame) (c : string) (s : Series) :
  get_col c (cols d) = Some s ->
  exists kept,
    get_col c (cols (clean_data d)) = Some kept /\
    (kept = map (clip_of c) (ffill_series s) \/
     exists mask, kept = select mask (map (clip_of c) (ffill_series s))).
Proof.
  intros H.
  exact (rows_of_column _ (clipped d) c _ (clean_data_rows_of_clipped d)
           (clipped_column d c s H)).
Qed.

Lemma clean_data_column_witness :
  exists kept,
    get_col "GHI" (cols (clean_data ghi_tail)) = Some kept /\
    (kept = map (clip_of "GHI") (ffill_series (nums [1; 2; 3; 4; 5; 10; 30]%Z)) \/
     exists mask,
       kept = select mask
                (map (clip_of "GHI")
                     (ffill_series (nums [1; 2; 3; 4; 5; 10; 30]%Z)))).
Proof. exact (clean_data_column ghi_tail "GHI" _ eq_refl). Defined.

(** ** The shape of a frame is kept *)

Lemma select_length_eq {A B : Type} (m : list bool) (s1 : list A) (s2 : list B) :
  List.length s1 = List.length s2 ->
  List.length (select m s1) = List.length (select m s2).
Proof.
  revert s1 s2; induction m as [|b m IH]; intros [|x s1] [|y s2] H;
    simpl in *; try reflexivity; try discriminate.
  injection H as H. destruct b; simpl; auto.
Qed.

Lemma take_rows_well_formed (m : list bool) (df : DataFrame) :
  well_formed df -> well_formed (take_rows m df).
Proof.
  intros [Hc HC]. unfold well_formed, nrows, take_rows in *. simpl. split.
  - apply Forall_map. eapply Forall_impl; [|exact Hc].
    intros p Hp. simpl. apply select_length_eq, Hp.
  - destruct (Comments df) as [cm|]; simpl; auto.
    apply select_length_eq, HC.
Qed.

Lemma outlier_step_well_formed (df : DataFrame) (c : string) :
  well_formed df -> well_formed (outlier_step df c).
Proof.
  intros H. unfold outlier_step.
  destruct (get_col c (cols df)); auto using take_rows_well_formed.
Qed.

Lemma outlier_fold_well_formed (l : list string) (df : DataFrame) :
  well_formed df -> well_formed (fold_left outlier_step l df).
Proof.
  revert df; induction l as [|h t IH]; intros df H; simpl; auto.
  apply IH, outlier_step_well_formed, H.
Qed.

Lemma update_col_well_formed (f : cell -> cell) (df : DataFrame) (c : string) :
  well_formed df -> well_formed (update_col f df c).
Proof.
  intros [Hc HC]. unfold well_formed, nrows in *.
  rewrite update_col_Region, update_col_Comments, update_col_cols.
  split; [|exact HC].
  apply Forall_map. eapply Forall_impl; [|exact Hc].
  intros p Hp. unfold on_col. destruct (String.eqb (fst p) c); simpl; auto.
  now rewrite length_map.
Qed.

Lemma fold_update_well_formed (f : cell -> cell) (l : list string) (df : DataFrame) :
  well_formed df -> well_formed (fold_left (update_col f) l df).
Proof.
  revert df; induction l as [|h t IH]; intros df H; simpl; auto.
  apply IH, update_col_well_formed, H.
Qed.

Lemma clipped_well_formed (d : DataFrame) :
  well_formed d -> well_formed (clipped d).
Proof.
  intros [Hc _]. unfold clipped, clip_rh, clip_solar.
  apply update_col_well_formed, fold_update_well_formed.
  unfold well_formed, nrows, ffill, drop_comments in *. simpl. split; auto.
  apply Forall_map. eapply Forall_impl; [|exact Hc].
  intros p Hp. simpl. etransitivity; [apply ffill_from_length | exact Hp].
Qed.

(** The Cleaner keeps the shape of a frame: when every column of the input
    has one cell per row, so has every column of the result. *)
Theorem clean_data_well_formed (d : DataFrame) :
  well_formed d -> well_formed (clean_data d).
Proof.
  intros H. rewrite clean_data_unfold. unfold remove_outliers.
  apply outlier_fold_well_formed, clipped_well_formed, H.
Qed.

Lemma week_well_formed : well_formed week.
Proof. split; [|exact I]. repeat constructor. Qed.

Lemma clean_data_well_formed_witness : well_formed (clean_data week).
Proof. exact (clean_data_well_formed week week_well_formed). Defined.

(** ** A checked column with no value *)

Lemma select_none {A : Type} (m : list bool) (s : list A) :
  Forall (fun b => b = false) m -> select m s = [].
Proof.
  revert s; induction m as [|b m IH]; intros s H; [reflexivity|].
  inversion H; subst. destruct s; simpl; auto.
Qed.

Lemma cols_before_split (c : string) (l : list string) :
  In c l -> exists rest, l = cols_before c l ++ c :: rest.
Proof.
  induction l as [|h t IH]; simpl; [tauto|].
  destruct (String.eqb_spec h c) as [->|Hne].
  - intros _. now exists t.
  - intros [E|Hin]; [congruence|].
    destruct (IH Hin) as [rest Hr]. exists rest. simpl. now rewrite <- Hr.
Qed.

Lemma outlier_fold_no_rows (l : list string) (df : DataFrame) :
  Region df = [] -> Region (fold_left outlier_step l df) = [].
Proof.
  revert df; induction l as [|h t IH]; intros df H; simpl; auto.
  apply IH. unfold outlier_step. destruct (get_col h (cols df)); auto.
  simpl. rewrite H. apply select_nil.
Qed.

Lemma iqr_mask_all_missing (s : Series) :
  Forall (fun x => x = None) s -> Forall (fun b => b = false) (iqr_mask s).
Proof.
  intros H. unfold iqr_mask. apply Forall_map.
  eapply Forall_impl; [|exact H].
  intros x ->. unfold within. now destruct (iqr_bounds s) as [[lo hi]|].
Qed.

Lemma all_missing_filled (c : string) (s : Series) :
  Forall (fun x => x = None) s ->
  Forall (fun x => x = None) (map (clip_of c) (ffill_series s)).
Proof.
  intros H. apply Forall_map.
  assert (E : ffill_series s = s).
  { apply ffill_no_gap. induction H as [|x t Hx Ht IH]; simpl; auto.
    now subst. }
  rewrite E. eapply Forall_impl; [|exact H].
  intros x ->. unfold clip_of.
  destruct (existsb (String.eqb c) Config.SOLAR_COLS); [reflexivity|].
  now destruct (String.eqb c "RH").
Qed.

(** A comparison with NaN is False: when an outlier-checked column of the
    input has no value at all, the quartiles are NaN, every row fails the
    test, and the Cleaner returns a Dataset with no row. *)
Theorem clean_data_empties_on_missing_column (d : DataFrame) (c : string)
  (s : Series) :
  In c OUTLIER_COLS ->
  get_col c (cols d) = Some s ->
  Forall (fun x => x = None) s ->
  nrows (clean_data d) = 0%nat.
Proof.
  intros Hin Hc Hs. rewrite clean_data_unfold. unfold remove_outliers, nrows.
  destruct (cols_before_split _ _ Hin) as [rest Hsplit].
  rewrite Hsplit, fold_left_app. cbn [fold_left].
  set (df := fold_left outlier_step (cols_before c OUTLIER_COLS) (clipped d)).
  assert (Hcol : col_Forall (fun x => x = None) c df).
  { apply col_Forall_outlier_fold. intros s0 H0.
    rewrite (clipped_column d c s Hc) in H0. injection H0 as <-.
    apply all_missing_filled, Hs. }
  destruct (get_col_outlier_fold c (cols_before c OUTLIER_COLS) (clipped d) _
              (clipped_column d c s Hc)) as [s_c Hsc].
  fold df in Hsc.
  rewrite outlier_fold_no_rows; [reflexivity|].
  unfold outlier_step. rewrite Hsc. simpl.
  apply select_none, iqr_mask_all_missing, (Hcol _ Hsc).
Qed.

Lemma clean_data_empties_on_missing_column_witness :
  nrows (clean_data
           (frame_of "Togo" 2 [("GHI", nums [1; 2]%Z); ("WS", [None; None])]))
  = 0%nat.
Proof.
  apply (clean_data_empties_on_missing_column _ "WS" [None; None]).
  - simpl. tauto.
  - reflexivity.
  - repeat constructor.
Defined.

(** ** Quartiles, and what the outlier test always keeps *)



Lemma insert_sorted_length (a : Q) (l : list Q) :
  List.length (insert_sorted a l) = S (List.length l).
Proof.
  induction l as [|y t IH]; simpl; auto.
  destruct (Qle_bool a y); simpl; auto.
Qed.

Lemma sort_values_length (l : list Q) :
  List.length (sort_values l) = List.length l.
Proof.
  unfold sort_values. induction l as [|a t IH]; simpl; auto.
  now rewrite insert_sorted_length, IH.
Qed.

















(* ================================================================== *)
(** * Further properties of the quality report *)

Lemma report_row_app_first (c : string) (r1 r2 : QualityReport) (row : ReportRow) :
  report_row c r1 = Some row -> report_row c (r1 ++ r2) = Some row.
Proof.
  induction r1 as [|[n x] t IH]; simpl; [discriminate|].
  destruct (String.eqb n c); auto.
Qed.

Lemma report_row_initial (d : DataFrame) (c : string) (s : Series) :
  get_col c (cols d) = Some s ->
  report_row c (initial_report d)
  = Some (mkRow (count is_missing s) (count is_zero s)
                (Some (count is_negative s)) None).
Proof.
  intros H. unfold initial_report. apply report_row_app_first.
  induction (cols d) as [|[n x] t IH]; simpl in *; [discriminate|].
  destruct (String.eqb n c); [now injection H as -> | auto].
Qed.

Lemma report_row_set (c col : string) (n : nat) (r : QualityReport) :
  report_row c (set_out_of_range col n r)
  = if String.eqb c col
    then option_map (fun row => mkRow (Missing row) (Zeros row)
                                      (Negatives row) (Some n))
                    (report_row c r)
    else report_row c r.
Proof.
  unfold set_out_of_range. induction r as [|[k row] t IH]; simpl.
  - now destruct (String.eqb c col).
  - destruct (String.eqb k col) eqn:E1; simpl.
    + apply String.eqb_eq in E1; subst k. rewrite (String.eqb_sym col c).
      destruct (String.eqb c col); [reflexivity | exact IH].
    + destruct (String.eqb k c) eqn:E2; [|exact IH].
      apply String.eqb_eq in E2; subst k. now rewrite E1.
Qed.

Lemma range_step_row (d : DataFrame) (c : string) (s : Series)
  (r : QualityReport) (e : string * (Q * Q)) :
  get_col c (cols d) = Some s ->
  report_row c (range_step d r e)
  = if String.eqb c (fst e)
    then option_map
           (fun row => mkRow (Missing row) (Zeros row) (Negatives row)
                             (Some (out_of_range (fst (snd e)) (snd (snd e)) s)))
           (report_row c r)
    else report_row c r.
Proof.
  intros H. unfold range_step.
  destruct (String.eqb_spec c (fst e)) as [E|E].
  - rewrite <- E, H, report_row_set, String.eqb_refl. reflexivity.
  - destruct (get_col (fst e) (cols d)); [|reflexivity].
    rewrite report_row_set. now apply String.eqb_neq in E; rewrite E.
Qed.

Lemma report_row_of_column (d : DataFrame) (c : string) (s : Series) :
  get_col c (cols d) = Some s ->
  report_row c (generate_quality_report d)
  = Some (mkRow (count is_missing s) (count is_zero s)
                (Some (count is_negative s))
                (match range_of c with
                 | Some (lo, hi) => Some (out_of_range lo hi s)
                 | None => None
                 end)).
Proof.
  intros H. unfold generate_quality_report, ranges. cbn [fold_left].
  rewrite !(range_step_row d c s _ _ H), (report_row_initial d c s H).
  unfold range_of, ranges. cbn [fst snd range_in].
  rewrite (String.eqb_sym "GHI" c), (String.eqb_sym "RH" c),
    (String.eqb_sym "Tamb" c).
  destruct (String.eqb_spec c "GHI") as [->|E1]; [reflexivity|].
  destruct (String.eqb_spec c "RH") as [->|E2]; [reflexivity|].
  destruct (String.eqb_spec c "Tamb") as [->|E3]; reflexivity.
Qed.

(** The report has a row for every column of the frame, with the numbers of
    missing, zero and negative cells of that column; the out-of-range count
    is there for GHI, RH and Tamb only, against [0, 1500], [0, 100] and
    [-20, 60], and is left empty for every other column. *)
Theorem quality_report_row (d : DataFrame) (c : string) (s : Series) :
  get_col c (cols d) = Some s ->
  report_row c (generate_quality_report d)
  = Some (mkRow (count is_missing s) (count is_zero s)
                (Some (count is_negative s))
                (match range_of c with
                 | Some (lo, hi) => Some (out_of_range lo hi s)
                 | None => None
                 end)).
Proof. exact (report_row_of_column d c s). Qed.

Lemma quality_report_row_witness :
  report_row "GHI" (generate_quality_report (ghi_scenario "Benin"))
  = Some (mkRow 0 0 (Some 1%nat) (Some 2%nat)).
Proof.
  exact (quality_report_row (ghi_scenario "Benin") "GHI" _ eq_refl).
Defined.

Lemma count_le_length {A : Type} (f : A -> bool) (l : list A) :
  (count f l <= List.length l)%nat.
Proof.
  unfold count. induction l as [|x t IH]; simpl; auto.
  destruct (f x); simpl; lia.
Qed.

Lemma count_disjoint {A : Type} (f g : A -> bool) (l : list A) :
  (forall x, f x = true -> g x = false) ->
  (count f l + count g l <= List.length l)%nat.
Proof.
  intros H. unfold count. induction l as [|x t IH]; simpl; auto.
  destruct (f x) eqn:E; [rewrite (H x E)|destruct (g x)]; simpl; lia.
Qed.

Lemma count_implies {A : Type} (f g : A -> bool) (l : list A) :
  (forall x, f x = true -> g x = true) ->
  (count f l <= count g l)%nat.
Proof.
  intros H. unfold count. induction l as [|x t IH]; simpl; auto.
  destruct (f x) eqn:E; [rewrite (H x E)|destruct (g x)]; simpl; lia.
Qed.

(** In the report, a missing cell is never counted as out of range, so the
    two counts of a column add up to at most its number of cells; and for
    GHI and RH, whose valid range starts at 0, every negative value is out
    of range. *)
Theorem quality_report_counts (d : DataFrame) (c : string) (s : Series)
  (lo hi : Q) :
  get_col c (cols d) = Some s ->
  range_of c = Some (lo, hi) ->
  exists row n k,
    report_row c (generate_quality_report d) = Some row /\
    Out_of_Range row = Some n /\ Negatives row = Some k /\
    (Missing row + n <= List.length s)%nat /\
    (c = "GHI" \/ c = "RH" -> (k <= n)%nat).
Proof.
  intros H Hr. rewrite (report_row_of_column d c s H), Hr.
  eexists _, _, _. split; [reflexivity|]. cbn [Out_of_Range Negatives Missing].
  split; [reflexivity|]. split; [reflexivity|]. split.
  - apply count_disjoint. now intros [v|].
  - intros Hc.
    assert (E : lo = 0).
    { destruct Hc as [-> | ->]; vm_compute in Hr; now injection Hr. }
    subst lo. apply count_implies. intros [v|] Hv; [|discriminate].
    unfold is_negative in Hv. now rewrite Hv.
Qed.

Lemma quality_report_counts_witness :
  exists row n k,
    report_row "GHI" (generate_quality_report (ghi_scenario "Benin")) = Some row /\
    Out_of_Range row = Some n /\ Negatives row = Some k /\
    (Missing row + n <= 5)%nat /\
    ("GHI" = "GHI" \/ "GHI" = "RH" -> (k <= n)%nat).
Proof.
  exact (quality_report_counts (ghi_scenario "Benin") "GHI" _ 0 1500
           eq_refl eq_refl).
Defined.

Lemma cleaned_solar_cells (d : DataFrame) (c : string) (s : Series) :
  In c Config.SOLAR_COLS ->
  get_col c (cols (clean_data d)) = Some s ->
  Forall (fun x => forall v, x = Some v -> 0 <= v) s.
Proof.
  rewrite clean_data_unfold. unfold remove_outliers. intros Hin H.
  refine (col_Forall_outlier_fold _ c OUTLIER_COLS (clipped d) _ s H).
  unfold clipped, clip_rh. apply col_Forall_update_other.
  - intros x _ v Hv. apply (clip_bounds x v Hv).
  - apply col_Forall_fold_update_in; auto. intros x v. apply clip_lower_nonneg.
Qed.

Lemma cleaned_rh_cells (d : DataFrame) (s : Series) :
  get_col "RH" (cols (clean_data d)) = Some s ->
  Forall (fun x => forall v, x = Some v -> 0 <= v <= 100) s.
Proof.
  rewrite clean_data_unfold. unfold remove_outliers. intros H.
  refine (col_Forall_outlier_fold _ "RH" OUTLIER_COLS (clipped d) _ s H).
  unfold clipped, clip_rh. apply col_Forall_update_same.
  intros x v. apply clip_bounds.
Qed.

Lemma count_none {A : Type} (P : A -> Prop) (f : A -> bool) (l : list A) :
  Forall P l -> (forall x, P x -> f x = false) -> count f l = 0%nat.
Proof.
  intros H Hf. unfold count. induction H as [|x t Hx Ht IH]; simpl; auto.
  now rewrite (Hf x Hx).
Qed.

Lemma Qlt_bool_ge (x y : Q) : y <= x -> Qlt_bool x y = false.
Proof.
  intros H. unfold Qlt_bool. apply negb_false_iff, Qle_bool_iff, H.
Qed.

(** The report of a cleaned Dataset: an outlier-checked column has no
    missing cell, a solar column has no negative value, and RH has no
    negative and no out-of-range value. *)
Theorem quality_report_of_cleaned (d : DataFrame) (c : string) (s : Series) :
  get_col c (cols (clean_data d)) = Some s ->
  exists row,
    report_row c (generate_quality_report (clean_data d)) = Some row /\
    (In c OUTLIER_COLS -> Missing row = 0%nat) /\
    (In c Config.SOLAR_COLS -> Negatives row = Some 0%nat) /\
    (c = "RH" -> Negatives row = Some 0%nat /\ Out_of_Range row = Some 0%nat).
Proof.
  intros H. rewrite (report_row_of_column (clean_data d) c s H).
  eexists. split; [reflexivity|]. cbn [Missing Negatives Out_of_Range].
  split; [|split].
  - intros Hin. apply (count_none (fun x => x <> None)).
    + exact (checked_col_filled d c s Hin H).
    + intros [v|] Hx; [reflexivity | congruence].
  - intros Hin. f_equal.
    apply (count_none _ _ _ (cleaned_solar_cells d c s Hin H)).
    intros [v|] Hx; [|reflexivity]. apply Qlt_bool_ge, Hx. reflexivity.
  - intros ->. pose proof (cleaned_rh_cells d s H) as Hrh.
    change (range_of "RH") with (Some (0, 100)).
    split; f_equal.
    + apply (count_none _ _ _ Hrh).
      intros [v|] Hx; [|reflexivity]. apply Qlt_bool_ge, (Hx v eq_refl).
    + unfold out_of_range. apply (count_none _ _ _ Hrh).
      intros [v|] Hx; [|reflexivity]. destruct (Hx v eq_refl) as [H0 H1].
      now rewrite (Qlt_bool_ge _ _ H0), (Qlt_bool_ge _ _ H1).
Qed.

Lemma quality_report_of_cleaned_witness :
  exists row,
    report_row "GHI" (generate_quality_report (clean_data (ghi_scenario "Benin")))
    = Some row /\
    (In "GHI" OUTLIER_COLS -> Missing row = 0%nat) /\
    (In "GHI" Config.SOLAR_COLS -> Negatives row = Some 0%nat) /\
    ("GHI" = "RH" -> Negatives row = Some 0%nat /\ Out_of_Range row = Some 0%nat).
Proof.
  exact (quality_report_of_cleaned (ghi_scenario "Benin") "GHI" _ eq_refl).
Defined.

(* ================================================================== *)
(** * Further properties of the analysis *)

(** ** Group keys *)

Lemma compare_as_OT (a b : string) :
  OrdersEx.String_as_OT.compare a b = String.compare a b.
Proof.
  revert b; induction a as [|x xs IH]; destruct b as [|y ys]; simpl; auto.
Qed.

Lemma compare_lt_trans (a b c : string) :
  String.compare a b = Lt -> String.compare b c = Lt -> String.compare a c = Lt.
Proof.
  rewrite <- !compare_as_OT.
  apply (@StrictOrder_Transitive _ _ OrdersEx.String_as_OT.lt_strorder).
Qed.

Lemma compare_gt_lt (a b : string) :
  String.compare a b = Gt -> String.compare b a = Lt.
Proof. intros H. rewrite String.compare_antisym, H. reflexivity. Qed.

Lemma insert_key_In (k x : string) (l : list string) :
  In x (insert_key k l) <-> x = k \/ In x l.
Proof.
  induction l as [|h t IH]; simpl; [intuition|].
  destruct (String.compare k h) eqn:E; simpl.
  - apply String.compare_eq_iff in E. subst. intuition.
  - intuition.
  - rewrite IH. intuition.
Qed.

Lemma insert_key_ascending (k : string) (l : list string) :
  strictly_ascending l -> strictly_ascending (insert_key k l).
Proof.
  induction l as [|h t IH]; simpl; intros H.
  - auto.
  - destruct H as [Hh Ht]. destruct (String.compare k h) eqn:E; simpl.
    + auto.
    + split; [|auto]. constructor; [exact E|].
      eapply Forall_impl; [|exact Hh]. intros y Hy.
      eapply compare_lt_trans; eauto.
    + split; [|auto]. apply Forall_forall. intros y Hy.
      apply insert_key_In in Hy. destruct Hy as [->|Hy].
      * apply compare_gt_lt, E.
      * rewrite Forall_forall in Hh. auto.
Qed.

Lemma group_keys_fold (l acc : list string) :
  strictly_ascending acc ->
  strictly_ascending (fold_left (fun a k => insert_key k a) l acc) /\
  (forall x, In x (fold_left (fun a k => insert_key k a) l acc)
             <-> In x l \/ In x acc).
Proof.
  revert acc; induction l as [|h t IH]; intros acc H; simpl.
  - split; [exact H | intuition].
  - destruct (IH (insert_key h acc) (insert_key_ascending h acc H)) as [Hs Hi].
    split; [exact Hs|]. intros x. rewrite Hi, insert_key_In. intuition.
Qed.

(** A [groupby] has one group per distinct key, in ascending order of the
    keys. *)
Lemma group_keys_sorted (l : list string) :
  strictly_ascending (group_keys l) /\
  (forall x, In x (group_keys l) <-> In x l).
Proof.
  unfold group_keys. destruct (group_keys_fold l [] I) as [Hs Hi].
  split; [exact Hs|]. intros x. rewrite Hi. simpl. tauto.
Qed.

(** ** Flagged rows and windows *)

Lemma flagged_from_In (s : Series) (i0 idx : Z) :
  In idx (flagged_from i0 s) <->
  exists k, idx = (i0 + Z.of_nat k)%Z /\ (k < List.length s)%nat /\
            is_one (nth k s None) = true.
Proof.
  revert i0; induction s as [|c t IH]; intros i0; simpl.
  - split; [tauto | intros (k & _ & Hk & _); lia].
  - assert (Htail : In idx (flagged_from (i0 + 1) t) <->
                    exists k, idx = (i0 + Z.of_nat (S k))%Z /\
                              (k < List.length t)%nat /\
                              is_one (nth k t None) = true).
    { rewrite IH. split; intros (k & E & Hk & H1); exists k;
        (split; [lia | auto]). }
    destruct (is_one c) eqn:Ec; simpl; rewrite ?Htail; split.
    + intros [<-|(k & E & Hk & H1)].
      * exists 0%nat. repeat split; [lia | lia | exact Ec].
      * exists (S k). repeat split; [exact E | lia | exact H1].
    + intros ([|k] & E & Hk & H1).
      * left. lia.
      * right. exists k. repeat split; [exact E | lia | exact H1].
    + intros (k & E & Hk & H1).
      exists (S k). repeat split; [exact E | lia | exact H1].
    + intros ([|k] & E & Hk & H1).
      * simpl in H1. congruence.
      * exists k. repeat split; [exact E | lia | exact H1].
Qed.

(** The rows the analyzer takes for Cleaning events are exactly the rows
    whose [Cleaning] cell equals 1; a missing cell is no event. *)
Theorem flagged_rows (df : DataFrame) (s : Series) (idx : Z) :
  get_col "Cleaning" (cols df) = Some s ->
  (In idx (flagged df) <->
   exists k, idx = Z.of_nat k /\ (k < List.length s)%nat /\
             exists v, nth k s None = Some v /\ v == 1).
Proof.
  intros H. unfold flagged. rewrite H, flagged_from_In.
  split; intros (k & E & Hk & H1); exists k; (split; [lia|]); (split; [exact Hk|]).
  - unfold is_one in H1. destruct (nth k s None) as [v|]; [|discriminate].
    exists v. split; [reflexivity|]. apply Qeq_bool_iff, H1.
  - destruct H1 as (v & -> & Hv). apply Qeq_bool_iff, Hv.
Qed.

Lemma flagged_rows_witness :
  In 3%Z (flagged week) <->
  exists k, 3%Z = Z.of_nat k /\ (k < 7)%nat /\
            exists v, nth k (nums [0; 0; 0; 1; 0; 0; 0]%Z) None = Some v /\ v == 1.
Proof. exact (flagged_rows week _ 3%Z eq_refl). Defined.

Lemma three_from {A : Type} (s : list A) (k : nat) (d : A) :
  (k + 3 <= List.length s)%nat ->
  firstn 3 (skipn k s) = [nth k s d; nth (k + 1) s d; nth (k + 2) s d].
Proof.
  revert k; induction s as [|x t IH]; intros k H; simpl in H; [lia|].
  destruct k as [|k]; simpl.
  - destruct t as [|y [|z u]]; simpl in *; try lia. reflexivity.
  - apply IH. lia.
Qed.

(** For an index that passes the guard, the two windows are there in full:
    [pre] is taken over the three rows before the event and [post] over the
    three rows after it; the row of the event is in neither. *)
Theorem windows_of_qualifying_index (df : DataFrame) (s : Series) (idx : Z) :
  List.length s = nrows df ->
  qualifies df idx = true ->
  exists i,
    idx = Z.of_nat i /\
    loc_slice (idx - 3) (idx - 1) s
    = [nth (i - 3) s None; nth (i - 2) s None; nth (i - 1) s None] /\
    loc_slice (idx + 1) (idx + 3) s
    = [nth (i + 1) s None; nth (i + 2) s None; nth (i + 3) s None].
Proof.
  intros Hlen Hq. apply qualifies_bounds in Hq.
  exists (Z.to_nat idx). split; [lia|]. unfold loc_slice.
  replace (Z.to_nat (idx - 1 + 1) - Z.to_nat (idx - 3))%nat with 3%nat by lia.
  replace (Z.to_nat (idx + 3 + 1) - Z.to_nat (idx + 1))%nat with 3%nat by lia.
  replace (Z.to_nat (idx - 3)) with (Z.to_nat idx - 3)%nat by lia.
  replace (Z.to_nat (idx + 1)) with (Z.to_nat idx + 1)%nat by lia.
  split.
  - rewrite (three_from s _ None) by lia.
    replace (Z.to_nat idx - 3 + 1)%nat with (Z.to_nat idx - 2)%nat by lia.
    replace (Z.to_nat idx - 3 + 2)%nat with (Z.to_nat idx - 1)%nat by lia.
    reflexivity.
  - rewrite (three_from s _ None) by lia.
    replace (Z.to_nat idx + 1 + 1)%nat with (Z.to_nat idx + 2)%nat by lia.
    replace (Z.to_nat idx + 1 + 2)%nat with (Z.to_nat idx + 3)%nat by lia.
    reflexivity.
Qed.

Lemma windows_of_qualifying_index_witness :
  exists i,
    4%Z = Z.of_nat i /\
    loc_slice (4 - 3) (4 - 1) (nums [1; 2; 3; 4; 5; 6; 7; 8]%Z)
    = [nth (i - 3) (nums [1; 2; 3; 4; 5; 6; 7; 8]%Z) None;
       nth (i - 2) (nums [1; 2; 3; 4; 5; 6; 7; 8]%Z) None;
       nth (i - 1) (nums [1; 2; 3; 4; 5; 6; 7; 8]%Z) None] /\
    loc_slice (4 + 1) (4 + 3) (nums [1; 2; 3; 4; 5; 6; 7; 8]%Z)
    = [nth (i + 1) (nums [1; 2; 3; 4; 5; 6; 7; 8]%Z) None;
       nth (i + 2) (nums [1; 2; 3; 4; 5; 6; 7; 8]%Z) None;
       nth (i + 3) (nums [1; 2; 3; 4; 5; 6; 7; 8]%Z) None].
Proof.
  exact (windows_of_qualifying_index eight (nums [1; 2; 3; 4; 5; 6; 7; 8]%Z) 4
           eq_refl eq_refl).
Defined.

(** ** What the analyzer returns *)

Lemma missing_mod_nil (df : DataFrame) :
  missing_of ["ModA"; "ModB"] df = [] ->
  exists a b, get_col "ModA" (cols df) = Some a /\ get_col "ModB" (cols df) = Some b.
Proof.
  intros H.
  destruct (missing_of_nil _ _ "ModA" H) as [a Ha]; [simpl; tauto|].
  destruct (missing_of_nil _ _ "ModB" H) as [b Hb]; [simpl; tauto|].
  eauto.
Qed.

Lemma missing_mod_not_nil (df : DataFrame) :
  missing_of ["ModA"; "ModB"] df <> [] ->
  forall idx, event_at df idx = inl (KeyError (missing_of ["ModA"; "ModB"] df)).
Proof.
  intros H idx. unfold event_at.
  destruct (get_col "ModA" (cols df)) as [a|] eqn:Ea;
    destruct (get_col "ModB" (cols df)) as [b|] eqn:Eb; try reflexivity.
  exfalso. apply H. unfold missing_of, has_col. simpl. now rewrite Ea, Eb.
Qed.

Lemma collect_events_regions (df : DataFrame) (idxs : list Z)
  (results : list Event) :
  missing_of ["ModA"; "ModB"] df = [] ->
  exists events,
    collect_events df idxs results = inr (results ++ events) /\
    map ev_Region events = map (region_at df) (filter (qualifies df) idxs).
Proof.
  intros Hm. destruct (missing_mod_nil df Hm) as (a & b & Ha & Hb).
  revert results; induction idxs as [|i t IH]; intros results; simpl.
  - exists []. now rewrite app_nil_r.
  - destruct (qualifies df i) eqn:Eq.
    + unfold event_at. rewrite Ha, Hb.
      match goal with
      | |- context [collect_events df t (results ++ [?e])] =>
          destruct (IH (results ++ [e])) as (events & Hrun & Hreg);
          exists (e :: events)
      end.
      rewrite Hrun, <- app_assoc. simpl. now rewrite Hreg.
    + apply IH.
Qed.

Lemma collect_events_missing (df : DataFrame) (idxs : list Z)
  (results : list Event) :
  missing_of ["ModA"; "ModB"] df <> [] ->
  filter (qualifies df) idxs <> [] ->
  collect_events df idxs results
  = inl (KeyError (missing_of ["ModA"; "ModB"] df)).
Proof.
  intros Hm. induction idxs as [|i t IH]; simpl; [congruence|].
  destruct (qualifies df i).
  - intros _. now rewrite (missing_mod_not_nil df Hm).
  - exact IH.
Qed.

(** With at least one qualifying event and [ModA] and [ModB] there, the
    analyzer returns one row per region that has a qualifying event: the
    regions are those of the flagged rows that pass the guard, each once,
    in ascending order. *)
Theorem analyze_cleaning_impact_regions (df : DataFrame) :
  has_col "Cleaning" df = true ->
  missing_of ["ModA"; "ModB"] df = [] ->
  filter (qualifies df) (flagged df) <> [] ->
  exists result,
    analyze_cleaning_impact df = inr result /\
    strictly_ascending (map fst result) /\
    (forall r, In r (map fst result) <->
               exists idx, In idx (flagged df) /\ qualifies df idx = true /\
                           region_at df idx = r).
Proof.
  unfold has_col, flagged, analyze_cleaning_impact, cleaning_events.
  destruct (get_col "Cleaning" (cols df)) as [s|]; [|discriminate].
  intros _ Hm Hq.
  destruct (collect_events_regions df (flagged_from 0 s) [] Hm)
    as (events & Hrun & Hreg).
  rewrite Hrun. simpl app.
  assert (Hne : events <> []).
  { intros ->. simpl in Hreg. symmetry in Hreg.
    apply map_eq_nil in Hreg. contradiction. }
  unfold group_mean. destruct events as [|e0 et] eqn:Ee; [congruence|].
  rewrite <- Ee in *. clear Ee e0 et.
  eexists. split; [reflexivity|].
  rewrite map_map. cbn [fst]. rewrite map_id.
  destruct (group_keys_sorted (map ev_Region events)) as [Hs Hi].
  split; [exact Hs|].
  intros r. rewrite Hi, Hreg, in_map_iff. split.
  - intros (idx & Hr & Hin). apply filter_In in Hin. destruct Hin. eauto.
  - intros (idx & Hin & Hq' & Hr). exists idx. split; [exact Hr|].
    apply filter_In. auto.
Qed.

Lemma analyze_cleaning_impact_regions_witness :
  exists result,
    analyze_cleaning_impact eight = inr result /\
    strictly_ascending (map fst result) /\
    (forall r, In r (map fst result) <->
               exists idx, In idx (flagged eight) /\ qualifies eight idx = true /\
                           region_at eight idx = r).
Proof.
  apply analyze_cleaning_impact_regions.
  - reflexivity.
  - reflexivity.
  - vm_compute. discriminate.
Defined.

(** With a qualifying event but without [ModA] or [ModB], the analyzer
    raises a [KeyError] that names the missing columns; without the
    [Cleaning] column it raises [KeyError: 'Cleaning']. *)
Theorem analyze_cleaning_impact_missing_column (df : DataFrame) :
  (has_col "Cleaning" df = false ->
   analyze_cleaning_impact df = inl (KeyError ["Cleaning"])) /\
  (has_col "Cleaning" df = true ->
   missing_of ["ModA"; "ModB"] df <> [] ->
   filter (qualifies df) (flagged df) <> [] ->
   analyze_cleaning_impact df
   = inl (KeyError (missing_of ["ModA"; "ModB"] df))).
Proof.
  unfold has_col, flagged, analyze_cleaning_impact, cleaning_events.
  destruct (get_col "Cleaning" (cols df)) as [s|]; split;
    try discriminate; try reflexivity.
  intros _ Hm Hq. now rewrite (collect_events_missing df _ [] Hm Hq).
Qed.

Lemma analyze_cleaning_impact_missing_column_witness :
  analyze_cleaning_impact no_modb = inl (KeyError ["ModB"]).
Proof.
  refine (proj2 (analyze_cleaning_impact_missing_column no_modb) eq_refl _ _);
    vm_compute; discriminate.
Defined.

(** ** What the recommendation engine returns *)

Lemma analysis_table_keys (lib : Pandas) (d : DataFrame) :
  missing_of AGG_COLS d = [] ->
  exists analysis,
    analysis_table lib d = inr analysis /\
    map fst analysis = group_keys (Region d).
Proof.
  intros Hm.
  destruct (analysis_table_rows lib d Hm)
    as (ghi & dni & tamb & prec & gust & _ & _ & _ & Ht).
  eexists. split; [exact Ht|].
  rewrite map_map. cbn [fst]. apply map_id.
Qed.

Lemma analysis_table_missing (lib : Pandas) (d : DataFrame) :
  missing_of AGG_COLS d <> [] ->
  analysis_table lib d = inl (KeyError (missing_of AGG_COLS d)).
Proof.
  intros Hm. unfold analysis_table.
  destruct (get_col "GHI" (cols d)) eqn:E1; [|reflexivity].
  destruct (get_col "DNI" (cols d)) eqn:E2; [|reflexivity].
  destruct (get_col "Tamb" (cols d)) eqn:E3; [|reflexivity].
  destruct (get_col "Precipitation" (cols d)) eqn:E4; [|reflexivity].
  destruct (get_col "WSgust" (cols d)) eqn:E5; [|reflexivity].
  exfalso. apply Hm. unfold missing_of, AGG_COLS, has_col. simpl.
  now rewrite E1, E2, E3, E4, E5.
Qed.

(** What the engine does, by the frame and by the library.  A frame that
    lacks a column among GHI, DNI, Tamb, Precipitation and WSgust raises a
    [KeyError] naming the absent ones; with all of them there, a Dataset
    with no row raises [ValueError] on the empty table.  On a Dataset with
    rows the readings decide: with a region that has two GHI readings and
    a region that has a DNI reading, the engine returns a Recommendation;
    without them (one row per region is such a Dataset) it raises
    [ValueError] from pandas 3.0 on and returns a Recommendation, with NaN
    under some label, before. *)
Theorem generate_recommendations_outcome (lib : Pandas) (d : DataFrame) :
  match missing_of AGG_COLS d, nrows d with
  | _ :: _, _ =>
      generate_recommendations lib d
      = inl (KeyError (missing_of AGG_COLS d))
  | [], O =>
      generate_recommendations lib d
      = inl (ValueError "attempt to get argmax of an empty sequence")
  | [], S _ =>
      if all_na_raises lib && negb (enough_readings d)
      then generate_recommendations lib d
           = inl (ValueError "Encountered all NA values")
      else exists rec,
             generate_recommendations lib d = inr rec /\
             (enough_readings d = true ->
              exists best stable risk csp,
                rec = mkRec (Some best) (Some stable) (Some risk) (Some csp)) /\
             (enough_readings d = false ->
              Most_Stable_Radiation rec = None \/
              Optimal_CSP_Location rec = None)
  end.
Proof.
  destruct (missing_of AGG_COLS d) as [|m0 mt] eqn:Em.
  - destruct (analysis_table_keys lib d Em) as (analysis & Ht & Hk).
    destruct (nrows d) as [|n] eqn:En.
    + unfold nrows in En. apply length_zero_iff_nil in En.
      rewrite En in Hk. cbn in Hk. apply map_eq_nil in Hk. subst analysis.
      unfold generate_recommendations. rewrite Ht. reflexivity.
    + assert (Hne : analysis <> []).
      { intros E. apply (group_keys_nonempty (Region d)).
        - unfold nrows in En. destruct (Region d); [discriminate | congruence].
        - rewrite <- Hk, E. reflexivity. }
      pose proof (generate_recommendations_cases lib d analysis Ht Hne) as Hc.
      destruct (all_na_raises lib && negb (enough_readings d)); [exact Hc|].
      destruct Hc as [rec Hrec]. exists rec. split; [exact Hrec|].
      destruct (generate_recommendations_selects lib d analysis rec Ht Hrec)
        as (F1 & F2 & F3 & F4).
      pose proof (selected_have_values lib d analysis Ht Hne) as Hv.
      split.
      * intros He. rewrite He in Hv.
        apply andb_prop in Hv. destruct Hv as [Hv V4].
        apply andb_prop in Hv. destruct Hv as [Hv V3].
        apply andb_prop in Hv. destruct Hv as [V1 V2].
        destruct rec as [[b|] [s|] [r|] [c|]];
          cbn [Best_Overall_Potential Most_Stable_Radiation
               Lowest_Maintenance_Risk Optimal_CSP_Location] in *;
          try (apply first_best_none in F1; congruence);
          try (apply first_best_none in F2; congruence);
          try (apply first_best_none in F3; congruence);
          try (apply first_best_none in F4; congruence).
        exists b, s, r, c. reflexivity.
      * intros He. rewrite He in Hv.
        destruct (Most_Stable_Radiation rec) as [s|] eqn:Es; [|now left].
        destruct (Optimal_CSP_Location rec) as [c|] eqn:Ec; [|now right].
        exfalso.
        apply first_best_some in F2. apply first_best_some in F4.
        rewrite F2, F4 in Hv.
        destruct (Best_Overall_Potential rec) as [b|] eqn:Eb.
        -- apply first_best_some in F1. rewrite F1 in Hv.
           destruct (Lowest_Maintenance_Risk rec) as [r|] eqn:Er.
           ++ apply first_best_some in F3. rewrite F3 in Hv. discriminate.
           ++ apply first_best_none in F3.
              assert (T : has_value (column_of Precipitation_sum analysis) = true).
              { destruct (analysis_table_rows lib d Em)
                  as (ghi & dni & tamb & prec & gust & _ & _ & _ & Hrows).
                rewrite Hrows in Ht. injection Ht as Ht. subst analysis.
                unfold column_of. rewrite map_map.
                cbn [fst snd Precipitation_sum].
                rewrite (has_value_agg lib Sum
                           (fun k => group_of k (Region d) prec)).
                destruct (group_keys (Region d)); [now elim Hne | reflexivity]. }
              congruence.
        -- apply first_best_none in F1.
           (* a standard deviation needs two readings, a mean one *)
           destruct (analysis_table_rows lib d Em)
             as (ghi & dni & tamb & prec & gust & _ & _ & _ & Hrows).
           rewrite Hrows in Ht. injection Ht as Ht. subst analysis.
           unfold column_of in F1, F2. rewrite map_map in F1, F2.
           cbn [fst snd GHI_mean GHI_std] in F1, F2.
           rewrite (has_value_agg lib Mean
                      (fun k => group_of k (Region d) ghi)) in F1.
           rewrite (has_value_agg lib Std
                      (fun k => group_of k (Region d) ghi)) in F2.
           cbv beta iota in F1, F2.
           apply existsb_exists in F2. destruct F2 as (k & Hin & Hk2).
           assert (T : existsb
                         (fun k => (1 <=? List.length
                                            (valid (group_of k (Region d) ghi)))%nat)
                         (group_keys (Region d)) = true).
           { apply existsb_exists. exists k. split; [exact Hin|].
             apply Nat.leb_le in Hk2. apply Nat.leb_le. lia. }
           congruence.
  - unfold generate_recommendations.
    rewrite analysis_table_missing by (rewrite Em; discriminate).
    now rewrite Em.
Qed.

Lemma first_best_label (worse nb : Q -> Q -> Prop) (l : list (string * cell))
  (r : string) :
  first_best worse nb l (Some r) -> In r (map fst l).
Proof.
  intros (pre & v & post & -> & _). rewrite map_app. apply in_or_app.
  right. now left.
Qed.

Lemma column_of_labels (f : AggRow -> cell) (t : list (string * AggRow)) :
  map fst (column_of f t) = map fst t.
Proof. unfold column_of. rewrite map_map. reflexivity. Qed.

(** The engine only recommends regions of the Dataset: whatever it returns
    under one of the four labels is the region of some row. *)
Theorem recommended_regions_exist (lib : Pandas) (d : DataFrame)
  (rec : Recommendation) (r : string) :
  generate_recommendations lib d = inr rec ->
  Best_Overall_Potential rec = Some r \/ Most_Stable_Radiation rec = Some r \/
  Lowest_Maintenance_Risk rec = Some r \/ Optimal_CSP_Location rec = Some r ->
  In r (Region d).
Proof.
  intros Hrec Hr.
  destruct (missing_of AGG_COLS d) as [|m0 mt] eqn:Em.
  - destruct (analysis_table_keys lib d Em) as (analysis & Ht & Hk).
    destruct (generate_recommendations_selects lib d analysis rec Ht Hrec)
      as (F1 & F2 & F3 & F4).
    assert (Hin : forall f x,
               (first_max (column_of f analysis) (Some x) \/
                first_min (column_of f analysis) (Some x)) ->
               In x (Region d)).
    { intros f x Hf. apply group_keys_sorted. rewrite <- Hk.
      rewrite <- (column_of_labels f).
      destruct Hf as [Hf|Hf]; eapply first_best_label; exact Hf. }
    destruct Hr as [E | [E | [E | E]]].
    + rewrite E in F1. apply (Hin GHI_mean). now left.
    + rewrite E in F2. apply (Hin GHI_std). now right.
    + rewrite E in F3. apply (Hin Precipitation_sum). now right.
    + rewrite E in F4. apply (Hin DNI_median). now left.
  - unfold generate_recommendations in Hrec.
    rewrite analysis_table_missing in Hrec by (rewrite Em; discriminate).
    discriminate.
Qed.

Lemma recommended_regions_exist_witness : In "B" (Region two_regions).
Proof.
  apply (recommended_regions_exist (exact_arithmetic true) two_regions
           (mkRec (Some "B") (Some "A") (Some "A") (Some "B")) "B").
  - vm_compute. reflexivity.
  - left. reflexivity.
Defined.

(** ** The regional statistics *)

Lemma calculate_regional_stats_missing (lib : Pandas) (df : DataFrame) :
  missing_of STATS_COLS df <> [] ->
  calculate_regional_stats lib df
  = inl (KeyError (missing_of STATS_COLS df)).
Proof.
  intros Hm. unfold calculate_regional_stats.
  destruct (get_col "GHI" (cols df)) eqn:E1; [|reflexivity].
  destruct (get_col "DNI" (cols df)) eqn:E2; [|reflexivity].
  destruct (get_col "Tamb" (cols df)) eqn:E3; [|reflexivity].
  destruct (get_col "WS" (cols df)) eqn:E4; [|reflexivity].
  destruct (get_col "Precipitation" (cols df)) eqn:E5; [|reflexivity].
  exfalso. apply Hm. unfold missing_of, STATS_COLS, has_col. simpl.
  now rewrite E1, E2, E3, E4, E5.
Qed.

(** The aggregator fails only on a missing column, with a [KeyError] naming
    the absent ones among GHI, DNI, Tamb, WS and Precipitation.  Otherwise
    it returns one row per region of the Dataset, each region once, in
    ascending order; on a Dataset with no row that is the empty table, not
    an error. *)
Theorem calculate_regional_stats_outcome (lib : Pandas) (df : DataFrame) :
  match missing_of STATS_COLS df with
  | _ :: _ =>
      calculate_regional_stats lib df
      = inl (KeyError (missing_of STATS_COLS df))
  | [] =>
      exists stats,
        calculate_regional_stats lib df = inr stats /\
        strictly_ascending (map fst stats) /\
        (forall r, In r (map fst stats) <-> In r (Region df)) /\
        (nrows df = 0%nat -> stats = [])
  end.
Proof.
  destruct (missing_of STATS_COLS df) as [|m0 mt] eqn:Em.
  - destruct (missing_of_nil _ _ "GHI" Em) as [ghi Hghi]; [simpl; tauto|].
    destruct (missing_of_nil _ _ "DNI" Em) as [dni Hdni]; [simpl; tauto|].
    destruct (missing_of_nil _ _ "Tamb" Em) as [tamb Htamb]; [simpl; tauto|].
    destruct (missing_of_nil _ _ "WS" Em) as [ws Hws]; [simpl; tauto|].
    destruct (missing_of_nil _ _ "Precipitation" Em) as [prec Hprec];
      [simpl; tauto|].
    unfold calculate_regional_stats. rewrite Hghi, Hdni, Htamb, Hws, Hprec.
    eexists. split; [reflexivity|].
    rewrite map_map. cbn [fst]. rewrite map_id.
    destruct (group_keys_sorted (Region df)) as [Hs Hi].
    split; [exact Hs|]. split; [exact Hi|].
    intros Hn. unfold nrows in Hn. apply length_zero_iff_nil in Hn.
    now rewrite Hn.
  - rewrite <- Em. apply calculate_regional_stats_missing.
    rewrite Em. discriminate.
Qed.

(* ================================================================== *)
(** * Further properties of the loader *)

Lemma replace_underscore_clean (s : string) :
  no_underscore (replace_underscore s) = true /\
  String.length (replace_underscore s) = String.length s /\
  (no_underscore s = true -> replace_underscore s = s).
Proof.
  induction s as [|c t (IH1 & IH2 & IH3)]; simpl; [auto|].
  destruct (Ascii.eqb c "_"%char) eqn:E; simpl.
  - repeat split; [exact IH1 | now rewrite IH2 | discriminate].
  - rewrite E. simpl. repeat split; [exact IH1 | now rewrite IH2|].
    intros H. now rewrite IH3.
Qed.

Lemma load_region_data_result (read_csv : string -> Exn RawFrame)
  (region : string) :
  match read_csv (file_path region) with
  | inl e => load_region_data read_csv region = inl e
  | inr raw =>
      exists df,
        load_region_data read_csv region = inr df /\
        nrows df = raw_len raw /\
        Forall (fun r => r = replace_underscore region) (Region df) /\
        no_underscore (replace_underscore region) = true /\
        cols df = raw_cols raw /\
        (raw_well_formed raw -> well_formed df)
  end.
Proof.
  unfold load_region_data.
  destruct (read_csv (file_path region)) as [e|raw]; [reflexivity|].
  eexists. split; [reflexivity|]. unfold nrows. cbn [Region cols Comments].
  split; [apply repeat_length|].
  split; [apply Forall_forall; intros r Hr; now apply repeat_spec in Hr|].
  split; [apply replace_underscore_clean|]. split; [reflexivity|].
  intros [Hc HC]. unfold well_formed, nrows. cbn [Region cols Comments].
  rewrite repeat_length. split; assumption.
Qed.

(** A region that loads gives a frame with the rows of its file, every row
    tagged with the region name in which each underscore is replaced by a
    space; the columns of the file are kept as they are, and the frame has
    one cell per row when the parsed table has.  A region whose file does
    not load raises the reader's error unchanged. *)
Theorem load_region_data_tags_rows (read_csv : string -> Exn RawFrame)
  (region : string) :
  match read_csv (file_path region) with
  | inl e => load_region_data read_csv region = inl e
  | inr raw =>
      exists df,
        load_region_data read_csv region = inr df /\
        nrows df = raw_len raw /\
        Forall (fun r => r = replace_underscore region) (Region df) /\
        no_underscore (replace_underscore region) = true /\
        cols df = raw_cols raw /\
        (raw_well_formed raw -> well_formed df)
  end.
Proof. exact (load_region_data_result read_csv region). Qed.

(** ** Concatenation *)

Lemma dedup_In (x : string) (l : list string) : In x (dedup l) <-> In x l.
Proof.
  induction l as [|h t IH]; simpl; [tauto|].
  rewrite filter_In, IH. split.
  - intros [<-|[H _]]; auto.
  - intros [<-|H]; [now left|].
    destruct (String.eqb_spec x h) as [->|Hne]; [now left|].
    right. split; [exact H | reflexivity].
Qed.

Lemma get_col_named (F : string -> Series) (c : string) (names : list string) :
  get_col c (map (fun n => (n, F n)) names)
  = if existsb (String.eqb c) names then Some (F c) else None.
Proof.
  induction names as [|h t IH]; simpl; [reflexivity|].
  rewrite (String.eqb_sym c h).
  destruct (String.eqb_spec h c) as [->|Hne]; simpl; [reflexivity | exact IH].
Qed.

Lemma col_or_nan_length (c : string) (df : DataFrame) :
  well_formed df -> List.length (col_or_nan c df) = nrows df.
Proof.
  intros [Hc _]. unfold col_or_nan.
  destruct (get_col c (cols df)) as [s|] eqn:E.
  - destruct (get_col_In _ _ _ E) as [n Hin].
    rewrite Forall_forall in Hc. apply (Hc _ Hin).
  - apply repeat_length.
Qed.

Lemma comments_or_nan_length (df : DataFrame) :
  well_formed df -> List.length (comments_or_nan df) = nrows df.
Proof.
  intros [_ HC]. unfold comments_or_nan.
  destruct (Comments df); [exact HC | apply repeat_length].
Qed.

Lemma flat_map_length_total {A : Type} (F : DataFrame -> list A)
  (dfs : list DataFrame) :
  Forall (fun d => List.length (F d) = nrows d) dfs ->
  List.length (flat_map F dfs) = total_rows dfs.
Proof.
  induction 1 as [|d t Hd Ht IH]; simpl; [reflexivity|].
  now rewrite length_app, Hd, IH.
Qed.

Lemma concat_shape (dfs : list DataFrame) :
  Forall well_formed dfs ->
  nrows (concat dfs) = total_rows dfs /\
  Region (concat dfs) = flat_map Region dfs /\
  (forall c, (exists d, In d dfs /\ has_col c d = true) ->
             get_col c (cols (concat dfs)) = Some (flat_map (col_or_nan c) dfs)) /\
  well_formed (concat dfs).
Proof.
  intros Hwf.
  assert (Hn : nrows (concat dfs) = total_rows dfs).
  { unfold nrows at 1. cbn [concat Region].
    apply flat_map_length_total. apply Forall_forall. reflexivity. }
  split; [exact Hn|]. split; [reflexivity|]. split.
  - intros c (d & Hd & Hc). unfold concat. cbn [cols].
    rewrite get_col_named.
    assert (E : existsb (String.eqb c)
                  (dedup (flat_map (fun d => map fst (cols d)) dfs)) = true).
    { apply existsb_exists. exists c. split; [|apply String.eqb_refl].
      apply dedup_In, in_flat_map. exists d. split; [exact Hd|].
      unfold has_col in Hc. destruct (get_col c (cols d)) as [s|] eqn:Es;
        [|discriminate].
      clear - Es. induction (cols d) as [|[n x] t IH]; simpl in *; [discriminate|].
      destruct (String.eqb_spec n c); [now left | right; auto]. }
    now rewrite E.
  - split.
    + rewrite Hn. unfold concat. cbn [cols]. apply Forall_map, Forall_forall.
      intros c _. cbn [snd]. apply flat_map_length_total.
      eapply Forall_impl; [|exact Hwf]. intros d Hd.
      apply col_or_nan_length, Hd.
    + rewrite Hn. unfold concat. cbn [Comments].
      destruct (existsb _ dfs); [|exact I].
      apply flat_map_length_total.
      eapply Forall_impl; [|exact Hwf]. intros d Hd.
      apply comments_or_nan_length, Hd.
Qed.

(** Concatenation stacks the frames in order.  The result has as many rows
    as the frames together and their region tags in order; a column that
    some frame has is in the result, holding for each frame its cells of
    that column, or one NaN per row for a frame that lacks the column; so
    the result has one cell per row in every column when the frames have. *)
Theorem concat_stacks_frames (dfs : list DataFrame) :
  Forall well_formed dfs ->
  nrows (concat dfs) = total_rows dfs /\
  Region (concat dfs) = flat_map Region dfs /\
  (forall c, (exists d, In d dfs /\ has_col c d = true) ->
             get_col c (cols (concat dfs)) = Some (flat_map (col_or_nan c) dfs)) /\
  well_formed (concat dfs).
Proof. exact (concat_shape dfs). Qed.

Lemma concat_stacks_frames_witness :
  nrows (concat [week; eight]) = total_rows [week; eight] /\
  Region (concat [week; eight]) = flat_map Region [week; eight] /\
  (forall c, (exists d, In d [week; eight] /\ has_col c d = true) ->
             get_col c (cols (concat [week; eight]))
             = Some (flat_map (col_or_nan c) [week; eight])) /\
  well_formed (concat [week; eight]).
Proof.
  apply concat_stacks_frames.
  repeat constructor.
Defined.

Section LoaderShape.

Variable read_csv : string -> Exn RawFrame.

Hypothesis read_csv_well_formed :
  forall path raw, read_csv path = inr raw -> raw_well_formed raw.

Lemma loaded_well_formed (regions : list string) :
  Forall well_formed (loaded read_csv regions).
Proof.
  induction regions as [|r t IH]; simpl; [constructor|].
  fold (loaded read_csv t).
  destruct (load_region_data read_csv r) as [e|df] eqn:E; simpl; [exact IH|].
  constructor; [|exact IH].
  pose proof (load_region_data_result read_csv r) as H.
  destruct (read_csv (file_path r)) as [e|raw] eqn:Er; [congruence|].
  destruct H as (df' & Hdf & _ & _ & _ & _ & Hw).
  rewrite E in Hdf. injection Hdf as <-.
  apply Hw, (read_csv_well_formed _ _ Er).
Qed.

(** When every file that parses gives a table with one cell per row, the
    Dataset the loader returns has one cell per row in every column; it has
    the rows of the regions that loaded, in the order of the regions. *)
Theorem load_all_regions_well_formed (df : DataFrame) :
  load_all_regions_data read_csv = inr df ->
  well_formed df /\
  nrows df = total_rows (loaded read_csv Config.REGIONS) /\
  Region df = flat_map Region (loaded read_csv Config.REGIONS).
Proof.
  unfold load_all_regions_data, load_regions. rewrite load_loop_loaded.
  cbn [app].
  destruct (loaded read_csv Config.REGIONS) as [|d0 t] eqn:El; [discriminate|].
  intros [= <-].
  destruct (concat_shape (d0 :: t)) as (Hn & Hr & _ & Hw).
  - rewrite <- El. apply loaded_well_formed.
  - auto.
Qed.

End LoaderShape.

Lemma load_all_regions_well_formed_witness :
  well_formed (mkDF ["Togo"; "Togo"] None [("GHI", nums [10; 11]%Z)]) /\
  nrows (mkDF ["Togo"; "Togo"] None [("GHI", nums [10; 11]%Z)])
  = total_rows (loaded only_togo Config.REGIONS) /\
  Region (mkDF ["Togo"; "Togo"] None [("GHI", nums [10; 11]%Z)])
  = flat_map Region (loaded only_togo Config.REGIONS).
Proof.
  apply (load_all_regions_well_formed only_togo).
  - intros path raw. unfold only_togo.
    destruct (String.eqb path "data/raw/Togo_solar_data.csv").
    + intros [= <-]. split; [repeat constructor | exact I].
    + destruct (String.eqb path "data/raw/Sierraleon_solar_data.csv");
        discriminate.
  - reflexivity.
Defined.

(* ================================================================== *)
(** * The dashboard's cleaner and the library's *)

Lemma has_col_update (f : cell -> cell) (d : DataFrame) (c c' : string) :
  has_col c (update_col f d c') = has_col c d.
Proof.
  unfold has_col. rewrite update_col_cols, get_col_update.
  destruct (String.eqb c c'); [|reflexivity].
  now destruct (get_col c (cols d)).
Qed.

Lemma has_col_outlier_step (d : DataFrame) (c c' : string) :
  has_col c (outlier_step d c') = has_col c d.
Proof.
  unfold outlier_step. destruct (get_col c' (cols d)); [|reflexivity].
  unfold has_col. rewrite get_col_take_rows.
  now destruct (get_col c (cols d)).
Qed.

Lemma has_col_filled (d : DataFrame) (c : string) :
  has_col c (ffill (drop_comments d)) = has_col c d.
Proof.
  unfold has_col, ffill, drop_comments; cbn [cols]. rewrite get_col_map.
  now destruct (get_col c (cols d)).
Qed.

Lemma missing_of_same (l : list string) (d1 d2 : DataFrame) :
  (forall c, has_col c d1 = has_col c d2) ->
  missing_of l d1 = missing_of l d2.
Proof.
  intros H. unfold missing_of. apply filter_ext. intros c. now rewrite H.
Qed.

Lemma fold_bind_raised {A : Type} (step : A -> string -> Exn A)
  (l : list string) (e : error) :
  fold_left (fun acc c => bind acc (fun d => step d c)) l (inl e) = inl e.
Proof. induction l as [|h t IH]; simpl; auto. Qed.

Lemma for_each_exn_run (step : DataFrame -> string -> Exn DataFrame)
  (pure : DataFrame -> string -> DataFrame) (l : list string) (d : DataFrame) :
  (forall x c, step x c = if has_col c x then inr (pure x c)
                          else inl (KeyError [c])) ->
  (forall x c c', has_col c (pure x c') = has_col c x) ->
  App.for_each_exn step l d
  = match missing_of l d with
    | [] => inr (fold_left pure l d)
    | c :: _ => inl (KeyError [c])
    end.
Proof.
  intros Hstep Hkeep. unfold App.for_each_exn.
  revert d; induction l as [|h t IH]; intros d; [reflexivity|].
  cbn [fold_left bind]. rewrite Hstep. unfold missing_of. cbn [filter].
  destruct (has_col h d) eqn:Eh; cbn [negb].
  - rewrite IH. fold (missing_of t (pure d h)). fold (missing_of t d).
    rewrite (missing_of_same t (pure d h) d); [reflexivity|].
    intros c. apply Hkeep.
  - apply fold_bind_raised.
Qed.

Lemma clip_step_run (f : cell -> cell) (x : DataFrame) (c : string) :
  App.clip_step f x c
  = if has_col c x then inr (update_col f x c) else inl (KeyError [c]).
Proof.
  unfold App.clip_step, App.getitem, has_col.
  now destruct (get_col c (cols x)).
Qed.

Lemma filter_step_run (x : DataFrame) (c : string) :
  App.filter_step x c
  = if has_col c x then inr (outlier_step x c) else inl (KeyError [c]).
Proof.
  unfold App.filter_step, App.getitem, has_col, outlier_step.
  now destruct (get_col c (cols x)).
Qed.

Lemma missing_of_app (l1 l2 : list string) (d : DataFrame) :
  missing_of (l1 ++ l2) d = missing_of l1 d ++ missing_of l2 d.
Proof. unfold missing_of. apply filter_app. Qed.

Lemma missing_of_cons (c : string) (l : list string) (d : DataFrame) :
  missing_of (c :: l) d
  = if has_col c d then missing_of l d else c :: missing_of l d.
Proof. unfold missing_of. cbn [filter]. now destruct (has_col c d). Qed.

Lemma has_col_clip_solar (d : DataFrame) (c : string) :
  has_col c (clip_solar (ffill (drop_comments d))) = has_col c d.
Proof.
  unfold clip_solar.
  assert (H : forall l x, has_col c (fold_left (update_col (clip_lower 0)) l x)
                          = has_col c x).
  { induction l as [|h t IH]; intros x; simpl; auto.
    now rewrite IH, has_col_update. }
  now rewrite H, has_col_filled.
Qed.

Lemma has_col_clipped (d : DataFrame) (c : string) :
  has_col c (clipped d) = has_col c d.
Proof.
  unfold clipped, clip_rh. now rewrite has_col_update, has_col_clip_solar.
Qed.

Lemma clean_solar_data_run (df : DataFrame) :
  App.clean_solar_data df
  = match missing_of App.REQUIRED df with
    | [] => inr (clean_data df)
    | c :: _ => inl (KeyError [c])
    end.
Proof.
  unfold App.clean_solar_data, App.REQUIRED.
  rewrite missing_of_app.
  rewrite (for_each_exn_run _ (update_col (clip_lower 0)))
    by (intros; first [apply clip_step_run | apply has_col_update]).
  rewrite (missing_of_same App.SOLAR_COLS (ffill (drop_comments df)) df)
    by (intros c; apply has_col_filled).
  destruct (missing_of App.SOLAR_COLS df) as [|m0 mt] eqn:Es; [|reflexivity].
  cbn [bind app].
  change (fold_left (update_col (clip_lower 0)) App.SOLAR_COLS
            (ffill (drop_comments df)))
    with (clip_solar (ffill (drop_comments df))).
  rewrite clip_step_run, has_col_clip_solar.
  rewrite (missing_of_cons "RH").
  destruct (has_col "RH" df) eqn:Erh; cbn [bind]; [|reflexivity].
  change (update_col (clip 0 100) (clip_solar (ffill (drop_comments df))) "RH")
    with (clipped df).
  rewrite (for_each_exn_run _ outlier_step)
    by (intros; first [apply filter_step_run | apply has_col_outlier_step]).
  rewrite (missing_of_same _ (clipped df) df) by (intros c; apply has_col_clipped).
  rewrite missing_of_app, Es. cbn [app].
  destruct (missing_of ["Tamb"; "WS"] df) as [|k0 kt]; [|reflexivity].
  cbn [bind]. change (App.SOLAR_COLS ++ ["Tamb"; "WS"]) with OUTLIER_COLS.
  rewrite <- remove_outliers_unfold, <- clean_data_reset. reflexivity.
Qed.

(** The dashboard's [clean_solar_data] has no guard on its columns.  When
    GHI, DNI, DHI, ModA, ModB, RH, Tamb and WS are all there it returns what
    the library's [clean_data] returns; otherwise it raises a [KeyError] for
    the first of them, in that order, that is absent. *)
Theorem app_clean_solar_data_agrees (df : DataFrame) :
  App.clean_solar_data df
  = match missing_of App.REQUIRED df with
    | [] => inr (clean_data df)
    | c :: _ => inl (KeyError [c])
    end.
Proof. exact (clean_solar_data_run df). Qed.

Lemma app_failed_uploads (uploads : list App.Upload) :
  Forall (fun u => exists e, App.parsed u = inl e) uploads ->
  App.full_df uploads = mkDF [] None [].
Proof.
  intros H. unfold App.full_df.
  assert (E : map App.load_region_data uploads
              = repeat (mkDF [] None []) (List.length uploads)).
  { induction H as [|u t [e He] Ht IH]; simpl; [reflexivity|].
    unfold App.load_region_data at 1. now rewrite He, IH. }
  rewrite E. clear. induction (List.length uploads) as [|n IH]; [reflexivity|].
  unfold concat in *. simpl in *. injection IH as H1 H2 H3.
  rewrite H1. f_equal.
  - destruct (existsb _ (repeat _ n)); [discriminate | reflexivity].
  - exact H3.
Qed.

(** When none of the uploaded files parses, every upload gives the empty
    frame, the stacked frame has no row and no column, and the dashboard's
    cleaning step raises [KeyError: 'GHI']. *)
Theorem app_no_parsable_upload (uploads : list App.Upload) :
  Forall (fun u => exists e, App.parsed u = inl e) uploads ->
  nrows (App.full_df uploads) = 0%nat /\
  cols (App.full_df uploads) = [] /\
  App.cleaned_df uploads = inl (KeyError ["GHI"]).
Proof.
  intros H. unfold App.cleaned_df. rewrite (app_failed_uploads uploads H).
  split; [reflexivity|]. split; [reflexivity|].
  now rewrite clean_solar_data_run.
Qed.

Lemma app_no_parsable_upload_witness :
  nrows (App.full_df [App.mkUpload "Togo_solar_data.csv"
                        (inl (ParserError "Error tokenizing data"))]) = 0%nat /\
  cols (App.full_df [App.mkUpload "Togo_solar_data.csv"
                       (inl (ParserError "Error tokenizing data"))]) = [] /\
  App.cleaned_df [App.mkUpload "Togo_solar_data.csv"
                    (inl (ParserError "Error tokenizing data"))]
  = inl (KeyError ["GHI"]).
Proof.
  apply app_no_parsable_upload. repeat constructor. eexists. reflexivity.
Defined.

Lemma split_head_clean (s : string) :
  no_underscore (App.split_head s) = true /\
  (exists rest, s = (App.split_head s ++ rest)%string) /\
  (no_underscore s = true -> App.split_head s = s).
Proof.
  induction s as [|c t (IH1 & [rest IH2] & IH3)]; simpl.
  - repeat split; auto. now exists EmptyString.
  - destruct (Ascii.eqb c "_"%char) eqn:E; simpl.
    + repeat split; [|discriminate]. now exists (String c t).
    + rewrite E. simpl. repeat split; [exact IH1| |].
      * exists rest. now rewrite <- IH2.
      * intros H. now rewrite IH3.
Qed.

Lemma split_head_file_name (region suffix : string) :
  no_underscore region = true ->
  App.split_head (region ++ String "_"%char suffix) = region.
Proof.
  induction region as [|c t IH]; simpl.
  - reflexivity.
  - destruct (Ascii.eqb c "_"%char); simpl; [discriminate|].
    intros H. now rewrite IH.
Qed.

(** The dashboard tags the rows of an upload with the file name up to its
    first underscore, a tag without underscore.  For a file named
    [<region>_solar_data.csv] with a region name that has no underscore
    this is the region name, the tag the library's loader gives; a region
    name with an underscore is cut at it by the dashboard, where the
    loader replaces the underscore by a space. *)
Theorem app_region_tag (u : App.Upload) (raw : RawFrame) :
  App.parsed u = inr raw ->
  Region (App.load_region_data u)
  = repeat (App.split_head (App.name u)) (raw_len raw) /\
  no_underscore (App.split_head (App.name u)) = true /\
  (exists rest, App.name u = (App.split_head (App.name u) ++ rest)%string) /\
  (forall region,
     App.name u = (region ++ "_solar_data.csv")%string ->
     no_underscore region = true ->
     App.split_head (App.name u) = replace_underscore region).
Proof.
  intros H. unfold App.load_region_data. rewrite H. cbn [Region].
  destruct (split_head_clean (App.name u)) as (H1 & H2 & _).
  split; [reflexivity|]. split; [exact H1|]. split; [exact H2|].
  intros region -> Hr.
  rewrite (proj2 (proj2 (replace_underscore_clean region)) Hr).
  apply (split_head_file_name region "solar_data.csv" Hr).
Qed.

Lemma app_region_tag_witness :
  Region (App.load_region_data
            (App.mkUpload "Togo_solar_data.csv"
               (inr (mkRaw 2 None [("GHI", nums [10; 11]%Z)]))))
  = ["Togo"; "Togo"].
Proof.
  exact (proj1 (app_region_tag
                  (App.mkUpload "Togo_solar_data.csv"
                     (inr (mkRaw 2 None [("GHI", nums [10; 11]%Z)])))
                  _ eq_refl)).
Defined.

(** ** A single event *)

Lemma mean_single (x : cell) : cell_eq (mean [x]) x.
Proof.
  destruct x as [v|]; simpl; [|exact I].
  unfold mean, valid, Qsum. simpl. field.
Qed.

(** With exactly one qualifying event the table has one row, for the region
    of the flagged row, and its improvements are those of the event:
    mean of [post] minus mean of [pre], for ModA and for ModB. *)
Theorem analyze_single_event (df : DataFrame) (e : Event) :
  cleaning_events df = inr [e] ->
  exists row,
    analyze_cleaning_impact df = inr [(ev_Region e, row)] /\
    cell_eq (mean_ModA_Improvement row) (ModA_Improvement e) /\
    cell_eq (mean_ModB_Improvement row) (ModB_Improvement e).
Proof.
  intros H. unfold analyze_cleaning_impact. rewrite H.
  unfold group_mean, group_keys, group_of. cbn [map fold_left insert_key fst].
  rewrite String.eqb_refl. cbn [select].
  eexists. split; [reflexivity|].
  cbn [mean_ModA_Improvement mean_ModB_Improvement].
  split; apply mean_single.
Qed.

Lemma analyze_single_event_witness :
  exists row,
    analyze_cleaning_impact eight = inr [("Benin", row)] /\
    cell_eq (mean_ModA_Improvement row) (Some (36 # 9)) /\
    cell_eq (mean_ModB_Improvement row) (Some (9 # 9)).
Proof.
  exact (analyze_single_event eight
           (mkEvent "Benin" (Some (36 # 9)) (Some (9 # 9))) eq_refl).
Defined.

(* ================================================================== *)
(** * The stages in sequence *)

(** In the pipeline the report is computed on the raw frame and the cleaner
    is then run on the same frame: the report step leaves the frame as it
    is, so the cleaned Dataset is that of the raw Dataset, and after both
    steps the raw frame is still unchanged. *)
Theorem main_report_then_clean (h : store) (raw_df : ref) (d : DataFrame) :
  nth_error h raw_df = Some (ODataFrame d) ->
  exists report cleaned new,
    main_quality_then_clean raw_df h = Some ((report, cleaned), h ++ new) /\
    nth_error (h ++ new) report = Some (OReport (generate_quality_report d)) /\
    nth_error (h ++ new) cleaned = Some (ODataFrame (clean_data d)) /\
    nth_error (h ++ new) raw_df = Some (ODataFrame d).
Proof.
  intros H. unfold main_quality_then_clean.
  unfold mbind at 1. rewrite (generate_quality_report_prog_run h raw_df d H).
  set (h1 := h ++ [OReport (generate_quality_report d)]).
  assert (H1 : nth_error h1 raw_df = Some (ODataFrame d))
    by exact (nth_error_keep _ _ _ _ H).
  destruct (clean_data_prog_run h1 raw_df d H1) as (r & new & Hrun & Hget & Hle).
  unfold mbind at 1. rewrite Hrun. unfold ret.
  exists (List.length h), r, (OReport (generate_quality_report d) :: new).
  assert (E : h1 ++ new = h ++ OReport (generate_quality_report d) :: new)
    by (unfold h1; rewrite <- app_assoc; reflexivity).
  rewrite <- E. split; [reflexivity|]. split; [|split].
  - rewrite E. apply nth_error_end.
  - exact Hget.
  - exact (nth_error_keep _ _ _ _ H1).
Qed.

Lemma main_report_then_clean_witness :
  exists report cleaned new,
    main_quality_then_clean 0%nat [ODataFrame week]
    = Some ((report, cleaned), [ODataFrame week] ++ new) /\
    nth_error ([ODataFrame week] ++ new) report
    = Some (OReport (generate_quality_report week)) /\
    nth_error ([ODataFrame week] ++ new) cleaned
    = Some (ODataFrame (clean_data week)) /\
    nth_error ([ODataFrame week] ++ new) 0%nat = Some (ODataFrame week).
Proof.
  exact (main_report_then_clean [ODataFrame week] 0%nat week eq_refl).
Defined.

(** The statistics table and the table the Recommendation Engine selects
    from are computed alike: for a region, the mean and standard deviation
    of GHI and of Tamb, the median of DNI and the total Precipitation are
    the same in both. *)
Theorem stats_agree_with_analysis (lib : Pandas) (df : DataFrame)
  (stats : list (string * StatsRow)) (analysis : list (string * AggRow))
  (k : string) (srow : StatsRow) (arow : AggRow) :
  calculate_regional_stats lib df = inr stats ->
  analysis_table lib df = inr analysis ->
  In (k, srow) stats -> In (k, arow) analysis ->
  stats_GHI_mean srow = GHI_mean arow /\
  stats_GHI_std srow = GHI_std arow /\
  stats_DNI_median srow = DNI_median arow /\
  stats_Tamb_mean srow = Tamb_mean arow /\
  stats_Tamb_std srow = Tamb_std arow /\
  stats_Precipitation_sum srow = Precipitation_sum arow.
Proof.
  unfold calculate_regional_stats, analysis_table.
  destruct (get_col "GHI" (cols df)) as [ghi|]; [|discriminate].
  destruct (get_col "DNI" (cols df)) as [dni|]; [|discriminate].
  destruct (get_col "Tamb" (cols df)) as [tamb|]; [|discriminate].
  destruct (get_col "WS" (cols df)) as [ws|]; [|discriminate].
  destruct (get_col "Precipitation" (cols df)) as [prec|]; [|discriminate].
  destruct (get_col "WSgust" (cols df)) as [gust|]; [|discriminate].
  intros [= <-] [= <-] Hs Ha.
  apply in_map_iff in Hs. destruct Hs as (k1 & [= -> <-] & _).
  apply in_map_iff in Ha. destruct Ha as (k2 & [= -> <-] & _).
  repeat split.
Qed.

Lemma stats_agree_with_analysis_witness :
  exists stats analysis srow arow,
    calculate_regional_stats (exact_arithmetic true) two_regions_full
    = inr stats /\
    analysis_table (exact_arithmetic true) two_regions_full = inr analysis /\
    In ("B", srow) stats /\ In ("B", arow) analysis /\
    stats_GHI_mean srow = GHI_mean arow /\
    stats_GHI_std srow = GHI_std arow /\
    stats_DNI_median srow = DNI_median arow /\
    stats_Tamb_mean srow = Tamb_mean arow /\
    stats_Tamb_std srow = Tamb_std arow /\
    stats_Precipitation_sum srow = Precipitation_sum arow.
Proof.
  destruct (calculate_regional_stats (exact_arithmetic true) two_regions_full)
    as [e|stats] eqn:Es;
    [vm_compute in Es; discriminate|].
  destruct (analysis_table (exact_arithmetic true) two_regions_full)
    as [e|analysis] eqn:Ea;
    [vm_compute in Ea; discriminate|].
  assert (Hs : exists srow, In ("B", srow) stats).
  { pose proof Es as E. vm_compute in E. injection E as <-.
    eexists. right. left. reflexivity. }
  assert (Ha : exists arow, In ("B", arow) analysis).
  { pose proof Ea as E. vm_compute in E. injection E as <-.
    eexists. right. left. reflexivity. }
  destruct Hs as [srow Hs]. destruct Ha as [arow Ha].
  exists stats, analysis, srow, arow.
  split; [reflexivity|]. split; [reflexivity|].
  split; [exact Hs|]. split; [exact Ha|].
  exact (stats_agree_with_analysis (exact_arithmetic true) two_regions_full
           stats analysis "B" srow arow Es Ea Hs Ha).
Defined.

(* ================================================================== *)
(** * The second dashboard *)

(** The run that loads the data cannot show the analysis: with no cleaned
    frame in the session and no click on "Clean Data", the script reaches
    [calculate_regional_stats(df_clean)] with [df_clean] unbound and stops
    with a [NameError]; the loaded frame is in the session by then.  The
    next run, started by the click on "Clean Data", cleans that frame,
    keeps the result in the session and analyses it: it does not stop on a
    [NameError]. *)
Theorem dashboard_needs_clean_click (lib : Pandas) (load : Exn DataFrame)
  (d : DataFrame) (s : Dashboard.Session) :
  load = inr d ->
  Dashboard.df_clean s = None ->
  Dashboard.run lib load true false s
  = (Dashboard.mkSession (Some d) None,
     inl (Dashboard.NameError "df_clean")) /\
  exists out,
    Dashboard.run lib load false true (Dashboard.mkSession (Some d) None)
    = (Dashboard.mkSession (Some d) (Some (clean_data d)), out) /\
    out = Dashboard.analyse lib (Some (clean_data d)) /\
    out <> inl (Dashboard.NameError "df_clean").
Proof.
  intros -> Hs. split.
  - unfold Dashboard.run. cbn [Dashboard.df Dashboard.df_clean]. rewrite Hs.
    reflexivity.
  - exists (Dashboard.analyse lib (Some (clean_data d))).
    split; [reflexivity|]. split; [reflexivity|].
    unfold Dashboard.analyse.
    destruct (calculate_regional_stats lib (clean_data d));
      cbv beta iota; [discriminate|].
    destruct (analyze_cleaning_impact (clean_data d));
      cbv beta iota; [discriminate|].
    destruct (generate_recommendations lib (clean_data d));
      cbv beta iota; discriminate.
Qed.

Lemma dashboard_needs_clean_click_witness :
  Dashboard.run (exact_arithmetic true) (inr week) true false
    (Dashboard.mkSession None None)
  = (Dashboard.mkSession (Some week) None,
     inl (Dashboard.NameError "df_clean")).
Proof.
  exact (proj1 (dashboard_needs_clean_click (exact_arithmetic true)
                  (inr week) week (Dashboard.mkSession None None)
                  eq_refl eq_refl)).
Defined.
